(** * Prediction-market confirmation pipeline and live-stats stream

    A shallow embedding of the TypeScript sources

      - [lib/config/constants.ts]: modules [BET_LIMITS], [ANTI_MANIPULATION],
        [ERROR_CODES], [VALIDATION_MESSAGES] and [Float64]
      - [lib/blockchain/viem-client.ts] and [lib/blockchain/tx-validator.ts]:
        module [TxValidator]
      - [lib/validation/bet-rules.ts]: module [BetRules]
      - [lib/db/client.ts]: module [Db]
      - [app/api/bets/confirm/route.ts]: module [ConfirmRoute]
      - [app/api/markets/live-stats/route.ts]: module [LiveStats]
      - the utility validators of [lib/validation/bet-rules.ts]: module
        [BetRulesUtil]; the calculation helpers of the bet-validation hook:
        module [BetCalc]
      - the status helpers, [monitorTransaction] and the unit conversions of
        [lib/blockchain]: modules [TxStatusHelpers] and [Wei], over the
        string and [BigInt] prelude [JsString]
      - the pool helpers of [lib/db/client.ts]: module [DbClient]
      - the rate limiter of [app/api/bets/get-user-bets/route.ts]: module
        [RateLimit]

    followed by the specification-level definitions and the theorems.

    Conventions.
      - [bigint] values are [Z].
      - Timestamps and counts are integral [number]s below 2^53; they are [Z].
      - Other [number]s (USDT display amounts, pool totals in USDT) are exact
        rationals [Q]; binary64 rounding is modelled bit for bit in [Float64],
        which embeds the two conversion helpers whose behaviour depends on it.
      - Strings are sequences of code units below 256 ([string]).
      - A JavaScript exception is the [Throw] case of [JsResult].
      - A request is handled at one instant [now] of the clock.
      - [console.log] and [console.error] calls have no effect on any result
        and are left out. *)

From Stdlib Require Import ZArith QArith Qround Qabs List String Ascii Lia Lqa.
From Stdlib Require Import Floats.SpecFloat.
From stdpp Require Import base option list strings gmap pretty.

Local Open Scope Z_scope.

(* ======================================================================= *)
(** * JavaScript prelude                                                     *)
(* ======================================================================= *)

Module Js.

(** A computation that returns or throws. *)
Inductive JsResult (A : Type) : Type :=
| Ok (a : A)
| Throw (message : string).
Arguments Ok {A} a.
Arguments Throw {A} message.

(** [s.slice(b, e)] for [0 <= b <= e]. *)
Definition slice (s : string) (b e : nat) : string :=
  String.substring b (e - b) s.

(** [s.slice(b)] for [0 <= b]. *)
Definition slice_from (s : string) (b : nat) : string :=
  String.substring b (String.length s - b) s.

Definition code_unit (c : ascii) : Z := Z.of_N (N_of_ascii c).

(** [String.prototype.toLowerCase] on code units below 256. *)
Definition lower_char (c : ascii) : ascii :=
  let n := code_unit c in
  if ((65 <=? n) && (n <=? 90)) || ((192 <=? n) && (n <=? 222) && negb (n =? 215))
  then ascii_of_N (Z.to_N (n + 32))
  else c.

Fixpoint toLowerCase (s : string) : string :=
  match s with
  | EmptyString => EmptyString
  | String c s' => String (lower_char c) (toLowerCase s')
  end.

Definition hex_digit_value (c : ascii) : option Z :=
  let n := code_unit c in
  if (48 <=? n) && (n <=? 57) then Some (n - 48)
  else if (97 <=? n) && (n <=? 102) then Some (n - 87)
  else if (65 <=? n) && (n <=? 70) then Some (n - 55)
  else None.

Fixpoint parse_hex_digits (acc : Z) (s : string) : option Z :=
  match s with
  | EmptyString => Some acc
  | String c s' =>
      match hex_digit_value c with
      | Some d => parse_hex_digits (16 * acc + d) s'
      | None => None
      end
  end.

(** [StrWhiteSpaceChar] restricted to code units below 256. *)
Definition StrWhiteSpaceChar (c : ascii) : bool :=
  let n := code_unit c in
  (n =? 9) || (n =? 10) || (n =? 11) || (n =? 12) || (n =? 13)
  || (n =? 32) || (n =? 160).

(** Removes the trailing white space of [s]. *)
Fixpoint trim_end (s : string) : string :=
  match s with
  | EmptyString => EmptyString
  | String c s' =>
      match trim_end s' with
      | EmptyString => if StrWhiteSpaceChar c then EmptyString else String c EmptyString
      | t => String c t
      end
  end.

(** [BigInt(`0x${h}`)]: [StringToBigInt] accepts a hexadecimal literal
    followed by white space and throws a [SyntaxError] otherwise. *)
Definition BigInt_0x (h : string) : JsResult Z :=
  match trim_end h with
  | EmptyString => Throw ("Cannot convert 0x" +:+ h +:+ " to a BigInt")
  | d =>
      match parse_hex_digits 0 d with
      | Some v => Ok v
      | None => Throw ("Cannot convert 0x" +:+ h +:+ " to a BigInt")
      end
  end.

Definition Qlt_bool (x y : Q) : bool := negb (Qle_bool y x).

(** [Number.isInteger]. *)
Definition isInteger (x : Q) : bool := Qeq_bool (inject_Z (Qfloor x)) x.

(** [BigInt(x)] on a number throws a [RangeError] unless [x] is integral. *)
Definition BigInt_of_number (x : Q) : JsResult Z :=
  if isInteger x then Ok (Qfloor x)
  else Throw "The number cannot be converted to a BigInt because it is not an integer".

(** [Number(b)] for a [bigint] [b], as an exact rational. *)
Definition Number_of_bigint (b : Z) : Q := inject_Z b.

(** [Math.ceil(k / d)] for integers [k] and [d > 0]. *)
Definition ceil_div (k d : Z) : Z := - ((- k) / d).

End Js.
Export Js.

(* ======================================================================= *)
(** * lib/config/constants.ts                                                *)
(* ======================================================================= *)

Module BET_LIMITS.
Definition MIN_BET : Z := 5.
Definition MAX_BET : Z := 5000.
Definition HOUSE_FEE_PERCENT : Z := 5.
Definition USDT_DECIMALS : Z := 6.
Definition MIN_BET_WEI : Z := 5000000.
Definition MAX_BET_WEI : Z := 5000000000.
End BET_LIMITS.

Module ANTI_MANIPULATION.
Definition COOLDOWN_SECONDS : Z := 300.
Definition MAX_BETS_PER_WALLET : Z := 10.
Definition POOL_CAP_PERCENT : Z := 10.
Definition MAX_BETS_IN_1_HOUR : Z := 3.
End ANTI_MANIPULATION.

Module ERROR_CODES.
Definition BET_MIN_EXCEEDED : string := "BET_MIN_EXCEEDED".
Definition BET_MAX_EXCEEDED : string := "BET_MAX_EXCEEDED".
Definition COOLDOWN_NOT_MET : string := "COOLDOWN_NOT_MET".
Definition BET_COUNT_EXCEEDED : string := "BET_COUNT_EXCEEDED".
Definition POOL_CAP_EXCEEDED : string := "POOL_CAP_EXCEEDED".
Definition VELOCITY_EXCEEDED : string := "VELOCITY_EXCEEDED".
Definition WALLET_FLAGGED : string := "WALLET_FLAGGED".
Definition MARKET_NOT_ACTIVE : string := "MARKET_NOT_ACTIVE".
Definition MARKET_NOT_FOUND : string := "MARKET_NOT_FOUND".
Definition TX_FAILED : string := "TX_FAILED".
End ERROR_CODES.

Module VALIDATION_MESSAGES.
Definition BET_AMOUNT_TOO_LOW : string :=
  "Minimum bet is " +:+ pretty BET_LIMITS.MIN_BET +:+ " USDT".
Definition BET_AMOUNT_TOO_HIGH : string :=
  "Maximum bet is " +:+ pretty BET_LIMITS.MAX_BET +:+ " USDT".
Definition BET_AMOUNT_INVALID : string := "Bet amount must be a whole number".
Definition BET_COUNT_EXCEEDED : string :=
  "Maximum " +:+ pretty ANTI_MANIPULATION.MAX_BETS_PER_WALLET +:+ " bets per market".
Definition POOL_CAP_EXCEEDED : string :=
  "Your bet would exceed " +:+ pretty ANTI_MANIPULATION.POOL_CAP_PERCENT +:+ "% pool limit".
Definition VELOCITY_EXCEEDED : string :=
  "Maximum " +:+ pretty ANTI_MANIPULATION.MAX_BETS_IN_1_HOUR +:+ " bets per hour".
Definition WALLET_FLAGGED : string := "Your wallet has been flagged for review".
Definition MARKET_NOT_ACTIVE : string := "Market is not accepting bets".
End VALIDATION_MESSAGES.

(** [isValidAddress]: the regular expression [/^0x[a-fA-F0-9]{40}$/]. *)
Definition isValidAddress (address : string) : bool :=
  String.eqb (slice address 0 2) "0x"
  && (String.length address =? 42)%nat
  && bool_decide (is_Some (parse_hex_digits 0 (slice_from address 2))).

(** ** Binary64 arithmetic and the two USDT conversion helpers *)

Module Float64.

Definition prec : Z := 53.
Definition emax : Z := 1024.

(** A JavaScript [number]. *)
Definition number : Type := spec_float.

(** [Number(z)] for a [bigint] [z]: the nearest binary64 value, ties to even. *)
Definition Number_of_bigint (z : Z) : number := binary_normalize prec emax z 0 false.

Definition mul : number -> number -> number := SFmul prec emax.
Definition div : number -> number -> number := SFdiv prec emax.

(** [Math.pow(10, n)] for the small non-negative integers [n] used here
    (the powers of ten up to 10^22 are binary64 values). *)
Definition pow10 (n : Z) : number := Number_of_bigint (10 ^ n).

(** [BigInt(Math.floor(x))]: [None] when [x] is NaN or infinite, where
    [BigInt] throws a [RangeError]. *)
Definition BigInt_floor (x : number) : option Z :=
  match x with
  | S754_zero _ => Some 0
  | S754_finite s m e =>
      let v := if s then Z.neg m else Z.pos m in
      Some (if 0 <=? e then v * 2 ^ e else v / 2 ^ (- e))
  | S754_infinity _ => None
  | S754_nan => None
  end.

(** [formatUSDT(weiAmount)] for a [bigint] argument. *)
Definition formatUSDT (weiAmount : Z) : number :=
  let amount := weiAmount in
  div (Number_of_bigint amount) (pow10 BET_LIMITS.USDT_DECIMALS).

(** [toUSDTWei(amount)]. *)
Definition toUSDTWei (amount : number) : option Z :=
  BigInt_floor (mul amount (pow10 BET_LIMITS.USDT_DECIMALS)).

End Float64.

(* ======================================================================= *)
(** * lib/types/prediction-market.ts                                         *)
(* ======================================================================= *)

Inductive BetChoice : Type := YES | NO.

Global Instance BetChoice_eq_dec : EqDecision BetChoice.
Proof. solve_decision. Defined.

(** The enum members are the strings ["YES"] and ["NO"]. *)
Definition BetChoice_to_string (c : BetChoice) : string :=
  match c with YES => "YES" | NO => "NO" end.

Record BetValidationError : Type := {
  field : string;
  message : string;
  code : string;
}.

(* ======================================================================= *)
(** * lib/blockchain/viem-client.ts and lib/blockchain/tx-validator.ts        *)
(* ======================================================================= *)

Module TxValidator.

Module FUNCTION_SELECTORS.
Definition PLACE_BET : string := "0x4cf088d9".
End FUNCTION_SELECTORS.

Inductive TxStatus : Type := pending | success | failed | not_found.

(** The fields of viem's [TransactionReceipt] and [Transaction] that the
    code reads. *)
Record TransactionReceipt : Type := {
  rc_status : string;
  rc_to : option string;
  rc_gasUsed : Z;
  rc_blockNumber : Z;
}.

Record Transaction : Type := {
  tx_input : string;
  tx_gas : Z;
  tx_gasPrice : option Z;
}.

(** The ledger reader: viem's [publicClient], whose calls return or throw. *)
Record PublicClient : Type := {
  getTransactionReceipt : string -> JsResult (option TransactionReceipt);
  getTransaction : string -> JsResult Transaction;
  getBlockNumber : JsResult Z;
}.

Record DecodedBetTransaction : Type := {
  d_isValid : bool;
  d_choice : option BetChoice;
  d_amount : option Z;
  d_error : option string;
}.

Inductive TxWarning : Type :=
| HighGasCost (gasCost : Z)
| NotYetConfirmed
| OnlyConfirmations (confirmations : Z).

Record ValidatedBetTransaction : Type := {
  v_isValid : bool;
  v_choice : option BetChoice;
  v_amount : option Q;
  v_amountWei : option Z;
  v_txHash : string;
  v_blockNumber : option Z;
  v_receipt : option TransactionReceipt;
  v_gasUsed : option Z;
  v_status : option TxStatus;
  v_errors : list string;
  v_warnings : list TxWarning;
}.

Record OnChainValidation : Type := {
  oc_isValid : bool;
  oc_receipt : option TransactionReceipt;
  oc_blockNumber : option Z;
  oc_status : TxStatus;
  oc_error : option string;
}.

Record TransactionDetails : Type := {
  td_data : string;
  td_gas : Z;
  td_gasPrice : option Z;
  td_gasUsed : option Z;
  td_blockNumber : option Z;
}.

Record Checked : Type := {
  ck_isValid : bool;
  ck_errors : list string;
}.

Definition invalid_decode (msg : string) : DecodedBetTransaction :=
  {| d_isValid := false; d_choice := None; d_amount := None; d_error := Some msg |}.

(** [decodePlaceBetTransaction]; the [catch] clause is reached from the two
    [BigInt] calls only. *)
Definition decodePlaceBetTransaction (transactionData : string) : DecodedBetTransaction :=
  let functionSelector := slice transactionData 0 10 in
  if negb (String.eqb functionSelector FUNCTION_SELECTORS.PLACE_BET) then
    invalid_decode "Not a placeBet transaction"
  else
    let params := slice_from transactionData 10 in
    if negb (String.length params =? 128)%nat then
      invalid_decode "Invalid transaction data length"
    else
      let choiceHex := slice params 0 64 in
      match BigInt_0x choiceHex with
      | Throw m => invalid_decode ("Failed to decode transaction: " +:+ m)
      | Ok choiceBigInt =>
          if negb (choiceBigInt =? 0) && negb (choiceBigInt =? 1) then
            invalid_decode "Invalid bet choice value"
          else
            let choice := if choiceBigInt =? 0 then YES else NO in
            let amountHex := slice params 64 128 in
            match BigInt_0x amountHex with
            | Throw m => invalid_decode ("Failed to decode transaction: " +:+ m)
            | Ok amount =>
                if (amount <? BET_LIMITS.MIN_BET_WEI) || (amount >? BET_LIMITS.MAX_BET_WEI) then
                  invalid_decode ("Amount " +:+ pretty amount +:+ " outside bet limits")
                else
                  {| d_isValid := true; d_choice := Some choice;
                     d_amount := Some amount; d_error := None |}
            end
      end.

(** [validateDecodedBet]; it throws when [BigInt(userAmount * 10 ** 6)]
    does. [!decoded.amount] holds for [undefined] and for [0n]. *)
Definition validateDecodedBet (decoded : DecodedBetTransaction)
    (userChoice : BetChoice) (userAmount : Q) : JsResult Checked :=
  match d_isValid decoded, d_choice decoded, d_amount decoded with
  | true, Some choice, Some amount =>
      if amount =? 0 then
        Ok {| ck_isValid := false; ck_errors := ["Transaction could not be decoded"] |}
      else
        let errors1 :=
          if bool_decide (choice <> userChoice) then
            ["Bet choice mismatch: transaction has " +:+ BetChoice_to_string choice
               +:+ ", user selected " +:+ BetChoice_to_string userChoice]
          else [] in
        match BigInt_of_number (Qmult userAmount (inject_Z (10 ^ BET_LIMITS.USDT_DECIMALS))) with
        | Throw m => Throw m
        | Ok expectedAmount =>
            let amountDiff :=
              if amount >? expectedAmount then amount - expectedAmount
              else expectedAmount - amount in
            let errors2 :=
              if amountDiff >? 1 then
                ["Bet amount mismatch: transaction has " +:+ pretty amount
                   +:+ ", user input " +:+ pretty expectedAmount]
              else [] in
            let errors := errors1 ++ errors2 in
            Ok {| ck_isValid := bool_decide (errors = []); ck_errors := errors |}
        end
  | _, _, _ =>
      Ok {| ck_isValid := false; ck_errors := ["Transaction could not be decoded"] |}
  end.

Definition opt_string (o : option string) : string :=
  match o with Some s => s | None => "null" end.

(** [validateTransactionReceipt]; [contract] is
    [CONTRACT_ADDRESSES.PREDICTION_MARKET], read from the environment. *)
Definition validateTransactionReceipt (contract : string)
    (receipt : option TransactionReceipt) (gasLimit : option Z) : Checked :=
  match receipt with
  | None => {| ck_isValid := false; ck_errors := ["No transaction receipt found"] |}
  | Some receipt =>
      let e1 :=
        if negb (String.eqb (rc_status receipt) "success") then
          ["Transaction reverted or failed (status: " +:+ rc_status receipt +:+ ")"]
        else [] in
      let e2 :=
        if negb (bool_decide (toLowerCase <$> rc_to receipt = Some (toLowerCase contract))) then
          ["Transaction was not sent to prediction market contract (received: "
             +:+ opt_string (rc_to receipt) +:+ ")"]
        else [] in
      let e3 :=
        match gasLimit with
        | Some gasLimit =>
            if negb (rc_gasUsed receipt =? 0) && negb (gasLimit =? 0)
               && (rc_gasUsed receipt >? Z.quot (gasLimit * 95) 100)
            then ["Transaction used suspiciously high amount of gas"]
            else []
        | None => []
        end in
      let errors := e1 ++ e2 ++ e3 in
      {| ck_isValid := bool_decide (errors = []); ck_errors := errors |}
  end.

(** [validateTransactionOnChain] (viem-client.ts). *)
Definition validateTransactionOnChain (contract : string) (publicClient : PublicClient)
    (txHash : string) : OnChainValidation :=
  match getTransactionReceipt publicClient txHash with
  | Throw m =>
      {| oc_isValid := false; oc_receipt := None; oc_blockNumber := None;
         oc_status := not_found;
         oc_error := Some ("Error validating transaction: " +:+ m) |}
  | Ok None =>
      match getTransaction publicClient txHash with
      | Ok _ =>
          {| oc_isValid := false; oc_receipt := None; oc_blockNumber := None;
             oc_status := pending;
             oc_error := Some "Transaction is pending confirmation" |}
      | Throw _ =>
          {| oc_isValid := false; oc_receipt := None; oc_blockNumber := None;
             oc_status := not_found;
             oc_error := Some "Transaction not found on-chain" |}
      end
  | Ok (Some receipt) =>
      let isSuccess := String.eqb (rc_status receipt) "success" in
      if negb isSuccess then
        {| oc_isValid := false; oc_receipt := Some receipt;
           oc_blockNumber := Some (rc_blockNumber receipt);
           oc_status := failed;
           oc_error := Some "Transaction reverted on-chain" |}
      else
        let toContract :=
          bool_decide (toLowerCase <$> rc_to receipt = Some (toLowerCase contract)) in
        if negb toContract then
          {| oc_isValid := false; oc_receipt := Some receipt;
             oc_blockNumber := Some (rc_blockNumber receipt);
             oc_status := success;
             oc_error := Some "Transaction did not interact with prediction market contract" |}
        else
          {| oc_isValid := true; oc_receipt := Some receipt;
             oc_blockNumber := Some (rc_blockNumber receipt);
             oc_status := success; oc_error := None |}
  end.

(** [getTransactionDetails] (viem-client.ts): [null] when a call throws. *)
Definition getTransactionDetails (publicClient : PublicClient) (txHash : string)
    : option TransactionDetails :=
  match getTransaction publicClient txHash, getTransactionReceipt publicClient txHash with
  | Ok tx, Ok receipt =>
      let details :=
        {| td_data := tx_input tx; td_gas := tx_gas tx; td_gasPrice := tx_gasPrice tx;
           td_gasUsed := rc_gasUsed <$> receipt;
           td_blockNumber := rc_blockNumber <$> receipt |} in
      match receipt with
      | Some _ =>
          match getBlockNumber publicClient with
          | Ok _ => Some details
          | Throw _ => None
          end
      | None => Some details
      end
  | _, _ => None
  end.

(** A [bigint] in a boolean position: [undefined] and [0n] are falsy. *)
Definition truthy_bigint (o : option Z) : bool :=
  match o with Some z => negb (z =? 0) | None => false end.

(** [validateBetTransaction]. *)
Definition validateBetTransaction (contract : string) (publicClient : PublicClient)
    (txHash : string) (userChoice : BetChoice) (userAmount : Q)
    : ValidatedBetTransaction :=
  let thrown (m : string) :=
    {| v_isValid := false; v_choice := None; v_amount := None; v_amountWei := None;
       v_txHash := txHash; v_blockNumber := None; v_receipt := None; v_gasUsed := None;
       v_status := Some not_found;
       v_errors := ["Unexpected error validating transaction: " +:+ m];
       v_warnings := [] |} in
  let early (errors : list string) (receipt : option TransactionReceipt)
      (blockNumber : option Z) (status : TxStatus) :=
    {| v_isValid := false; v_choice := None; v_amount := None; v_amountWei := None;
       v_txHash := txHash; v_blockNumber := blockNumber; v_receipt := receipt;
       v_gasUsed := None; v_status := Some status;
       v_errors := errors; v_warnings := [] |} in
  (* Step 1 *)
  let onChainValidation := validateTransactionOnChain contract publicClient txHash in
  if negb (oc_isValid onChainValidation) then
    early [default "Transaction failed on-chain" (oc_error onChainValidation)]
          None None (oc_status onChainValidation)
  else
    let receipt := oc_receipt onChainValidation in
    let blockNumber :=
      match oc_blockNumber onChainValidation with
      | Some b => if b =? 0 then None else Some b
      | None => None
      end in
    (* Step 2 *)
    match getTransactionDetails publicClient txHash with
    | None => early ["Could not retrieve transaction data"] receipt blockNumber success
    | Some txDetails =>
        if String.eqb (td_data txDetails) EmptyString then
          early ["Could not retrieve transaction data"] receipt blockNumber success
        else
          (* Step 3 *)
          let receiptValidation :=
            validateTransactionReceipt contract receipt (Some (td_gas txDetails)) in
          let errors3 := ck_errors receiptValidation in
          if negb (ck_isValid receiptValidation) then
            early errors3 receipt blockNumber failed
          else
            (* Step 4 *)
            let decoded := decodePlaceBetTransaction (td_data txDetails) in
            if negb (d_isValid decoded) then
              early (errors3 ++ [default "Could not decode bet transaction" (d_error decoded)])
                    receipt blockNumber success
            else
              (* Step 5 *)
              match validateDecodedBet decoded userChoice userAmount with
              | Throw m => thrown m
              | Ok decodeValidation =>
                  let errors := errors3 ++ ck_errors decodeValidation in
                  let amountWei := default 0 (d_amount decoded) in
                  let amountUsdt :=
                    Qdiv (Js.Number_of_bigint amountWei)
                         (inject_Z (10 ^ BET_LIMITS.USDT_DECIMALS)) in
                  (* Step 6 *)
                  let warnings6 :=
                    if truthy_bigint (td_gasUsed txDetails)
                       && truthy_bigint (td_gasPrice txDetails) then
                      let gasCost :=
                        default 0 (td_gasUsed txDetails) * default 0 (td_gasPrice txDetails) in
                      let gasCostUsdt :=
                        Qdiv (Js.Number_of_bigint gasCost) (inject_Z (10 ^ 18)) in
                      if Qlt_bool (Qmult amountUsdt (1 # 100)) gasCostUsdt
                      then [HighGasCost gasCost] else []
                    else [] in
                  (* Step 7 *)
                  let finish (warnings : list TxWarning) :=
                    {| v_isValid := bool_decide (errors = []);
                       v_choice := d_choice decoded;
                       v_amount := Some amountUsdt;
                       v_amountWei := d_amount decoded;
                       v_txHash := txHash;
                       v_blockNumber := oc_blockNumber onChainValidation;
                       v_receipt := receipt;
                       v_gasUsed := td_gasUsed txDetails;
                       v_status := Some success;
                       v_errors := errors;
                       v_warnings := warnings |} in
                  match receipt with
                  | Some rc =>
                      if truthy_bigint (td_blockNumber txDetails) then
                        match getBlockNumber publicClient with
                        | Throw m => thrown m
                        | Ok currentBlock =>
                            let confirmations := currentBlock - rc_blockNumber rc in
                            finish (warnings6 ++
                              if confirmations <? 1 then [NotYetConfirmed]
                              else if confirmations <? 3 then [OnlyConfirmations confirmations]
                              else [])
                        end
                      else finish warnings6
                  | None => finish warnings6
                  end
              end
    end.

(** [formatValidationErrors]. *)
Definition formatValidationErrors (errors : list string) : string :=
  match errors with
  | [] => EmptyString
  | [e] => e
  | e :: _ => e +:+ " (+ " +:+ pretty (length errors - 1)%nat +:+ " more errors)"
  end.

End TxValidator.

(* ======================================================================= *)
(** * lib/validation/bet-rules.ts                                            *)
(* ======================================================================= *)

Module BetRules.

Inductive ValidationWarning : Type :=
| LargeAmount (amount : Q)
| ApproachingPoolCap (walletExposurePercent : Q).

Record ValidationResult : Type := {
  isValid : bool;
  errors : list BetValidationError;
  warnings : list ValidationWarning;
}.

(** [validateBetAmount]. Every rational is a finite [number], so the first
    guard of the source ([typeof amount !== "number" || !isFinite(amount)])
    never fires here. *)
Definition validateBetAmount (amount : Q) : list BetValidationError :=
  if Qle_bool amount 0 then
    [ {| field := "amount"; message := "Bet amount must be greater than 0";
         code := "INVALID_AMOUNT" |} ]
  else if negb (isInteger amount) then
    [ {| field := "amount"; message := VALIDATION_MESSAGES.BET_AMOUNT_INVALID;
         code := "INVALID_AMOUNT" |} ]
  else
    (if Qlt_bool amount (inject_Z BET_LIMITS.MIN_BET) then
       [ {| field := "amount"; message := VALIDATION_MESSAGES.BET_AMOUNT_TOO_LOW;
            code := ERROR_CODES.BET_MIN_EXCEEDED |} ]
     else [])
    ++
    (if Qlt_bool (inject_Z BET_LIMITS.MAX_BET) amount then
       [ {| field := "amount"; message := VALIDATION_MESSAGES.BET_AMOUNT_TOO_HIGH;
            code := ERROR_CODES.BET_MAX_EXCEEDED |} ]
     else []).

(** [validateBetChoice]; the argument has type [unknown], here a string. *)
Definition validateBetChoice (choice : string) : list BetValidationError :=
  if negb (String.eqb choice (BetChoice_to_string YES))
     && negb (String.eqb choice (BetChoice_to_string NO)) then
    [ {| field := "choice"; message := "Bet choice must be YES or NO";
         code := "INVALID_CHOICE" |} ]
  else [].

(** [validateCooldown]; [!lastBetTimestamp] holds for [null] and for [0]. *)
Definition validateCooldown (lastBetTimestamp : option Z) (currentTime : Z)
    : list BetValidationError :=
  match lastBetTimestamp with
  | None => []
  | Some lastBetTimestamp =>
      if lastBetTimestamp =? 0 then []
      else
        let timeSinceLastBet := currentTime - lastBetTimestamp in
        let cooldownMs := ANTI_MANIPULATION.COOLDOWN_SECONDS * 1000 in
        if timeSinceLastBet <? cooldownMs then
          let secondsRemaining := ceil_div (cooldownMs - timeSinceLastBet) 1000 in
          [ {| field := "cooldown";
               message := "You must wait " +:+ pretty secondsRemaining
                            +:+ " more seconds before betting again";
               code := ERROR_CODES.COOLDOWN_NOT_MET |} ]
        else []
  end.

(** [validateBetCount]. *)
Definition validateBetCount (currentBetCount : Z) : list BetValidationError :=
  if currentBetCount >=? ANTI_MANIPULATION.MAX_BETS_PER_WALLET then
    [ {| field := "betCount"; message := VALIDATION_MESSAGES.BET_COUNT_EXCEEDED;
         code := ERROR_CODES.BET_COUNT_EXCEEDED |} ]
  else [].

(** [validatePoolCap]. *)
Definition validatePoolCap (walletTotalBets newBetAmount totalYesPool totalNoPool : Q)
    : list BetValidationError :=
  let totalPool := Qplus totalYesPool totalNoPool in
  let maxWalletExposure :=
    if Qlt_bool 0 totalPool
    then Qdiv (Qmult totalPool (inject_Z ANTI_MANIPULATION.POOL_CAP_PERCENT)) (inject_Z 100)
    else inject_Z (BET_LIMITS.MAX_BET * 10) in
  let walletExposureAfterBet := Qplus walletTotalBets newBetAmount in
  if Qlt_bool maxWalletExposure walletExposureAfterBet then
    [ {| field := "poolCap"; message := VALIDATION_MESSAGES.POOL_CAP_EXCEEDED;
         code := ERROR_CODES.POOL_CAP_EXCEEDED |} ]
  else [].

(** [validateBetVelocity]. *)
Definition validateBetVelocity (recentBetTimestamps : list Z) (currentTime : Z)
    : list BetValidationError :=
  let oneHourMs := 3600 * 1000 in
  let oneHourAgo := currentTime - oneHourMs in
  let betsInLastHour :=
    Z.of_nat (length (filter (fun timestamp => oneHourAgo <= timestamp) recentBetTimestamps)) in
  if betsInLastHour >=? ANTI_MANIPULATION.MAX_BETS_IN_1_HOUR then
    [ {| field := "velocity"; message := VALIDATION_MESSAGES.VELOCITY_EXCEEDED;
         code := ERROR_CODES.VELOCITY_EXCEEDED |} ]
  else [].

(** [validateWalletNotFlagged]. *)
Definition validateWalletNotFlagged (isFlagged : bool) : list BetValidationError :=
  if isFlagged then
    [ {| field := "wallet"; message := VALIDATION_MESSAGES.WALLET_FLAGGED;
         code := ERROR_CODES.WALLET_FLAGGED |} ]
  else [].

(** [validateWalletAddress]; the argument has type [unknown], here a string,
    and [!address] holds for the empty string. *)
Definition validateWalletAddress (address : string) : list BetValidationError :=
  if String.eqb address EmptyString then
    [ {| field := "wallet"; message := "Invalid wallet address";
         code := "INVALID_WALLET" |} ]
  else if negb (isValidAddress address) then
    [ {| field := "wallet"; message := "Wallet address format is invalid";
         code := "INVALID_WALLET" |} ]
  else [].

(** [validateMarketActive]; [endTime] is in seconds. *)
Definition validateMarketActive (marketStatus : string) (endTime : Q) (currentTime : Z)
    : list BetValidationError :=
  (if negb (String.eqb marketStatus "ACTIVE") then
     [ {| field := "market"; message := VALIDATION_MESSAGES.MARKET_NOT_ACTIVE;
          code := ERROR_CODES.MARKET_NOT_ACTIVE |} ]
   else [])
  ++
  (let endTimeMs := Qmult endTime (inject_Z 1000) in
   if Qlt_bool endTimeMs (inject_Z currentTime) then
     [ {| field := "market"; message := "Market has expired";
          code := ERROR_CODES.MARKET_NOT_ACTIVE |} ]
   else []).

(** The argument object of [validateBetComprehensive]. *)
Record BetInput : Type := {
  walletAddress : string;
  choice : string;
  amount : Q;
  lastBetTimestamp : option Z;
  currentBetCount : Z;
  walletTotalBets : Q;
  recentBetTimestamps : list Z;
  totalYesPool : Q;
  totalNoPool : Q;
  marketStatus : string;
  marketEndTime : Q;
  isFlagged : bool;
}.

(** The warnings common to the end of [validateBetComprehensive]. *)
Definition comprehensive_warnings (i : BetInput) : list ValidationWarning :=
  (if Qlt_bool (Qmult (inject_Z BET_LIMITS.MAX_BET) (8 # 10)) (amount i)
   then [LargeAmount (amount i)] else [])
  ++
  (let totalPool := Qplus (totalYesPool i) (totalNoPool i) in
   if Qlt_bool 0 totalPool then
     let walletExposurePercent :=
       Qmult (Qdiv (Qplus (walletTotalBets i) (amount i)) totalPool) (inject_Z 100) in
     if Qlt_bool (inject_Z 8) walletExposurePercent
     then [ApproachingPoolCap walletExposurePercent] else []
   else []).

(** [validateBetComprehensive]; [currentTime] is its [Date.now()]. *)
Definition validateBetComprehensive (i : BetInput) (currentTime : Z) : ValidationResult :=
  let errors1 :=
    validateWalletAddress (walletAddress i)
    ++ validateBetChoice (choice i)
    ++ validateBetAmount (amount i)
    ++ validateMarketActive (marketStatus i) (marketEndTime i) currentTime
    ++ validateWalletNotFlagged (isFlagged i) in
  (* Only check timing-based validators if previous validations passed *)
  let errors2 :=
    if (length errors1 =? 0)%nat then
      validateCooldown (lastBetTimestamp i) currentTime
      ++ validateBetCount (currentBetCount i)
      ++ validatePoolCap (walletTotalBets i) (amount i) (totalYesPool i) (totalNoPool i)
      ++ validateBetVelocity (recentBetTimestamps i) currentTime
    else [] in
  let errors := errors1 ++ errors2 in
  {| isValid := (length errors =? 0)%nat;
     errors := errors;
     warnings := comprehensive_warnings i |}.

(** [validateBetForContract]; it reads the fields of [i] other than
    [walletAddress], [marketStatus] and [marketEndTime]. *)
Definition validateBetForContract (i : BetInput) (currentTime : Z) : ValidationResult :=
  let errors :=
    validateBetAmount (amount i)
    ++ validateBetChoice (choice i)
    ++ validateCooldown (lastBetTimestamp i) currentTime
    ++ validateBetCount (currentBetCount i)
    ++ validatePoolCap (walletTotalBets i) (amount i) (totalYesPool i) (totalNoPool i)
    ++ validateBetVelocity (recentBetTimestamps i) currentTime
    ++ validateWalletNotFlagged (isFlagged i) in
  {| isValid := (length errors =? 0)%nat; errors := errors; warnings := [] |}.

End BetRules.

(* ======================================================================= *)
(** * The store behind [db] (lib/db/client.ts)                                *)
(* ======================================================================= *)

Module Db.

(** Rows, after the interfaces of lib/types/prediction-market.ts; [Date]
    values are milliseconds since the epoch. *)
Record Market : Type := {
  m_marketId : string;
  m_status : string;
  m_winner : option string;
  m_yesPool : Z;
  m_noPool : Z;
  m_endDate : Z;
  m_updatedAt : Z;
}.

Record Bet : Type := {
  b_id : string;
  b_walletAddress : string;
  b_marketId : string;
  b_choice : BetChoice;
  b_amount : Z;
  b_betNumber : Z;
  b_status : string;
  b_txHash : string;
  b_createdAt : Z;
}.

Record BetHistory : Type := {
  h_betId : string;
  h_marketId : string;
  h_wallet : string;
  h_action : string;
  h_reason : string;
}.

Record FlaggedWallet : Type := {
  f_wallet : string;
  f_isActive : bool;
}.

Record PoolSnapshot : Type := {
  s_marketId : string;
  s_yesPool : Z;
  s_noPool : Z;
  s_totalBets : Z;
}.

(** Modelled from the spec: the Prisma schema and the generated client are
    not part of the sources. The tables are those of section 3 of the
    specification; markets are keyed by [marketId] and flagged wallets by
    [wallet] (the keys of the [findUnique] calls), bets are never deleted,
    and the Bet table carries the uniqueness constraint on the transaction
    reference of section 6. *)
Record Store : Type := {
  market : gmap string Market;
  bet : list Bet;
  betHistory : list BetHistory;
  flaggedWallet : gmap string FlaggedWallet;
  poolSnapshot : list PoolSnapshot;
}.

(** The places where the confirmation handler calls the store. A handler
    run reaches each place at most once. *)
Inductive CallSite : Type :=
| Step2_getMarketById
| Step4_getUserBetCount
| Step4_getUserTotalBetAmount
| Step5_flaggedWallet_findUnique
| Step6_bet_findMany_last
| Step6_bet_findMany_recent
| Step8_bet_create
| Step9_betHistory_create
| Step10_market_update
| Step11_getMarketById
| Step11_bet_count
| Step11_poolSnapshot_create.

Global Instance CallSite_eq_dec : EqDecision CallSite.
Proof. solve_decision. Defined.

(** A store computation: it returns or throws, and leaves a store. *)
Definition Task (A : Type) : Type := Store -> JsResult A * Store.

Global Instance Task_ret : MRet Task := fun A a db => (Ok a, db).

Global Instance Task_bind : MBind Task := fun A B f m db =>
  match m db with
  | (Ok a, db') => f a db'
  | (Throw e, db') => (Throw e, db')
  end.

Definition throw {A : Type} (e : string) : Task A := fun db => (Throw e, db).

Definition try_catch {A : Type} (m : Task A) (handler : string -> Task A) : Task A :=
  fun db =>
    match m db with
    | (Ok a, db') => (Ok a, db')
    | (Throw e, db') => handler e db'
    end.

Definition get : Task Store := fun db => (Ok db, db).
Definition put (db' : Store) : Task unit := fun _ => (Ok tt, db').

(** [fails site] tells whether the store call at [site] throws (store
    unavailable, timeout). *)
Definition guarded {A : Type} (fails : CallSite -> bool) (site : CallSite)
    (m : Task A) : Task A :=
  if fails site then throw "store error" else m.

Section Queries.
Variable fails : CallSite -> bool.

(** [db.market.findUnique({ where: { marketId } })]. *)
Definition market_findUnique (site : CallSite) (marketId : string)
    : Task (option Market) :=
  guarded fails site (db ← get; mret (market db !! marketId)).

Definition bets_of (walletAddress marketId : string) (db : Store) : list Bet :=
  filter (fun b => b_walletAddress b = walletAddress /\ b_marketId b = marketId) (bet db).

(** [db.bet.count({ where: { walletAddress, marketId } })]. *)
Definition bet_count_wallet (site : CallSite) (walletAddress marketId : string)
    : Task Z :=
  guarded fails site
    (db ← get; mret (Z.of_nat (length (bets_of walletAddress marketId db)))).

(** [db.bet.count({ where: { marketId } })]. *)
Definition bet_count_market (site : CallSite) (marketId : string) : Task Z :=
  guarded fails site
    (db ← get;
     mret (Z.of_nat (length (filter (fun b => b_marketId b = marketId) (bet db))))).

(** [db.bet.aggregate({ where, _sum: { amount: true } })]: the sum, or
    [null] when no row matches. *)
Definition bet_sum_amount (site : CallSite) (walletAddress marketId : string)
    : Task (option Z) :=
  guarded fails site
    (db ← get;
     mret (match bets_of walletAddress marketId db with
           | [] => None
           | bs => Some (foldr Z.add 0 (b_amount <$> bs))
           end)).

(** [db.flaggedWallet.findUnique({ where: { wallet } })]. *)
Definition flaggedWallet_findUnique (site : CallSite) (wallet : string)
    : Task (option FlaggedWallet) :=
  guarded fails site (db ← get; mret (flaggedWallet db !! wallet)).

(** The [createdAt] of the first row of
    [findMany({ where, orderBy: { createdAt: "desc" }, take: 1 })]. *)
Definition bet_findMany_last (site : CallSite) (walletAddress marketId : string)
    : Task (option Z) :=
  guarded fails site
    (db ← get;
     mret (match b_createdAt <$> bets_of walletAddress marketId db with
           | [] => None
           | t :: ts => Some (foldr Z.max t ts)
           end)).

(** [findMany({ where: { walletAddress, marketId, createdAt: { gte } } })]. *)
Definition bet_findMany_recent (site : CallSite) (walletAddress marketId : string)
    (gte : Z) : Task (list Bet) :=
  guarded fails site
    (db ← get;
     mret (filter (fun b => gte <= b_createdAt b) (bets_of walletAddress marketId db))).

(** Modelled from the spec: [db.bet.create] of the Prisma client, whose
    schema is not part of the sources. The store assigns [id] and
    [createdAt] and, by the uniqueness constraint on the transaction
    reference (sections 3 and 6), rejects a [txHash] that a row already
    has. *)
Definition bet_create (site : CallSite) (now : Z)
    (walletAddress marketId : string) (choice : BetChoice) (amount betNumber : Z)
    (status txHash : string) : Task Bet :=
  guarded fails site
    (db ← get;
     if bool_decide (txHash ∈ b_txHash <$> bet db) then
       throw "Unique constraint failed on the fields: (`txHash`)"
     else
       let row :=
         {| b_id := pretty (length (bet db)); b_walletAddress := walletAddress;
            b_marketId := marketId; b_choice := choice; b_amount := amount;
            b_betNumber := betNumber; b_status := status; b_txHash := txHash;
            b_createdAt := now |} in
       _ ← put {| market := market db; bet := bet db ++ [row];
                  betHistory := betHistory db; flaggedWallet := flaggedWallet db;
                  poolSnapshot := poolSnapshot db |};
       mret row).

(** [db.betHistory.create]. *)
Definition betHistory_create (site : CallSite) (row : BetHistory) : Task unit :=
  guarded fails site
    (db ← get;
     put {| market := market db; bet := bet db;
            betHistory := betHistory db ++ [row]; flaggedWallet := flaggedWallet db;
            poolSnapshot := poolSnapshot db |}).

(** [db.market.update({ where: { marketId }, data })]: it throws when no
    row has the key. *)
Definition market_update (site : CallSite) (marketId : string)
    (data : Market -> Market) : Task unit :=
  guarded fails site
    (db ← get;
     match market db !! marketId with
     | None => throw "Record to update not found"
     | Some row =>
         put {| market := <[marketId := data row]> (market db); bet := bet db;
                betHistory := betHistory db; flaggedWallet := flaggedWallet db;
                poolSnapshot := poolSnapshot db |}
     end).

(** [db.poolSnapshot.create]. *)
Definition poolSnapshot_create (site : CallSite) (row : PoolSnapshot) : Task unit :=
  guarded fails site
    (db ← get;
     put {| market := market db; bet := bet db; betHistory := betHistory db;
            flaggedWallet := flaggedWallet db;
            poolSnapshot := poolSnapshot db ++ [row] |}).

(** The helpers of lib/db/client.ts catch every error of their query. *)

(** [getMarketById]. *)
Definition getMarketById (site : CallSite) (marketId : string) : Task (option Market) :=
  try_catch (market_findUnique site marketId) (fun _ => mret None).

(** [getUserBetCount]. *)
Definition getUserBetCount (site : CallSite) (walletAddress marketId : string) : Task Z :=
  try_catch (bet_count_wallet site walletAddress marketId) (fun _ => mret 0).

(** [getUserTotalBetAmount]. *)
Definition getUserTotalBetAmount (site : CallSite) (walletAddress marketId : string)
    : Task Z :=
  try_catch
    (sum ← bet_sum_amount site walletAddress marketId; mret (default 0 sum))
    (fun _ => mret 0).

End Queries.

End Db.

(* ======================================================================= *)
(** * app/api/bets/confirm/route.ts                                          *)
(* ======================================================================= *)

Module ConfirmRoute.
Import Db TxValidator BetRules.

(** The JSON body of the request, with the types the handler requires. *)
Record RequestBody : Type := {
  rq_txHash : string;
  rq_marketId : string;
  rq_choice : string;
  rq_amount : Q;
  rq_walletAddress : string;
}.

(** [PlaceBetRequest & { walletAddress: string }]. *)
Record PlaceBetRequest : Type := {
  txHash : string;
  marketId : string;
  choice : BetChoice;
  amount : Q;
  walletAddress : string;
}.

(** The JSON response and its HTTP status ([timestamp] left out). *)
Record Response : Type := {
  r_httpStatus : Z;
  r_success : bool;
  r_betId : option string;
  r_status : option string;
  r_error : option string;
  r_code : option string;
}.

(** What a request meets outside the store: the clock, the ledger, viem's
    [isAddress], the configured contract address and the store faults. *)
Record Env : Type := {
  now : Z;
  publicClient : PublicClient;
  isAddress : string -> bool;
  PREDICTION_MARKET : string;
  fails : CallSite -> bool;
}.

(** [validateRequest]. *)
Definition validateRequest (env : Env) (body : RequestBody) : string + PlaceBetRequest :=
  if String.eqb (rq_txHash body) EmptyString then
    inl "txHash is required and must be a string"
  else if String.eqb (rq_marketId body) EmptyString then
    inl "marketId is required and must be a string"
  else
    match
      (if String.eqb (rq_choice body) (BetChoice_to_string YES) then Some YES
       else if String.eqb (rq_choice body) (BetChoice_to_string NO) then Some NO
       else None)
    with
    | None => inl "choice must be YES or NO"
    | Some choice =>
        if Qle_bool (rq_amount body) 0 then
          inl "amount must be a positive number"
        else if String.eqb (rq_walletAddress body) EmptyString then
          inl "walletAddress is required"
        else if negb (isAddress env (rq_walletAddress body)) then
          inl "Invalid wallet address format"
        else
          inr {| txHash := rq_txHash body; marketId := rq_marketId body;
                 choice := choice; amount := rq_amount body;
                 walletAddress := rq_walletAddress body |}
    end.

(** [errorResponse]. *)
Definition errorResponse (message : string) (code : option string) (status : Z)
    : Response :=
  {| r_httpStatus := status; r_success := false; r_betId := None; r_status := None;
     r_error := Some message; r_code := code |}.

(** [validationErrorResponse]. *)
Definition validationErrorResponse (errors : list string) (code : option string)
    : Response :=
  errorResponse
    (match errors with
     | [e] => e
     | e :: _ => e +:+ " (and " +:+ pretty (Z.of_nat (length errors) - 1) +:+ " more)"
     | [] => "undefined (and -1 more)"
     end)
    code 400.

Definition Qabs_diff_gt (x y bound : Q) : bool :=
  Qlt_bool bound (Qabs (Qminus x y)).

(** STEP 3 of [POST]: the on-chain validation of the transaction and the
    comparison of the decoded data with the request. [Some r] is the early
    return of the error response [r]. *)
Definition verifyTransaction (env : Env) (data : PlaceBetRequest) : option Response :=
  let txValidation :=
    validateBetTransaction (PREDICTION_MARKET env) (publicClient env)
      (txHash data) (choice data) (amount data) in
  if negb (v_isValid txValidation) then
    let errorMsg := formatValidationErrors (v_errors txValidation) in
    Some (errorResponse
            (if String.eqb errorMsg EmptyString then "Transaction validation failed" else errorMsg)
            (Some ERROR_CODES.TX_FAILED) 400)
  else
  if negb (bool_decide (v_choice txValidation = Some (choice data)))
     || match v_amount txValidation with
        | None => true
        | Some a => Qeq_bool a 0 || Qabs_diff_gt a (amount data) (1 # 100)
        end
  then
    Some (errorResponse "Decoded transaction data does not match your input"
            (Some "TX_DATA_MISMATCH") 400)
  else None.

(** STEPS 4 to 6 of [POST]: the reads that build the argument of the rule
    engine. *)
Definition gatherBetInput (env : Env) (data : PlaceBetRequest) (market : Market)
    : Task BetInput :=
  let marketId := marketId data in
  let walletAddress := walletAddress data in
  (* STEP 4 *)
  userBetCount ← getUserBetCount (fails env) Step4_getUserBetCount walletAddress marketId;
  userTotalWei ← getUserTotalBetAmount (fails env) Step4_getUserTotalBetAmount
                   walletAddress marketId;
  let userTotalBets :=
    Qdiv (Js.Number_of_bigint userTotalWei) (inject_Z (10 ^ BET_LIMITS.USDT_DECIMALS)) in
  (* STEP 5 *)
  flaggedWallet ← try_catch
    (flaggedWallet_findUnique (fails env) Step5_flaggedWallet_findUnique walletAddress)
    (fun _ => mret None);
  let isFlagged := default false (f_isActive <$> flaggedWallet) in
  (* STEP 6 *)
  lastCreatedAt ← bet_findMany_last (fails env) Step6_bet_findMany_last
                    walletAddress marketId;
  let lastBetTime :=
    match lastCreatedAt with
    | Some t => if t =? 0 then None else Some t
    | None => None
    end in
  let oneHourAgo := now env - 3600000 in
  recentBets ← bet_findMany_recent (fails env) Step6_bet_findMany_recent
                 walletAddress marketId oneHourAgo;
  let recentBetTimestamps := b_createdAt <$> recentBets in
  mret {| BetRules.walletAddress := walletAddress;
          BetRules.choice := BetChoice_to_string (choice data);
          BetRules.amount := amount data;
          lastBetTimestamp := lastBetTime;
          currentBetCount := userBetCount;
          walletTotalBets := userTotalBets;
          recentBetTimestamps := recentBetTimestamps;
          totalYesPool :=
            Qdiv (Js.Number_of_bigint (m_yesPool market))
                 (inject_Z (10 ^ BET_LIMITS.USDT_DECIMALS));
          totalNoPool :=
            Qdiv (Js.Number_of_bigint (m_noPool market))
                 (inject_Z (10 ^ BET_LIMITS.USDT_DECIMALS));
          marketStatus := m_status market;
          marketEndTime := Qdiv (inject_Z (m_endDate market)) (inject_Z 1000);
          isFlagged := isFlagged |}.

(** The two rule evaluations of STEPS 6 and 7; [Some r] is the early return
    of the error response [r]. *)
Definition checkBetRules (env : Env) (input : BetInput) : option Response :=
  let betValidation := validateBetComprehensive input (now env) in
  if negb (isValid betValidation) then
    let errorMsg := formatValidationErrors (message <$> errors betValidation) in
    Some (errorResponse errorMsg (code <$> head (errors betValidation)) 400)
  else
  (* STEP 7 *)
  let contractValidation := validateBetForContract input (now env) in
  if negb (isValid contractValidation) then
    Some (validationErrorResponse (message <$> errors contractValidation)
            (code <$> head (errors contractValidation)))
  else None.

(** The pool fields that STEP 10 writes into the row [row]; [market] is
    the row read in STEP 2. *)
Definition poolUpdate (env : Env) (choice : BetChoice) (market : Market) (amountWei : Z)
    (row : Market) : Market :=
  {| m_marketId := m_marketId row; m_status := m_status row; m_winner := m_winner row;
     m_yesPool :=
       if bool_decide (choice = YES) then m_yesPool market + amountWei else m_yesPool row;
     m_noPool :=
       if bool_decide (choice = YES) then m_noPool row else m_noPool market + amountWei;
     m_endDate := m_endDate row;
     m_updatedAt := now env |}.

Definition amountWei_of (amount : Q) : Z :=
  Qfloor (Qmult amount (inject_Z (10 ^ BET_LIMITS.USDT_DECIMALS))).

(** STEPS 8 to 12 of [POST]: the four writes and the success response. *)
Definition settle (env : Env) (data : PlaceBetRequest) (market : Market)
    (userBetCount : Z) : Task Response :=
  let txHash := txHash data in
  let marketId := marketId data in
  let walletAddress := walletAddress data in
  (* STEP 8 *)
  let amountWei := amountWei_of (amount data) in
  let newBetNumber := userBetCount + 1 in
  bet ← bet_create (fails env) Step8_bet_create (now env)
          walletAddress marketId (choice data) amountWei newBetNumber "CONFIRMED" txHash;
  (* STEP 9 *)
  _ ← betHistory_create (fails env) Step9_betHistory_create
        {| h_betId := b_id bet; h_marketId := marketId; h_wallet := walletAddress;
           h_action := "PLACED";
           h_reason := "Bet placed via transaction " +:+ txHash |};
  (* STEP 10 *)
  _ ← market_update (fails env) Step10_market_update marketId
        (poolUpdate env (choice data) market amountWei);
  (* STEP 11 *)
  updatedMarket ← getMarketById (fails env) Step11_getMarketById marketId;
  _ ← match updatedMarket with
      | Some updatedMarket =>
          totalBets ← bet_count_market (fails env) Step11_bet_count marketId;
          poolSnapshot_create (fails env) Step11_poolSnapshot_create
            {| s_marketId := marketId; s_yesPool := m_yesPool updatedMarket;
               s_noPool := m_noPool updatedMarket; s_totalBets := totalBets |}
      | None => mret tt
      end;
  (* STEP 12 *)
  mret {| r_httpStatus := 200; r_success := true; r_betId := Some (b_id bet);
          r_status := Some "CONFIRMED"; r_error := None; r_code := None |}.

(** The body of the [try] block of [POST], after the request is parsed. *)
Definition POST_try (env : Env) (body : RequestBody) : Task Response :=
  (* STEP 1 *)
  match validateRequest env body with
  | inl error => mret (errorResponse error (Some "INVALID_REQUEST") 400)
  | inr data =>
  (* STEP 2 *)
  market ← getMarketById (fails env) Step2_getMarketById (marketId data);
  match market with
  | None => mret (errorResponse "Market not found" (Some ERROR_CODES.MARKET_NOT_FOUND) 404)
  | Some market =>
  if negb (String.eqb (m_status market) "ACTIVE") then
    mret (errorResponse VALIDATION_MESSAGES.MARKET_NOT_ACTIVE
            (Some ERROR_CODES.MARKET_NOT_ACTIVE) 400)
  else
  if now env >? m_endDate market then
    mret (errorResponse "Market has expired" (Some ERROR_CODES.MARKET_NOT_ACTIVE) 400)
  else
  (* STEP 3 *)
  match verifyTransaction env data with
  | Some response => mret response
  | None =>
  (* STEPS 4 to 6 *)
  input ← gatherBetInput env data market;
  (* STEPS 6 and 7 *)
  match checkBetRules env input with
  | Some response => mret response
  | None =>
  (* STEPS 8 to 12 *)
  settle env data market (currentBetCount input)
  end
  end
  end
  end.

(** [POST]; [body] is [None] when [request.json()] throws. *)
Definition POST (env : Env) (body : option RequestBody) : Task Response :=
  try_catch
    (match body with
     | None => mret (errorResponse "Invalid JSON in request body" (Some "INVALID_REQUEST") 400)
     | Some body => POST_try env body
     end)
    (fun _ =>
       mret {| r_httpStatus := 500; r_success := false; r_betId := None;
               r_status := None;
               r_error := Some "An unexpected error occurred while confirming your bet";
               r_code := Some "INTERNAL_ERROR" |}).

End ConfirmRoute.

(* ======================================================================= *)
(** * app/api/markets/live-stats/route.ts                                    *)
(* ======================================================================= *)

Module LiveStats.

Record ActiveConnection : Type := {
  ac_marketId : string;
  ac_walletAddress : option string;
  ac_connectedAt : Z;
  ac_lastHeartbeat : Z;
}.

(** The frames of the stream, before [formatSSEEvent] serialises them as
    [event: <type>] and [data: <JSON>] lines. *)
Inductive SSEEvent : Type :=
| POOL_UPDATE (marketId yesPool noPool totalPool : string)
              (yesPercent noPercent : Q) (totalBets timestamp : Z)
| MARKET_UPDATE (marketId status : string) (winner : option string)
                (timeRemaining : Z) (hasEnded : bool) (timestamp : Z)
| HEARTBEAT (timestamp : Z)
| ERROR (message code : string) (timestamp : Z).

(** [formatSSEError] and [formatSSEHeartbeat]. *)
Definition formatSSEError (message code : string) (timestamp : Z) : SSEEvent :=
  ERROR message code timestamp.

Definition formatSSEHeartbeat (timestamp : Z) : SSEEvent := HEARTBEAT timestamp.

Fixpoint repeat_zero (n : nat) : string :=
  match n with O => EmptyString | S n' => String "0"%char (repeat_zero n') end.

(** [s.padStart(n, "0")]. *)
Definition padStart0 (n : nat) (s : string) : string :=
  repeat_zero (n - String.length s) +:+ s.

(** [s.replace(/0+$/, EmptyString)]. *)
Fixpoint strip_trailing_zeros (s : string) : string :=
  match s with
  | EmptyString => EmptyString
  | String c s' =>
      match strip_trailing_zeros s' with
      | EmptyString => if Ascii.eqb c "0"%char then EmptyString else String c EmptyString
      | t => String c t
      end
  end.

(** [formatUSDT] of this file: a [bigint] as a decimal string. *)
Definition formatUSDT (weiAmount : Z) : string :=
  let divisor := 10 ^ BET_LIMITS.USDT_DECIMALS in
  let integerPart := Z.quot weiAmount divisor in
  let fractionalPart := Z.rem weiAmount divisor in
  let fractionalStr :=
    strip_trailing_zeros
      (padStart0 (Z.to_nat BET_LIMITS.USDT_DECIMALS) (pretty fractionalPart)) in
  if String.eqb fractionalStr EmptyString then pretty integerPart
  else pretty integerPart +:+ "." +:+ fractionalStr.

(** [calculatePoolPercentages]. *)
Definition calculatePoolPercentages (yesPool noPool : Z) : Q * Q :=
  let total := yesPool + noPool in
  if total =? 0 then (inject_Z 0, inject_Z 0)
  else
    (Qdiv (inject_Z (Z.quot (yesPool * 10000) total)) (inject_Z 100),
     Qdiv (inject_Z (Z.quot (noPool * 10000) total)) (inject_Z 100)).

(** [isValidMarketId]: the regular expression [/^[a-zA-Z0-9\-]{1,100}$/]. *)
Definition isMarketIdChar (c : ascii) : bool :=
  let n := code_unit c in
  ((97 <=? n) && (n <=? 122)) || ((65 <=? n) && (n <=? 90))
  || ((48 <=? n) && (n <=? 57)) || (n =? 45).

Definition isValidMarketId (id : string) : bool :=
  (1 <=? String.length id)%nat && (String.length id <=? 100)%nat
  && forallb isMarketIdChar (list_ascii_of_string id).

(** The variables that the [start] callback of one streaming response
    closes over, its timer and its output. *)
Record Stream : Type := {
  connId : string;
  marketId : string;
  market : Db.Market;           (* the row read when the request arrived *)
  prevYesPool : Z;
  prevNoPool : Z;
  isStreamClosed : bool;
  pollInterval : bool;          (* the [setInterval] timer is armed *)
  controllerClosed : bool;
  sent : list SSEEvent;         (* frames enqueued so far, oldest first *)
}.

(** The module state: the connection registry and the streaming responses
    handed out so far. *)
Record Server : Type := {
  activeConnections : gmap string ActiveConnection;
  streams : list Stream;
}.

Definition registerConnection (now : Z) (connId marketId : string)
    (walletAddress : option string)
    (reg : gmap string ActiveConnection) : gmap string ActiveConnection :=
  <[connId := {| ac_marketId := marketId; ac_walletAddress := walletAddress;
                 ac_connectedAt := now; ac_lastHeartbeat := now |}]> reg.

Definition unregisterConnection (connId : string)
    (reg : gmap string ActiveConnection) : gmap string ActiveConnection :=
  delete connId reg.

Definition updateHeartbeat (now : Z) (connId : string)
    (reg : gmap string ActiveConnection) : gmap string ActiveConnection :=
  match reg !! connId with
  | Some conn =>
      <[connId := {| ac_marketId := ac_marketId conn;
                     ac_walletAddress := ac_walletAddress conn;
                     ac_connectedAt := ac_connectedAt conn;
                     ac_lastHeartbeat := now |}]> reg
  | None => reg
  end.

(** The clean-up timer of the module: drops the registry entries whose last
    heartbeat is more than two minutes old. *)
Definition cleanupStale (now : Z)
    (reg : gmap string ActiveConnection) : gmap string ActiveConnection :=
  let timeout := 120000 in
  filter (fun kv => ~ (now - ac_lastHeartbeat kv.2 > timeout)) reg.

(** The two store calls of a poll. *)
Inductive PollSite : Type := Poll_market_findUnique | Poll_bet_count.

Definition with_sent (s : Stream) (prevYes prevNo : Z) (armed closed : bool)
    (frames : list SSEEvent) : Stream :=
  {| connId := connId s; marketId := marketId s; market := market s;
     prevYesPool := prevYes; prevNoPool := prevNo;
     isStreamClosed := isStreamClosed s; pollInterval := armed;
     controllerClosed := closed; sent := sent s ++ frames |}.

(** The frames of one run of the [setInterval] callback, with the stream
    state it leaves. [fails] tells which store call throws. *)
Definition poll (now : Z) (fails : PollSite -> bool) (db : Db.Store) (s : Stream)
    : Stream * list SSEEvent :=
  if isStreamClosed s then
    (with_sent s (prevYesPool s) (prevNoPool s) false (controllerClosed s) [], [])
  else
    let poll_error := [formatSSEError "Error polling market" "POLL_ERROR" now] in
    if fails Poll_market_findUnique then
      (with_sent s (prevYesPool s) (prevNoPool s) (pollInterval s) (controllerClosed s)
         poll_error, poll_error)
    else
      match Db.market db !! marketId s with
      | None =>
          let frames := [formatSSEError "Market was deleted" "MARKET_DELETED" now] in
          (with_sent s (prevYesPool s) (prevNoPool s) false true frames, frames)
      | Some currentMarket =>
          if negb (Db.m_yesPool currentMarket =? prevYesPool s)
             || negb (Db.m_noPool currentMarket =? prevNoPool s)
             || negb (String.eqb (Db.m_status currentMarket) (Db.m_status (market s)))
          then
            let prevYes := Db.m_yesPool currentMarket in
            let prevNo := Db.m_noPool currentMarket in
            if fails Poll_bet_count then
              (with_sent s prevYes prevNo (pollInterval s) (controllerClosed s) poll_error,
               poll_error)
            else
              let totalBets :=
                Z.of_nat (length (filter (fun b => Db.b_marketId b = marketId s)
                                         (Db.bet db))) in
              let '(yesPercent, noPercent) :=
                calculatePoolPercentages (Db.m_yesPool currentMarket)
                                         (Db.m_noPool currentMarket) in
              let pool_update :=
                POOL_UPDATE (marketId s)
                  (formatUSDT (Db.m_yesPool currentMarket))
                  (formatUSDT (Db.m_noPool currentMarket))
                  (formatUSDT (Db.m_yesPool currentMarket + Db.m_noPool currentMarket))
                  yesPercent noPercent totalBets now in
              let market_update :=
                if negb (String.eqb (Db.m_status currentMarket) (Db.m_status (market s)))
                then
                  let timeRemaining := Z.max 0 ((Db.m_endDate currentMarket - now) / 1000) in
                  [MARKET_UPDATE (marketId s) (Db.m_status currentMarket)
                     (Db.m_winner currentMarket) timeRemaining (timeRemaining =? 0) now]
                else [] in
              let frames := pool_update :: market_update in
              (with_sent s prevYes prevNo (pollInterval s) (controllerClosed s) frames,
               frames)
          else
            let frames := [formatSSEHeartbeat now] in
            (with_sent s (prevYesPool s) (prevNoPool s) (pollInterval s)
               (controllerClosed s) frames, frames)
      end.

(** The listener of the request's [abort] event. *)
Definition abort (s : Stream) : Stream :=
  {| connId := connId s; marketId := marketId s; market := market s;
     prevYesPool := prevYesPool s; prevNoPool := prevNoPool s;
     isStreamClosed := true; pollInterval := false;
     controllerClosed := controllerClosed s; sent := sent s |}.

(** The query parameters of a request ([null] when absent). *)
Record Request : Type := {
  q_marketId : option string;
  q_walletAddress : option string;
}.

(** [validateRequest]: an error text or the two parameters. *)
Definition validateRequest (isAddress : string -> bool) (request : Request)
    : string + (string * option string) :=
  match q_marketId request with
  | None => inl "marketId query parameter is required"
  | Some marketId =>
      if String.eqb marketId EmptyString then inl "marketId query parameter is required"
      else if negb (isValidMarketId marketId) then inl "Invalid market ID format"
      else
        match q_walletAddress request with
        | Some w =>
            if negb (String.eqb w EmptyString) && negb (isAddress w)
            then inl "Invalid wallet address format"
            else inr (marketId, if String.eqb w EmptyString then None else Some w)
        | None => inr (marketId, None)
        end
  end.

(** The outcome of [GET]: plain-text rejection, a one-frame error response,
    or the streaming response of the connection [connId]. *)
Inductive GetResponse : Type :=
| Rejected (status : Z) (text : string)
| ErrorFrame (status : Z) (frame : SSEEvent)
| Streaming (connId : string).

(** [GET]. [connId] is the value of [generateConnectionId()], [now] the
    clock and [findFails] tells whether the market query throws. *)
Definition GET (now : Z) (connId : string) (isAddress : string -> bool)
    (findFails : bool) (db : Db.Store) (request : Request) (srv : Server)
    : Server * GetResponse :=
  match validateRequest isAddress request with
  | inl error => (srv, Rejected 400 error)
  | inr (marketId, walletAddress) =>
      if findFails then
        ({| activeConnections := unregisterConnection connId (activeConnections srv);
            streams := streams srv |},
         ErrorFrame 500 (formatSSEError "Internal server error" "INTERNAL_ERROR" now))
      else
        match Db.market db !! marketId with
        | None =>
            (srv, ErrorFrame 404 (formatSSEError "Market not found" "MARKET_NOT_FOUND" now))
        | Some market =>
            let stream :=
              {| connId := connId; marketId := marketId; market := market;
                 prevYesPool := Db.m_yesPool market; prevNoPool := Db.m_noPool market;
                 isStreamClosed := false; pollInterval := true;
                 controllerClosed := false; sent := [] |} in
            ({| activeConnections :=
                  registerConnection now connId marketId walletAddress
                    (activeConnections srv);
                streams := streams srv ++ [stream] |},
             Streaming connId)
        end
  end.

(** What happens to the module between two turns of the event loop. *)
Inductive Event : Type :=
| EvGET (now : Z) (connId : string) (isAddress : string -> bool) (findFails : bool)
        (db : Db.Store) (request : Request)
| EvPoll (now : Z) (connId : string) (fails : PollSite -> bool) (db : Db.Store)
| EvAbort (connId : string)
| EvCleanup (now : Z).

Definition on_stream (connId' : string) (f : Stream -> Stream) (ss : list Stream)
    : list Stream :=
  (fun s => if String.eqb (connId s) connId' then f s else s) <$> ss.

Definition step (ev : Event) (srv : Server) : Server :=
  match ev with
  | EvGET now cid isAddress findFails db request =>
      (GET now cid isAddress findFails db request srv).1
  | EvPoll now cid fails db =>
      {| activeConnections :=
           if bool_decide (Exists (fun s => connId s = cid /\ pollInterval s = true
                                            /\ isStreamClosed s = false) (streams srv))
           then updateHeartbeat now cid (activeConnections srv)
           else activeConnections srv;
         streams :=
           on_stream cid
             (fun s => if pollInterval s then (poll now fails db s).1 else s)
             (streams srv) |}
  | EvAbort cid =>
      {| activeConnections :=
           if bool_decide (Exists (fun s => connId s = cid) (streams srv))
           then unregisterConnection cid (activeConnections srv)
           else activeConnections srv;
         streams := on_stream cid abort (streams srv) |}
  | EvCleanup now =>
      {| activeConnections := cleanupStale now (activeConnections srv);
         streams := streams srv |}
  end.

Definition run (evs : list Event) (srv : Server) : Server :=
  foldl (fun srv ev => step ev srv) srv evs.

Definition initial : Server := {| activeConnections := ∅; streams := [] |}.

(** The change-detection loops that run for a market: armed timers. *)
Definition pollingLoops (marketId' : string) (srv : Server) : nat :=
  length (filter (fun s => marketId s = marketId' /\ pollInterval s = true) (streams srv)).

(** The open connections that stream a market. *)
Definition openConnections (marketId' : string) (srv : Server) : nat :=
  length (filter (fun s => marketId s = marketId' /\ isStreamClosed s = false
                           /\ controllerClosed s = false) (streams srv)).

End LiveStats.

(* ======================================================================= *)
(** * More of the JavaScript prelude: strings and [BigInt] literals          *)
(* ======================================================================= *)

Module JsString.

(** Removes the leading white space of [s]. *)
Fixpoint trim_start (s : string) : string :=
  match s with
  | EmptyString => EmptyString
  | String c s' => if StrWhiteSpaceChar c then trim_start s' else s
  end.

(** [s.trim()]. *)
Definition trim (s : string) : string := trim_end (trim_start s).

(** The value of a digit in a radix of at most 16. *)
Definition digit_value (radix : Z) (c : ascii) : option Z :=
  match hex_digit_value c with
  | Some d => if d <? radix then Some d else None
  | None => None
  end.

Fixpoint parse_digits (radix : Z) (acc : Z) (s : string) : option Z :=
  match s with
  | EmptyString => Some acc
  | String c s' =>
      match digit_value radix c with
      | Some d => parse_digits radix (radix * acc + d) s'
      | None => None
      end
  end.

(** One digit at least. *)
Definition parse_number (radix : Z) (s : string) : option Z :=
  match s with
  | EmptyString => None
  | _ => parse_digits radix 0 s
  end.

Definition is_one_of (c : ascii) (a b : ascii) : bool := Ascii.eqb c a || Ascii.eqb c b.

(** [BigInt(s)] for a string [s], that is [StringToBigInt]: white space
    around the text is dropped; the empty text is [0n]; the text is a
    decimal integer with an optional sign, or an unsigned binary, octal or
    hexadecimal literal; anything else throws a [SyntaxError]. *)
Definition BigInt_of_string (s : string) : JsResult Z :=
  let t := trim s in
  let literal (o : option Z) : JsResult Z :=
    match o with
    | Some v => Ok v
    | None => Throw ("Cannot convert " +:+ s +:+ " to a BigInt")
    end in
  match t with
  | EmptyString => Ok 0
  | String c0 r0 =>
      if Ascii.eqb c0 "-" then literal (Z.opp <$> parse_number 10 r0)
      else if Ascii.eqb c0 "+" then literal (parse_number 10 r0)
      else
        match r0 with
        | String c1 r1 =>
            if Ascii.eqb c0 "0" && is_one_of c1 "x" "X" then literal (parse_number 16 r1)
            else if Ascii.eqb c0 "0" && is_one_of c1 "o" "O" then literal (parse_number 8 r1)
            else if Ascii.eqb c0 "0" && is_one_of c1 "b" "B" then literal (parse_number 2 r1)
            else literal (parse_number 10 t)
        | EmptyString => literal (parse_number 10 t)
        end
  end.

(** [s.split(c)] for a separator of one code unit. *)
Fixpoint split_on (c : ascii) (s : string) : list string :=
  match s with
  | EmptyString => [EmptyString]
  | String a s' =>
      if Ascii.eqb a c then EmptyString :: split_on c s'
      else
        match split_on c s' with
        | h :: t => String a h :: t
        | [] => [String a EmptyString]
        end
  end.

(** [s.padEnd(n, "0")]. *)
Definition padEnd0 (n : nat) (s : string) : string :=
  s +:+ LiveStats.repeat_zero (n - String.length s).

End JsString.

(* ======================================================================= *)
(** * lib/validation/bet-rules.ts: the client-side and utility validators     *)
(* ======================================================================= *)

Module BetRulesUtil.
Import BetRules.


(** The warning of [validateBetClientSide], of severity MEDIUM; its message
    is ["You have <walletExposurePercent.toFixed(1)>% of the pool"]. *)
Inductive ClientWarning : Type :=
| PoolShare (walletExposurePercent : Q).

(** The [ValidationResult] of [validateBetClientSide]. *)
Record ClientValidationResult : Type := {
  c_isValid : bool;
  c_errors : list BetValidationError;
  c_warnings : list ClientWarning;
}.

(** [validateBetClientSide]; [cooldownRemaining] is a whole number of
    seconds and [betCount] a count. *)
Definition validateBetClientSide (amount : Q) (cooldownRemaining betCount : Z)
    (walletExposurePercent : Q) : ClientValidationResult :=
  let errors :=
    validateBetAmount amount
    ++ (if cooldownRemaining >? 0 then
          [ {| field := "cooldown";
               message := "Wait " +:+ pretty cooldownRemaining +:+ "s before next bet";
               code := ERROR_CODES.COOLDOWN_NOT_MET |} ]
        else [])
    ++ (if betCount >=? ANTI_MANIPULATION.MAX_BETS_PER_WALLET then
          [ {| field := "betCount"; message := VALIDATION_MESSAGES.BET_COUNT_EXCEEDED;
               code := ERROR_CODES.BET_COUNT_EXCEEDED |} ]
        else [])
    ++ (if Qlt_bool (inject_Z ANTI_MANIPULATION.POOL_CAP_PERCENT) walletExposurePercent then
          [ {| field := "poolCap"; message := VALIDATION_MESSAGES.POOL_CAP_EXCEEDED;
               code := ERROR_CODES.POOL_CAP_EXCEEDED |} ]
        else []) in
  {| c_isValid := (length errors =? 0)%nat;
     c_errors := errors;
     c_warnings :=
       if Qlt_bool (inject_Z 8) walletExposurePercent
       then [PoolShare walletExposurePercent] else [] |}.

(** [wouldBetBeRejected]. *)
Definition wouldBetBeRejected (amount : Q) (cooldownRemaining betCount : Z)
    (isFlagged : bool) (marketStatus : string) : bool :=
  Qlt_bool amount (inject_Z BET_LIMITS.MIN_BET)
  || Qlt_bool (inject_Z BET_LIMITS.MAX_BET) amount
  || (cooldownRemaining >? 0)
  || (betCount >=? ANTI_MANIPULATION.MAX_BETS_PER_WALLET)
  || isFlagged
  || negb (String.eqb marketStatus "ACTIVE").

(** [getCooldownRemaining]; [!lastBetTimestamp] holds for [null] and for [0]. *)
Definition getCooldownRemaining (lastBetTimestamp : option Z) (currentTime : Z) : Z :=
  match lastBetTimestamp with
  | None => 0
  | Some lastBetTimestamp =>
      if lastBetTimestamp =? 0 then 0
      else
        let timeSinceLastBet := currentTime - lastBetTimestamp in
        let cooldownMs := ANTI_MANIPULATION.COOLDOWN_SECONDS * 1000 in
        if timeSinceLastBet >=? cooldownMs then 0
        else ceil_div (cooldownMs - timeSinceLastBet) 1000
  end.

(** [getRemainigBetsAllowed]. *)
Definition getRemainigBetsAllowed (currentBetCount : Z) : Z :=
  Z.max 0 (ANTI_MANIPULATION.MAX_BETS_PER_WALLET - currentBetCount).



End BetRulesUtil.

(* ======================================================================= *)
(** * hooks/useBetValidation.ts: the calculation helpers                      *)
(* ======================================================================= *)

Module BetCalc.




End BetCalc.

(* ======================================================================= *)
(** * lib/blockchain: the status helpers and the unit conversions             *)
(* ======================================================================= *)

Module TxStatusHelpers.
Import TxValidator.

(** [getTransactionStatus] (viem-client.ts). *)
Definition getTransactionStatus (publicClient : PublicClient) (txHash : string) : TxStatus :=
  match getTransactionReceipt publicClient txHash with
  | Throw _ => not_found
  | Ok None => pending
  | Ok (Some receipt) =>
      if String.eqb (rc_status receipt) "success" then success else failed
  end.

Record QuickValidation : Type := {
  qv_isValid : bool;
  qv_status : TxStatus;
  qv_confirmations : option Z;
  qv_error : option string;
}.

(** [quickValidateTransaction] (tx-validator.ts). Block numbers are below
    2^53, where [Number] is exact. *)
Definition quickValidateTransaction (contract : string) (publicClient : PublicClient)
    (txHash : string) : QuickValidation :=
  let validation := validateTransactionOnChain contract publicClient txHash in
  if negb (oc_isValid validation) then
    {| qv_isValid := false; qv_status := oc_status validation;
       qv_confirmations := None; qv_error := oc_error validation |}
  else
    match oc_receipt validation with
    | Some receipt =>
        match getBlockNumber publicClient with
        | Ok currentBlock =>
            {| qv_isValid := true; qv_status := success;
               qv_confirmations := Some (currentBlock - rc_blockNumber receipt);
               qv_error := None |}
        | Throw m =>
            {| qv_isValid := false; qv_status := not_found;
               qv_confirmations := None; qv_error := Some m |}
        end
    | None =>
        {| qv_isValid := true; qv_status := success;
           qv_confirmations := Some 0; qv_error := None |}
    end.

(** *** [monitorTransaction] (tx-validator.ts) *)

(** What one run of [checkTransaction] meets: the clock when it starts, the
    ledger while it runs, and the clock in its [catch] clause. *)
Record Attempt : Type := {
  at_start : Z;
  ledger : PublicClient;
  at_catch : Z;
}.

(** How a run of [checkTransaction] ends: it resolves the promise, or it
    schedules the next run with [setTimeout]. *)
Inductive CheckOutcome : Type :=
| Resolve (result : ValidatedBetTransaction)
| Retry.

(** The result objects that [monitorTransaction] builds itself. *)
Definition unresolved (txHash : string) (status : TxStatus) (error : string)
    : ValidatedBetTransaction :=
  {| v_isValid := false; v_choice := None; v_amount := None; v_amountWei := None;
     v_txHash := txHash; v_blockNumber := None; v_receipt := None; v_gasUsed := None;
     v_status := Some status; v_errors := [error]; v_warnings := [] |}.

(** One run of [checkTransaction]. [onProgress] tells whether the callback
    is given; the callback is taken to return. *)
Definition checkTransaction (contract txHash : string) (userChoice : BetChoice)
    (userAmount : Q) (onProgress : bool) (startTime maxWaitTime : Z) (a : Attempt)
    : CheckOutcome :=
  if at_start a - startTime >? maxWaitTime then
    Resolve (unresolved txHash not_found "Transaction did not confirm within 5 minutes")
  else
    let caught :=
      if at_catch a - startTime >? maxWaitTime then
        Resolve (unresolved txHash not_found "Timeout waiting for transaction")
      else Retry in
    let validation := validateTransactionOnChain contract (ledger a) txHash in
    if negb (oc_isValid validation) then
      match oc_status validation with
      | pending =>
          match oc_receipt validation, onProgress with
          | Some _, true =>
              match getBlockNumber (ledger a) with
              | Ok _ => Retry
              | Throw _ => caught
              end
          | _, _ => Retry
          end
      | status =>
          Resolve (unresolved txHash status
                     (default "Transaction failed" (oc_error validation)))
      end
    else
      let validated :=
        Resolve (validateBetTransaction contract (ledger a) txHash userChoice userAmount) in
      if onProgress then
        match getBlockNumber (ledger a) with
        | Ok _ => validated
        | Throw _ => caught
        end
      else validated.

(** [monitorTransaction] over the runs of [checkTransaction] that the
    timers give it, [startTime] being the clock at the call: the value the
    promise resolves to, or [None] while no run has resolved it. *)
Fixpoint monitorTransaction (contract txHash : string) (userChoice : BetChoice)
    (userAmount : Q) (onProgress : bool) (maxWaitTime startTime : Z)
    (attempts : list Attempt) : option ValidatedBetTransaction :=
  match attempts with
  | [] => None
  | a :: attempts' =>
      match checkTransaction contract txHash userChoice userAmount onProgress
              startTime maxWaitTime a with
      | Resolve result => Some result
      | Retry =>
          monitorTransaction contract txHash userChoice userAmount onProgress
            maxWaitTime startTime attempts'
      end
  end.

End TxStatusHelpers.

Module Wei.
Import JsString.

(** [formatWei] (viem-client.ts) for a number of decimals that is a
    non-negative integer, where [BigInt(10) ** BigInt(decimals)] is defined.
    The division and the remainder of [bigint]s truncate towards zero. *)
Definition formatWei (wei : Z) (decimals : nat) : string :=
  let divisor := 10 ^ Z.of_nat decimals in
  let integerPart := Z.quot wei divisor in
  let fractionalPart := Z.rem wei divisor in
  let fractionalStr :=
    LiveStats.strip_trailing_zeros (LiveStats.padStart0 decimals (pretty fractionalPart)) in
  if String.eqb fractionalStr EmptyString then pretty integerPart
  else pretty integerPart +:+ "." +:+ fractionalStr.

(** [toWei] (viem-client.ts) for a [string] argument. [parts[1]], or the
    empty string when it is missing, is the text between the first and the
    second point, if any. *)
Definition toWei (value : string) (decimals : nat) : JsResult Z :=
  let parts := split_on "." value in
  match BigInt_of_string (nth 0 parts EmptyString) with
  | Throw m => Throw m
  | Ok integerPart =>
      let fractionalPart := nth 1 parts EmptyString in
      let paddedFractional := padEnd0 decimals fractionalPart in
      match BigInt_of_string paddedFractional with
      | Throw m => Throw m
      | Ok fractionalBigInt =>
          let divisor := 10 ^ Z.of_nat decimals in
          Ok (integerPart * divisor + fractionalBigInt)
      end
  end.

End Wei.

(* ======================================================================= *)
(** * lib/db/client.ts: the pool and concentration helpers                    *)
(* ======================================================================= *)

Module DbClient.
Import Db.

Record MarketPoolInfo : Type := {
  pi_marketId : string;
  pi_yesPool : Z;
  pi_noPool : Z;
  pi_totalPool : Z;
  pi_yesPercent : Z;
  pi_noPercent : Z;
}.

Record WalletConcentration : Type := {
  wc_walletTotal : Z;
  wc_totalPool : Z;
  wc_concentrationPercent : Z;
  wc_isOverCap : bool;
}.

Section Helpers.
Variable fails : CallSite -> bool.

(** [getMarketPoolInfo]; [site] names the fault flag of its query. *)
Definition getMarketPoolInfo (site : CallSite) (marketId : string)
    : Task (option MarketPoolInfo) :=
  try_catch
    (market ← market_findUnique fails site marketId;
     match market with
     | None => mret None
     | Some market =>
         let totalPool := m_yesPool market + m_noPool market in
         let yesPercent :=
           if totalPool >? 0 then Z.quot (m_yesPool market * 100) totalPool else 0 in
         let noPercent :=
           if totalPool >? 0 then Z.quot (m_noPool market * 100) totalPool else 0 in
         mret (Some {| pi_marketId := m_marketId market; pi_yesPool := m_yesPool market;
                       pi_noPool := m_noPool market; pi_totalPool := totalPool;
                       pi_yesPercent := yesPercent; pi_noPercent := noPercent |})
     end)
    (fun _ => mret None).

(** [getWalletConcentration]; [site] and [site_sum] name the fault flags of
    its query and of the query of [getUserTotalBetAmount]. *)
Definition getWalletConcentration (site site_sum : CallSite)
    (walletAddress marketId : string) : Task (option WalletConcentration) :=
  try_catch
    (market ← market_findUnique fails site marketId;
     match market with
     | None => mret None
     | Some market =>
         walletTotal ← getUserTotalBetAmount fails site_sum walletAddress marketId;
         let totalPool := m_yesPool market + m_noPool market in
         let concentrationPercent :=
           if totalPool >? 0 then Z.quot (walletTotal * 100) totalPool else 0 in
         mret (Some {| wc_walletTotal := walletTotal; wc_totalPool := totalPool;
                       wc_concentrationPercent := concentrationPercent;
                       wc_isOverCap := concentrationPercent >? 10 |})
     end)
    (fun _ => mret None).

End Helpers.

End DbClient.

(* ======================================================================= *)
(** * app/api/bets/get-user-bets/route.ts: the rate limiter                   *)
(* ======================================================================= *)

Module RateLimit.

Record Entry : Type := {
  count : Z;
  resetTime : Z;
}.

(** [checkRateLimit] at the instant [now]: the verdict and the value it
    leaves in the module variable [rateLimitMap]. *)
Definition checkRateLimit (now : Z) (key : string) (limit windowMs : Z)
    (rateLimitMap : gmap string Entry) : bool * gmap string Entry :=
  match rateLimitMap !! key with
  | Some entry =>
      if now >? resetTime entry then
        (true, <[key := {| count := 1; resetTime := now + windowMs |}]> rateLimitMap)
      else if count entry <? limit then
        (true, <[key := {| count := count entry + 1; resetTime := resetTime entry |}]>
                 rateLimitMap)
      else (false, rateLimitMap)
  | None =>
      (true, <[key := {| count := 1; resetTime := now + windowMs |}]> rateLimitMap)
  end.

(** [cleanupRateLimitMap] at the instant [now]. *)
Definition cleanupRateLimitMap (now : Z) (rateLimitMap : gmap string Entry)
    : gmap string Entry :=
  filter (fun kv => ~ (now > resetTime kv.2)) rateLimitMap.

(** The verdicts of the calls of [checkRateLimit] for [key] at the instants
    [calls], in order, and the map they leave. *)
Fixpoint serve (key : string) (limit windowMs : Z) (calls : list Z)
    (rateLimitMap : gmap string Entry) : list bool * gmap string Entry :=
  match calls with
  | [] => ([], rateLimitMap)
  | now :: calls' =>
      let '(verdict, m) := checkRateLimit now key limit windowMs rateLimitMap in
      let '(verdicts, m') := serve key limit windowMs calls' m in
      (verdict :: verdicts, m')
  end.

(** The number of accepted calls. *)
Definition accepted (verdicts : list bool) : Z :=
  Z.of_nat (length (filter (fun v => v = true) verdicts)).

End RateLimit.

(* ======================================================================= *)
(** * Specification-level definitions                                        *)
(* ======================================================================= *)

(** ** The decoder and the claim comparison *)

Section VerifierSpec.
Import TxValidator.

(** A decode failure: the result of [decodePlaceBetTransaction] is invalid
    and carries no bet. *)
Definition decode_failure (d : DecodedBetTransaction) : Prop :=
  d_isValid d = false /\ d_choice d = None /\ d_amount d = None.

(** The successful result for the pair [(c, a)]. *)
Definition decoded (c : BetChoice) (a : Z) : DecodedBetTransaction :=
  {| d_isValid := true; d_choice := Some c; d_amount := Some a; d_error := None |}.

(** The choice that a parameter word encodes. *)
Definition choice_of_word (w : Z) : option BetChoice :=
  if w =? 0 then Some YES else if w =? 1 then Some NO else None.

(** The parameter section of a payload and its two 32-byte words. *)
Definition params_of (data : string) : string := slice_from data 10.

Definition choice_word (data : string) : JsResult Z :=
  BigInt_0x (slice (params_of data) 0 64).

Definition amount_word (data : string) : JsResult Z :=
  BigInt_0x (slice (params_of data) 64 128).

(** The payload has the placeBet selector and two words of parameters. *)
Definition placeBet_shaped (data : string) : Prop :=
  slice data 0 10 = FUNCTION_SELECTORS.PLACE_BET
  /\ String.length (params_of data) = 128%nat.

(** A well-formed placeBet payload for [(c, a)]: shaped as above, both words
    are hexadecimal numbers, the first encodes [c], the second is [a], and
    [a] is an amount the contract call accepts. *)
Definition well_formed_placeBet (data : string) (c : BetChoice) (a : Z) : Prop :=
  placeBet_shaped data
  /\ (exists w, choice_word data = Ok w /\ choice_of_word w = Some c)
  /\ amount_word data = Ok a
  /\ BET_LIMITS.MIN_BET_WEI <= a <= BET_LIMITS.MAX_BET_WEI.

(** The claimed amount in smallest units, [BigInt(userAmount * 10 ** 6)]. *)
Definition expected_units (userAmount : Q) : JsResult Z :=
  BigInt_of_number (Qmult userAmount (inject_Z (10 ^ BET_LIMITS.USDT_DECIMALS))).

(** Two amounts in smallest units differ by at most one unit. *)
Definition within_tolerance (a e : Z) : Prop := Z.abs (a - e) <= 1.



End VerifierSpec.

(** ** The rule engine *)

Section RulesSpec.
Import BetRules.



(** The bound of the code: a fraction of the pool before the bet, or the
    bootstrap ceiling when that pool is not positive. *)
Definition pre_bet_cap_exceeded (w a y n : Q) : Prop :=
  (Qlt 0 (y + n)
   /\ Qlt ((y + n) * inject_Z ANTI_MANIPULATION.POOL_CAP_PERCENT / inject_Z 100) (w + a))
  \/ (Qle (y + n) 0 /\ Qlt (inject_Z (BET_LIMITS.MAX_BET * 10)) (w + a)).

Definition poolCapError : BetValidationError :=
  {| field := "poolCap"; message := VALIDATION_MESSAGES.POOL_CAP_EXCEEDED;
     code := ERROR_CODES.POOL_CAP_EXCEEDED |}.


(** The seven checks of the rule engine. *)
Inductive Check : Type :=
| AmountBounds | MarketLiveness | WalletFlag
| Cooldown | BetCountCap | PoolConcentrationCap | Velocity.



Definition betsInLastHour (i : BetInput) (t : Z) : Z :=
  Z.of_nat (length (filter (fun timestamp => t - 3600 * 1000 <= timestamp)
                           (recentBetTimestamps i))).





(** The validator of each check. *)
Definition validator (k : Check) (i : BetInput) (t : Z) : list BetValidationError :=
  match k with
  | AmountBounds => validateBetAmount (amount i)
  | MarketLiveness => validateMarketActive (marketStatus i) (marketEndTime i) t
  | WalletFlag => validateWalletNotFlagged (isFlagged i)
  | Cooldown => validateCooldown (lastBetTimestamp i) t
  | BetCountCap => validateBetCount (currentBetCount i)
  | PoolConcentrationCap =>
      validatePoolCap (walletTotalBets i) (amount i) (totalYesPool i) (totalNoPool i)
  | Velocity => validateBetVelocity (recentBetTimestamps i) t
  end.


Definition first_stage_errors (i : BetInput) (t : Z) : list BetValidationError :=
  validateWalletAddress (walletAddress i) ++ validateBetChoice (choice i)
  ++ validator AmountBounds i t ++ validator MarketLiveness i t ++ validator WalletFlag i t.

Definition second_stage_errors (i : BetInput) (t : Z) : list BetValidationError :=
  validator Cooldown i t ++ validator BetCountCap i t
  ++ validator PoolConcentrationCap i t ++ validator Velocity i t.


End RulesSpec.

(** ** The confirmation handler *)

Section ConfirmSpec.
Import TxValidator Db BetRules ConfirmRoute.

(** The rows that the settlement of [data] writes. *)
Definition betRow (env : Env) (data : PlaceBetRequest) (userBetCount : Z) (db : Store)
    : Bet :=
  {| b_id := pretty (length (bet db)); b_walletAddress := walletAddress data;
     b_marketId := marketId data; b_choice := choice data;
     b_amount := amountWei_of (amount data); b_betNumber := userBetCount + 1;
     b_status := "CONFIRMED"; b_txHash := txHash data; b_createdAt := now env |}.

Definition auditRow (data : PlaceBetRequest) (row : Bet) : BetHistory :=
  {| h_betId := b_id row; h_marketId := marketId data; h_wallet := walletAddress data;
     h_action := "PLACED"; h_reason := "Bet placed via transaction " +:+ txHash data |}.

Definition with_bet (row : Bet) (db : Store) : Store :=
  {| market := market db; bet := bet db ++ [row]; betHistory := betHistory db;
     flaggedWallet := flaggedWallet db; poolSnapshot := poolSnapshot db |}.

Definition with_audit (h : BetHistory) (db : Store) : Store :=
  {| market := market db; bet := bet db; betHistory := betHistory db ++ [h];
     flaggedWallet := flaggedWallet db; poolSnapshot := poolSnapshot db |}.

Definition with_market (marketId : string) (row : Market) (db : Store) : Store :=
  {| market := <[marketId := row]> (market db); bet := bet db;
     betHistory := betHistory db; flaggedWallet := flaggedWallet db;
     poolSnapshot := poolSnapshot db |}.

Definition with_snapshot (s : PoolSnapshot) (db : Store) : Store :=
  {| market := market db; bet := bet db; betHistory := betHistory db;
     flaggedWallet := flaggedWallet db; poolSnapshot := poolSnapshot db ++ [s] |}.

Definition snapshotRow (data : PlaceBetRequest) (db : Store) : PoolSnapshot :=
  let row :=
    default (Build_Market EmptyString EmptyString None 0 0 0 0)
            (market db !! marketId data) in
  {| s_marketId := marketId data; s_yesPool := m_yesPool row; s_noPool := m_noPool row;
     s_totalBets :=
       Z.of_nat (length (filter (fun b => b_marketId b = marketId data) (bet db))) |}.

(** How far the four writes of a settlement got. *)
Inductive Progress : Type :=
| NothingWritten | BetWritten | AuditWritten | PoolWritten | SnapshotWritten.

(** The store after the writes of the settlement of [data] up to [p], in the
    order Bet row, PLACED audit entry, pool increment, PoolSnapshot. *)
Definition written (p : Progress) (env : Env) (data : PlaceBetRequest) (market0 : Market)
    (userBetCount : Z) (db : Store) : Store :=
  let row := betRow env data userBetCount db in
  let db1 := with_bet row db in
  let db2 := with_audit (auditRow data row) db1 in
  let db3 :=
    with_market (marketId data)
      (poolUpdate env (choice data) market0 (amountWei_of (amount data))
         (default market0 (market db !! marketId data))) db2 in
  let db4 := with_snapshot (snapshotRow data db3) db3 in
  match p with
  | NothingWritten => db
  | BetWritten => db1
  | AuditWritten => db2
  | PoolWritten => db3
  | SnapshotWritten => db4
  end.

(** The two responses that follow a settlement attempt. *)
Definition internalError : Response :=
  {| r_httpStatus := 500; r_success := false; r_betId := None; r_status := None;
     r_error := Some "An unexpected error occurred while confirming your bet";
     r_code := Some "INTERNAL_ERROR" |}.

Definition confirmed (row : Bet) : Response :=
  {| r_httpStatus := 200; r_success := true; r_betId := Some (b_id row);
     r_status := Some "CONFIRMED"; r_error := None; r_code := None |}.

(** A task that leaves the store as it found it. *)
Definition readonly {A : Type} (m : Task A) : Prop := forall db, (m db).2 = db.

(** The outcome of the settlement steps, write by write. *)
Definition settle_outcome (env : Env) (data : PlaceBetRequest) (market0 : Market)
    (n : Z) (db : Store) : JsResult Response * Progress :=
  if fails env Step8_bet_create then (Throw "store error", NothingWritten)
  else if bool_decide (txHash data ∈ b_txHash <$> bet db) then
    (Throw "Unique constraint failed on the fields: (`txHash`)", NothingWritten)
  else if fails env Step9_betHistory_create then (Throw "store error", BetWritten)
  else if fails env Step10_market_update then (Throw "store error", AuditWritten)
  else
    match market db !! marketId data with
    | None => (Throw "Record to update not found", AuditWritten)
    | Some _ =>
        let ok := Ok (confirmed (betRow env data n db)) in
        if fails env Step11_getMarketById then (ok, PoolWritten)
        else if fails env Step11_bet_count then (Throw "store error", PoolWritten)
        else if fails env Step11_poolSnapshot_create then (Throw "store error", PoolWritten)
        else (ok, SnapshotWritten)
    end.

(** The runs of [POST] on a parsed body: an early error response that leaves
    the store as it was, or a settlement attempt. *)
Inductive POST_run (env : Env) (body : RequestBody) (db : Store)
    : Response -> Store -> Prop :=
| POST_early (r : Response) :
    r_success r = false -> POST_run env body db r db
| POST_settle (data : PlaceBetRequest) (market0 : Market) (input : BetInput) :
    validateRequest env body = inr data ->
    market db !! marketId data = Some market0 ->
    verifyTransaction env data = None ->
    (gatherBetInput env data market0 db).1 = Ok input ->
    checkBetRules env input = None ->
    POST_run env body db
      (match (settle_outcome env data market0 (currentBetCount input) db).1 with
       | Ok r => r
       | Throw _ => internalError
       end)
      (written (settle_outcome env data market0 (currentBetCount input) db).2
         env data market0 (currentBetCount input) db).

(** The Bet rows of a transaction reference. *)
Definition rows_for (txHash : string) (db : Store) : list Bet :=
  filter (fun b => b_txHash b = txHash) (bet db).

(** The idempotence claim at one input: after a successful confirmation, a
    second call with the same body leaves exactly one Bet row and returns
    the result of the first call. *)
Definition idempotent_at (env1 env2 : Env) (body : RequestBody) (db : Store) : Prop :=
  forall r1 db1 r2 db2,
    POST env1 (Some body) db = (Ok r1, db1) -> r_success r1 = true ->
    POST env2 (Some body) db1 = (Ok r2, db2) ->
    length (rows_for (rq_txHash body) db2) = 1%nat /\ r2 = r1.

(** The four tables that a settlement writes changed together or not at all. *)
Definition no_partial_state (db db' : Store) : Prop :=
  db' = db
  \/ (bet db' <> bet db /\ betHistory db' <> betHistory db
      /\ market db' <> market db /\ poolSnapshot db' <> poolSnapshot db).

(** The atomicity claim at one input. *)
Definition settlement_atomic_at (env : Env) (body : RequestBody) (db : Store) : Prop :=
  forall r db', POST env (Some body) db = (Ok r, db') -> no_partial_state db db'.

End ConfirmSpec.

(** A concrete market, wallet and ledger: the first bet of scenario A of the
    specification, 5 USDT on YES. *)
Module Scenario.
Import TxValidator Db BetRules ConfirmRoute.

Definition contract : string := "0x1111111111111111111111111111111111111111".
Definition wallet : string := "0x2222222222222222222222222222222222222222".
Definition tx1 : string := "0xaaaa".

(** The call [placeBet(YES, 5000000)]. *)
Definition payload : string :=
  "0x4cf088d9"
  +:+ "0000000000000000000000000000000000000000000000000000000000000000"
  +:+ "00000000000000000000000000000000000000000000000000000000004c4b40".

(** The call [placeBet(NO, 5000000)]. *)
Definition payload_no : string :=
  "0x4cf088d9"
  +:+ "0000000000000000000000000000000000000000000000000000000000000001"
  +:+ "00000000000000000000000000000000000000000000000000000000004c4b40".

(** A call below the minimum bet: [placeBet(YES, 4999999)]. *)
Definition payload_small : string :=
  "0x4cf088d9"
  +:+ "0000000000000000000000000000000000000000000000000000000000000000"
  +:+ "00000000000000000000000000000000000000000000000000000000004c4b3f".

(** A ledger on which [tx1] is a successful call of the contract with the
    input [input]. *)
Definition ledger_with (input : string) : PublicClient :=
  {| getTransactionReceipt := fun h =>
       if String.eqb h tx1 then
         Ok (Some {| rc_status := "success"; rc_to := Some contract;
                     rc_gasUsed := 50000; rc_blockNumber := 100 |})
       else Ok None;
     getTransaction := fun h =>
       if String.eqb h tx1 then
         Ok {| tx_input := input; tx_gas := 100000; tx_gasPrice := Some 1 |}
       else Throw "Transaction not found";
     getBlockNumber := Ok 110 |}.

Definition no_fault : CallSite -> bool := fun _ => false.

Definition env_with (input : string) (t : Z) (faults : CallSite -> bool) : Env :=
  {| now := t; publicClient := ledger_with input; isAddress := isValidAddress;
     PREDICTION_MARKET := contract; fails := faults |}.

Definition env_at : Z -> (CallSite -> bool) -> Env := env_with payload.

Definition market0 (yes : Z) : Market :=
  {| m_marketId := "m1"; m_status := "ACTIVE"; m_winner := None;
     m_yesPool := yes; m_noPool := 0; m_endDate := 2000000000000;
     m_updatedAt := 0 |}.

(** A store with the market [m1], whose YES pool holds [yes] units. *)
Definition db0 (yes : Z) : Store :=
  {| market := {[ "m1" := market0 yes ]}; bet := []; betHistory := [];
     flaggedWallet := ∅; poolSnapshot := [] |}.

Definition body : RequestBody :=
  {| rq_txHash := tx1; rq_marketId := "m1"; rq_choice := "YES"; rq_amount := 5;
     rq_walletAddress := wallet |}.

Definition data : PlaceBetRequest :=
  {| txHash := tx1; marketId := "m1"; choice := YES; amount := 5;
     walletAddress := wallet |}.

(** The first call, and a second call after the cooldown, on a market whose
    pool is large enough for the pool cap. *)
Definition env_first : Env := env_at 1700000000000 no_fault.
Definition env_second : Env := env_at 1700000400000 no_fault.
Definition first_row : Bet := betRow env_first data 0 (db0 1000000000).
Definition after_first : Store :=
  written SnapshotWritten env_first data (market0 1000000000) 0 (db0 1000000000).

(** A call during which the pool update of STEP 10 fails. *)
Definition env_pool_fault : Env :=
  env_at 1700000000000 (fun site => bool_decide (site = Step10_market_update)).
Definition after_pool_fault : Store :=
  written AuditWritten env_pool_fault data (market0 0) 0 (db0 0).

End Scenario.

(** ** The live-stats stream *)

Section LiveSpec.
Import LiveStats.

Definition eventType (f : SSEEvent) : string :=
  match f with
  | POOL_UPDATE _ _ _ _ _ _ _ _ => "POOL_UPDATE"
  | MARKET_UPDATE _ _ _ _ _ _ => "MARKET_UPDATE"
  | HEARTBEAT _ => "HEARTBEAT"
  | ERROR _ _ _ => "ERROR"
  end.

(** The multiplexing claim on a module state: a market with an open
    connection has exactly one polling loop. *)
Definition one_loop_per_market (srv : Server) : Prop :=
  forall m, (1 <= openConnections m srv)%nat -> pollingLoops m srv = 1%nat.

(** The timer of a stream is armed exactly while its connection is open. *)
Definition timer_follows_connection (s : Stream) : Prop :=
  pollInterval s = true <-> isStreamClosed s = false /\ controllerClosed s = false.

End LiveSpec.

(** A market that is closed after a client connected, and two clients of one
    market. *)
Module StatusChange.
Import LiveStats.

Definition row (status : string) : Db.Market :=
  {| Db.m_marketId := "m1"; Db.m_status := status; Db.m_winner := None;
     Db.m_yesPool := 5000000; Db.m_noPool := 0; Db.m_endDate := 2000000000000;
     Db.m_updatedAt := 0 |}.

Definition store (status : string) : Db.Store :=
  {| Db.market := {[ "m1" := row status ]}; Db.bet := []; Db.betHistory := [];
     Db.flaggedWallet := ∅; Db.poolSnapshot := [] |}.

Definition request : Request := {| q_marketId := Some "m1"; q_walletAddress := None |}.
Definition no_fault : PollSite -> bool := fun _ => false.

(** A connection opened while the market is ACTIVE. *)
Definition opened : Server :=
  (GET 1000 "sse-1" isValidAddress false (store "ACTIVE") request initial).1.

Definition stream0 : Stream :=
  {| connId := "sse-1"; marketId := "m1"; market := row "ACTIVE";
     prevYesPool := 5000000; prevNoPool := 0; isStreamClosed := false;
     pollInterval := true; controllerClosed := false; sent := [] |}.

(** The first tick after the market was closed, and the next tick, at which
    the market row is the same as at the first. *)
Definition tick1 : Stream * list SSEEvent := poll 3000 no_fault (store "CLOSED") stream0.
Definition tick2 : Stream * list SSEEvent := poll 5000 no_fault (store "CLOSED") tick1.1.

Definition two_subscribers : Server :=
  run [EvGET 1000 "sse-1" isValidAddress false (store "ACTIVE") request;
       EvGET 1001 "sse-2" isValidAddress false (store "ACTIVE") request] initial.

End StatusChange.

(** A round trip of the two conversion helpers that recovers its argument. *)
Definition roundtrip_exact (w : Z) : bool :=
  match Float64.toUSDTWei (Float64.formatUSDT w) with
  | Some r => r =? w
  | None => false
  end.

(** ** The utility validators *)

(** The bound that [validatePoolCap] and [getMaxBetByPoolCap] compute: a
    fraction of the pool before the bet, or the bootstrap ceiling. *)
Definition maxWalletExposure (y n : Q) : Q :=
  if Qlt_bool 0 (y + n)
  then (y + n) * inject_Z ANTI_MANIPULATION.POOL_CAP_PERCENT / inject_Z 100
  else inject_Z (BET_LIMITS.MAX_BET * 10).

(** ** The live-stats registry *)

(** Every registered connection identifier is that of a stream that was
    handed out and not aborted. *)
Definition registered_connections_are_open (srv : LiveStats.Server) : Prop :=
  forall cid,
    is_Some (LiveStats.activeConnections srv !! cid) ->
    exists s, s ∈ LiveStats.streams srv
              /\ LiveStats.connId s = cid /\ LiveStats.isStreamClosed s = false.

(** ** Decimal strings *)

Definition is_digit (c : ascii) : bool :=
  (48 <=? code_unit c) && (code_unit c <=? 57).

(** The string consists of decimal digits. *)
Fixpoint all_digits (s : string) : bool :=
  match s with
  | EmptyString => true
  | String c s' => is_digit c && all_digits s'
  end.

(** The number that a text of decimal digits writes. *)
Definition decimal_value (s : string) : Z := default 0 (JsString.parse_digits 10 0 s).

(** ** The ABI encoding of a placeBet call *)

(** The hexadecimal digit of a value below 16, in lower case. *)
Definition hex_char (d : Z) : ascii :=
  if d <? 10 then ascii_of_N (Z.to_N (48 + d)) else ascii_of_N (Z.to_N (87 + d)).

(** The last [k] hexadecimal digits of [n], most significant first. *)
Fixpoint hex_digits (k : nat) (n : Z) : string :=
  match k with
  | O => EmptyString
  | S k' => hex_digits k' (n / 16) +:+ String (hex_char (n mod 16)) EmptyString
  end.

(** A [uint8] or [uint256] argument of a call: one word of 32 bytes. *)
Definition abi_word (n : Z) : string := hex_digits 64 n.

Definition word_of_choice (c : BetChoice) : Z :=
  match c with YES => 0 | NO => 1 end.

(** The input of the call [placeBet(c, a)]: the selector and the two
    argument words. *)
Definition encodePlaceBet (c : BetChoice) (a : Z) : string :=
  TxValidator.FUNCTION_SELECTORS.PLACE_BET +:+ abi_word (word_of_choice c) +:+ abi_word a.

(* ======================================================================= *)
(** * Theorems                                                               *)
(* ======================================================================= *)

(** ** The conversion helpers (lib/config/constants.ts) *)

(** C6 (the code departs from the claim). The amount w = 8000001 lies in
    [MIN_BET_WEI, MAX_BET_WEI]; [formatUSDT] maps it to the binary64 value
    4503600190320449 * 2^-49, just below 8.000001, and [toUSDTWei] maps that
    value to 8000000: the round trip loses one smallest unit. *)
Theorem toUSDTWei_formatUSDT_8000001 :
  BET_LIMITS.MIN_BET_WEI <= 8000001 <= BET_LIMITS.MAX_BET_WEI
  /\ Float64.formatUSDT 8000001 = S754_finite false 4503600190320449 (-49)
  /\ Float64.toUSDTWei (Float64.formatUSDT 8000001) = Some 8000000
  /\ roundtrip_exact 8000001 = false.
Proof.
  split; [unfold BET_LIMITS.MIN_BET_WEI, BET_LIMITS.MAX_BET_WEI; lia|].
  repeat split; vm_compute; reflexivity.
Qed.

(** On whole USDT amounts, the only ones the rule engine accepts, the round
    trip is exact. *)
Lemma roundtrip_exact_whole_usdt :
  forallb (fun k => roundtrip_exact (Z.of_nat k * 1000000)) (seq 5 4996) = true.
Proof. vm_compute. reflexivity. Qed.

(** ** The decoder (lib/blockchain/tx-validator.ts) *)

Section VerifierProofs.
Import TxValidator.

Lemma invalid_decode_failure msg : decode_failure (invalid_decode msg).
Proof. by repeat split. Qed.

Lemma decode_wrong_selector data :
  slice data 0 10 <> FUNCTION_SELECTORS.PLACE_BET ->
  decodePlaceBetTransaction data = invalid_decode "Not a placeBet transaction".
Proof.
  intros H. unfold decodePlaceBetTransaction.
  by destruct (String.eqb_spec (slice data 0 10) FUNCTION_SELECTORS.PLACE_BET).
Qed.

Lemma decode_wrong_length data :
  slice data 0 10 = FUNCTION_SELECTORS.PLACE_BET ->
  String.length (params_of data) <> 128%nat ->
  decodePlaceBetTransaction data = invalid_decode "Invalid transaction data length".
Proof.
  intros Hs Hl. unfold decodePlaceBetTransaction. rewrite Hs, String.eqb_refl. simpl.
  fold (params_of data).
  by destruct (Nat.eqb_spec (String.length (params_of data)) 128).
Qed.

(** On a payload with the right selector and length, the decoder is the
    parse of the two words followed by the two domain checks. *)
Lemma decode_shaped data (P : DecodedBetTransaction -> Prop) :
  placeBet_shaped data ->
  P (match choice_word data with
     | Throw m => invalid_decode ("Failed to decode transaction: " +:+ m)
     | Ok choiceBigInt =>
        if negb (choiceBigInt =? 0) && negb (choiceBigInt =? 1) then
          invalid_decode "Invalid bet choice value"
        else
          match amount_word data with
          | Throw m => invalid_decode ("Failed to decode transaction: " +:+ m)
          | Ok amount =>
             if (amount <? BET_LIMITS.MIN_BET_WEI) || (amount >? BET_LIMITS.MAX_BET_WEI) then
               invalid_decode ("Amount " +:+ pretty amount +:+ " outside bet limits")
             else decoded (if choiceBigInt =? 0 then YES else NO) amount
          end
     end) ->
  P (decodePlaceBetTransaction data).
Proof.
  intros [Hs Hl]. unfold decodePlaceBetTransaction. rewrite Hs, String.eqb_refl. simpl negb.
  cbv iota. fold (params_of data). rewrite Hl. simpl (negb (128 =? 128)%nat). cbv iota.
  fold (choice_word data). fold (amount_word data). done.
Qed.

(** C8. The decoder returns a decode failure whenever the selector is not the
    placeBet selector, and whenever the parameter section is not 128
    characters long; on a well-formed placeBet payload it returns the pair
    (choice, amount) that the two parameter words encode, word 0 being YES
    and word 1 being NO. *)
Theorem decodePlaceBetTransaction_correct (data : string) :
  (slice data 0 10 <> FUNCTION_SELECTORS.PLACE_BET ->
     decode_failure (decodePlaceBetTransaction data))
  /\ (String.length (params_of data) <> 128%nat ->
     decode_failure (decodePlaceBetTransaction data))
  /\ (forall c a, well_formed_placeBet data c a ->
     decodePlaceBetTransaction data = decoded c a).
Proof.
  split; [|split].
  - intros H. rewrite decode_wrong_selector by done. apply invalid_decode_failure.
  - intros H.
    destruct (decide (slice data 0 10 = FUNCTION_SELECTORS.PLACE_BET)) as [Hs|Hs].
    + rewrite decode_wrong_length by done. apply invalid_decode_failure.
    + rewrite decode_wrong_selector by done. apply invalid_decode_failure.
  - intros c a (Hshape & (w & Hw & Hc) & Ha & Hlo & Hhi).
    apply decode_shaped; [done|]. rewrite Hw, Ha.
    unfold choice_of_word in Hc.
    destruct (Z.eqb_spec w 0) as [->|]; simplify_eq.
    + simpl. destruct (Z.ltb_spec a BET_LIMITS.MIN_BET_WEI); [lia|].
      destruct (Z.gtb_spec a BET_LIMITS.MAX_BET_WEI); [lia|]. done.
    + destruct (Z.eqb_spec w 1) as [->|]; simplify_eq. simpl.
      destruct (Z.ltb_spec a BET_LIMITS.MIN_BET_WEI); [lia|].
      destruct (Z.gtb_spec a BET_LIMITS.MAX_BET_WEI); [lia|]. done.
Qed.

(** The three parts of C8 on concrete payloads: a transfer selector, a
    truncated placeBet call, and the call placeBet(NO, 5000000). *)
Lemma decodePlaceBetTransaction_correct_witness :
  decode_failure (decodePlaceBetTransaction "0xa9059cbb00")
  /\ decode_failure (decodePlaceBetTransaction "0x4cf088d900")
  /\ decodePlaceBetTransaction Scenario.payload_no = decoded NO 5000000.
Proof.
  split; [|split].
  - apply (proj1 (decodePlaceBetTransaction_correct "0xa9059cbb00")).
    vm_compute. discriminate.
  - apply (proj1 (proj2 (decodePlaceBetTransaction_correct "0x4cf088d900"))).
    vm_compute. discriminate.
  - apply (proj2 (proj2 (decodePlaceBetTransaction_correct Scenario.payload_no))).
    split; [split; vm_compute; reflexivity|].
    split; [exists 1; split; vm_compute; reflexivity|].
    split; [vm_compute; reflexivity|].
    unfold BET_LIMITS.MIN_BET_WEI, BET_LIMITS.MAX_BET_WEI. lia.
Defined.

(** Conversely, a valid result comes from a well-formed payload only. *)
Lemma decode_valid_inv data :
  d_isValid (decodePlaceBetTransaction data) = true ->
  exists c a, well_formed_placeBet data c a /\ decodePlaceBetTransaction data = decoded c a.
Proof.
  intros H.
  destruct (decide (slice data 0 10 = FUNCTION_SELECTORS.PLACE_BET)) as [Hs|Hs];
    [|by rewrite decode_wrong_selector in H].
  destruct (decide (String.length (params_of data) = 128%nat)) as [Hl|Hl];
    [|by rewrite decode_wrong_length in H].
  assert (Hsh : placeBet_shaped data) by done.
  revert H. apply decode_shaped; [done|].
  destruct (choice_word data) as [w|] eqn:Hw; [|done].
  destruct (Z.eqb_spec w 0) as [->|Hw0]; simpl.
  - destruct (amount_word data) as [a|] eqn:Ha; [|done].
    destruct (Z.ltb_spec a BET_LIMITS.MIN_BET_WEI); [done|].
    destruct (Z.gtb_spec a BET_LIMITS.MAX_BET_WEI); [done|]. simpl. intros _.
    exists YES, a. split; [|done]. repeat split; try done; try lia. by exists 0.
  - destruct (Z.eqb_spec w 1) as [->|Hw1]; simpl; [|done].
    destruct (amount_word data) as [a|] eqn:Ha; [|done].
    destruct (Z.ltb_spec a BET_LIMITS.MIN_BET_WEI); [done|].
    destruct (Z.gtb_spec a BET_LIMITS.MAX_BET_WEI); [done|]. simpl. intros _.
    exists NO, a. split; [|done]. repeat split; try done; try lia. by exists 1.
Qed.

Lemma decode_rejects_choice data w :
  placeBet_shaped data -> choice_word data = Ok w -> w <> 0 -> w <> 1 ->
  decodePlaceBetTransaction data = invalid_decode "Invalid bet choice value".
Proof.
  intros Hsh Hw H0 H1. apply decode_shaped; [done|]. rewrite Hw.
  destruct (Z.eqb_spec w 0); [done|]. by destruct (Z.eqb_spec w 1).
Qed.

Lemma decode_rejects_amount data a :
  placeBet_shaped data -> amount_word data = Ok a ->
  a < BET_LIMITS.MIN_BET_WEI \/ BET_LIMITS.MAX_BET_WEI < a ->
  decode_failure (decodePlaceBetTransaction data).
Proof.
  intros Hsh Ha Hr. apply decode_shaped; [done|].
  destruct (choice_word data); [|apply invalid_decode_failure].
  destruct (_ && _); [apply invalid_decode_failure|]. rewrite Ha.
  destruct (Z.ltb_spec a BET_LIMITS.MIN_BET_WEI); [apply invalid_decode_failure|].
  destruct (Z.gtb_spec a BET_LIMITS.MAX_BET_WEI); [apply invalid_decode_failure|]. lia.
Qed.


(** *** The comparison with the claim *)



Lemma validateDecodedBet_valid_inv d uc ua r :
  validateDecodedBet d uc ua = Ok r -> ck_errors r = [] ->
  exists c a e, d_choice d = Some c /\ d_amount d = Some a /\ c = uc
    /\ expected_units ua = Ok e /\ within_tolerance a e.
Proof.
  unfold validateDecodedBet, expected_units, within_tolerance.
  destruct (d_isValid d), (d_choice d) as [c|], (d_amount d) as [a|];
    try (intros; simplify_eq/=; done).
  destruct (a =? 0); [intros; simplify_eq/=; done|].
  destruct (BigInt_of_number _) as [e|]; [|done].
  intros Hr He. simplify_eq/=. apply app_eq_nil in He as [H1 H2].
  case_bool_decide as Hc; [done|]. try apply dec_stable in Hc.
  exists c, a, e. repeat split; try done.
  destruct (Z.gtb_spec a e); simpl in *;
    match goal with H : context [?x >? 1] |- _ => destruct (Z.gtb_spec x 1) end;
    simplify_eq/=; lia.
Qed.


Lemma getTransactionDetails_data pc h td :
  getTransactionDetails pc h = Some td ->
  exists tx, getTransaction pc h = Ok tx /\ td_data td = tx_input tx.
Proof.
  unfold getTransactionDetails. destruct (getTransaction pc h) as [tx|]; [|done].
  intros H. exists tx. split; [done|]. repeat case_match; by simplify_eq/=.
Qed.

(** A valid result of [validateBetTransaction] comes from a decoded payload
    that matches the claim. *)
Lemma validateBetTransaction_valid_inv contract pc h uc ua :
  v_isValid (validateBetTransaction contract pc h uc ua) = true ->
  exists tx c a e,
    getTransaction pc h = Ok tx
    /\ decodePlaceBetTransaction (tx_input tx) = decoded c a
    /\ well_formed_placeBet (tx_input tx) c a
    /\ c = uc /\ expected_units ua = Ok e /\ within_tolerance a e.
Proof.
  unfold validateBetTransaction.
  destruct (oc_isValid _); cbn [negb]; cbv iota; [|done].
  destruct (getTransactionDetails pc h) as [td|] eqn:Htd; [|done].
  destruct (getTransactionDetails_data _ _ _ Htd) as (tx & Htx & Hdata).
  destruct (String.eqb (td_data td) EmptyString); [done|].
  destruct (ck_isValid (validateTransactionReceipt _ _ _)); cbn [negb]; cbv iota; [|done].
  rewrite Hdata.
  destruct (d_isValid (decodePlaceBetTransaction (tx_input tx))) eqn:Hdv;
    cbn [negb]; cbv iota; [|done].
  destruct (decode_valid_inv _ Hdv) as (c & a & Hwf & Hdec). rewrite Hdec.
  destruct (validateDecodedBet _ uc ua) as [dv|] eqn:Hv; [|done].
  assert (Hgo : forall errs3, errs3 ++ ck_errors dv = [] ->
     exists e, c = uc /\ expected_units ua = Ok e /\ within_tolerance a e).
  { intros errs3 [_ Herrs]%app_eq_nil.
    destruct (validateDecodedBet_valid_inv _ _ _ _ Hv Herrs)
      as (c' & a' & e & Hc & Ha & -> & He & Htol).
    simplify_eq/=. by exists e. }
  destruct (oc_receipt _) as [rc|];
    [destruct (truthy_bigint (td_blockNumber td));
       [destruct (getBlockNumber pc) as [cb|]; [|done] |] |].
  all: cbn [v_isValid];
    intros Hvalid%bool_decide_eq_true;
    destruct (Hgo _ Hvalid) as (e & -> & He & Htol);
    exists tx, uc, a, e; done.
Qed.

Lemma validateBetTransaction_undecodable contract pc h uc ua tx :
  getTransaction pc h = Ok tx ->
  d_isValid (decodePlaceBetTransaction (tx_input tx)) = false ->
  v_isValid (validateBetTransaction contract pc h uc ua) = false.
Proof.
  intros Htx Hd. apply not_true_is_false. intros Hv.
  destruct (validateBetTransaction_valid_inv _ _ _ _ _ Hv)
    as (tx' & c & a & e & Htx' & Hdec & _).
  rewrite Htx in Htx'. simplify_eq. by rewrite Hdec in Hd.
Qed.



Lemma isInteger_inject x : isInteger x = true <-> exists n, Qeq x (inject_Z n).
Proof.
  unfold isInteger. rewrite Qeq_bool_iff. split.
  - intros H. exists (Qfloor x). by symmetry.
  - intros [n Hn]. rewrite Hn at 2. rewrite (Qfloor_comp _ _ Hn), Qfloor_Z. reflexivity.
Qed.

(** A whole USDT amount, the only kind that the amount check of the rule
    engine lets through, is a whole number of smallest units. *)
Lemma whole_amount_has_units (amount : Q) :
  isInteger amount = true -> exists e, expected_units amount = Ok e.
Proof.
  intros [n Hn]%isInteger_inject. unfold expected_units, BigInt_of_number.
  assert (Hi : isInteger (Qmult amount (inject_Z (10 ^ BET_LIMITS.USDT_DECIMALS))) = true).
  { apply isInteger_inject. exists (n * 10 ^ BET_LIMITS.USDT_DECIMALS).
    rewrite Hn, inject_Z_mult. reflexivity. }
  rewrite Hi. by eexists.
Qed.


End VerifierProofs.

(** ** The rule engine (lib/validation/bet-rules.ts) *)

Section RulesProofs.
Import BetRules.

Lemma Qlt_bool_iff x y : Qlt_bool x y = true <-> Qlt x y.
Proof.
  unfold Qlt_bool. rewrite negb_true_iff, <- not_true_iff_false, Qle_bool_iff.
  split; [apply Qnot_le_lt | apply Qlt_not_le].
Qed.

Lemma Qlt_bool_false x y : Qlt_bool x y = false <-> Qle y x.
Proof. unfold Qlt_bool. by rewrite negb_false_iff, Qle_bool_iff. Qed.



Lemma validatePoolCap_cases w a y n :
  (pre_bet_cap_exceeded w a y n /\ validatePoolCap w a y n = [poolCapError])
  \/ (~ pre_bet_cap_exceeded w a y n /\ validatePoolCap w a y n = []).
Proof.
  unfold validatePoolCap, pre_bet_cap_exceeded. cbv zeta.
  destruct (Qlt_bool 0 (y + n)) eqn:Hpos.
  - apply Qlt_bool_iff in Hpos.
    destruct (Qlt_bool _ (w + a)) eqn:Hex.
    + left. split; [|done]. left. split; [done|]. by apply Qlt_bool_iff.
    + right. split; [|done]. apply Qlt_bool_false in Hex.
      intros [[_ H]|[H _]]; [by apply Qlt_not_le in H | by apply Qle_not_lt in H].
  - apply Qlt_bool_false in Hpos.
    destruct (Qlt_bool _ (w + a)) eqn:Hex.
    + left. split; [|done]. right. split; [done|]. by apply Qlt_bool_iff.
    + right. split; [|done]. apply Qlt_bool_false in Hex.
      intros [[H _]|[_ H]]; [by apply Qle_not_lt in Hpos | by apply Qlt_not_le in H].
Qed.



(** With a positive pool the bound of the code is the stricter one: a bet
    that passes the check respects the bound on the pool after the bet. *)
Lemma pre_bet_pass_implies_post_bet w a y n :
  Qlt 0 (y + n) -> Qle 0 a ->
  validatePoolCap w a y n = [] ->
  Qle (w + a) ((y + n + a) * inject_Z ANTI_MANIPULATION.POOL_CAP_PERCENT / inject_Z 100).
Proof.
  intros Hpos Ha Hnil.
  destruct (validatePoolCap_cases w a y n) as [[_ H]|[H _]]; [by rewrite H in Hnil|].
  assert (Hle : Qle (w + a)
                  ((y + n) * inject_Z ANTI_MANIPULATION.POOL_CAP_PERCENT / inject_Z 100)).
  { apply Qnot_lt_le. intros Hlt. apply H. left. done. }
  change (inject_Z ANTI_MANIPULATION.POOL_CAP_PERCENT) with (10 # 1)%Q in *.
  change (inject_Z 100) with (100 # 1)%Q in *.
  unfold Qdiv in *. change (/ (100 # 1))%Q with (1 # 100)%Q in *. lra.
Qed.

(** *** Total evaluation *)

















End RulesProofs.

(** ** The confirmation handler (app/api/bets/confirm/route.ts) *)

Section ConfirmProofs.
Import TxValidator Db BetRules ConfirmRoute.

(** *** Store tasks *)

Lemma bind_eq {A B} (m : Task A) (f : A -> Task B) db :
  (m ≫= f) db
  = match m db with (Ok a, db') => f a db' | (Throw e, db') => (Throw e, db') end.
Proof. done. Qed.

Lemma readonly_ret {A} (a : A) : readonly (mret a).
Proof. done. Qed.

Lemma readonly_throw {A} e : readonly (@throw A e).
Proof. done. Qed.

Lemma readonly_get : readonly get.
Proof. done. Qed.

Lemma readonly_bind {A B} (m : Task A) (f : A -> Task B) :
  readonly m -> (forall a, readonly (f a)) -> readonly (m ≫= f).
Proof.
  intros Hm Hf db. rewrite bind_eq. specialize (Hm db).
  destruct (m db) as [[a|e] db1]; simpl in *; subst; [apply Hf|done].
Qed.

Lemma readonly_catch {A} (m : Task A) h :
  readonly m -> (forall e, readonly (h e)) -> readonly (try_catch m h).
Proof.
  intros Hm Hh db. unfold try_catch. specialize (Hm db).
  destruct (m db) as [[a|e] db1]; simpl in *; subst; [done|apply Hh].
Qed.

Lemma readonly_guarded {A} fails site (m : Task A) :
  readonly m -> readonly (guarded fails site m).
Proof. intros Hm. unfold guarded. destruct (fails site); [apply readonly_throw|done]. Qed.

Ltac readonly_tac :=
  repeat first
    [ apply readonly_ret | apply readonly_throw | apply readonly_get
    | apply readonly_guarded | apply readonly_catch | apply readonly_bind
    | intros ? ].

(** STEPS 4 to 6 only read. *)
Lemma readonly_gatherBetInput env data market : readonly (gatherBetInput env data market).
Proof.
  unfold gatherBetInput, getUserBetCount, getUserTotalBetAmount, bet_count_wallet,
    bet_sum_amount, flaggedWallet_findUnique, bet_findMany_last, bet_findMany_recent.
  readonly_tac.
Qed.

Lemma getMarketById_eq fails site mid db :
  getMarketById fails site mid db
  = (Ok (if fails site then None else market db !! mid), db).
Proof.
  unfold getMarketById, market_findUnique, try_catch, guarded.
  destruct (fails site); done.
Qed.

Lemma bet_create_eq fails site now w m c a n st tx db :
  bet_create fails site now w m c a n st tx db
  = if fails site then (Throw "store error", db)
    else if bool_decide (tx ∈ b_txHash <$> bet db)
      then (Throw "Unique constraint failed on the fields: (`txHash`)", db)
      else
        let row :=
          {| b_id := pretty (length (bet db)); b_walletAddress := w; b_marketId := m;
             b_choice := c; b_amount := a; b_betNumber := n; b_status := st;
             b_txHash := tx; b_createdAt := now |} in
        (Ok row, with_bet row db).
Proof.
  unfold bet_create, guarded. destruct (fails site); [done|].
  rewrite bind_eq. cbn [get]. case_bool_decide; done.
Qed.

Lemma betHistory_create_eq fails site h db :
  betHistory_create fails site h db
  = if fails site then (Throw "store error", db) else (Ok tt, with_audit h db).
Proof. unfold betHistory_create, guarded. by destruct (fails site). Qed.

Lemma market_update_eq fails site mid f db :
  market_update fails site mid f db
  = if fails site then (Throw "store error", db)
    else match market db !! mid with
         | None => (Throw "Record to update not found", db)
         | Some row => (Ok tt, with_market mid (f row) db)
         end.
Proof.
  unfold market_update, guarded. destruct (fails site); [done|].
  rewrite bind_eq. cbn [get]. by destruct (market db !! mid).
Qed.

Lemma bet_count_market_eq fails site mid db :
  bet_count_market fails site mid db
  = if fails site then (Throw "store error", db)
    else (Ok (Z.of_nat (length (filter (fun b => b_marketId b = mid) (bet db)))), db).
Proof. unfold bet_count_market, guarded. by destruct (fails site). Qed.

Lemma poolSnapshot_create_eq fails site s db :
  poolSnapshot_create fails site s db
  = if fails site then (Throw "store error", db) else (Ok tt, with_snapshot s db).
Proof. unfold poolSnapshot_create, guarded. by destruct (fails site). Qed.

(** *** The settlement steps *)

(** STEPS 8 to 12 stop at the first write that throws and keep the writes
    made before it. *)
Lemma settle_eq env data market0 n db :
  settle env data market0 n db
  = ((settle_outcome env data market0 n db).1,
     written (settle_outcome env data market0 n db).2 env data market0 n db).
Proof.
  unfold settle, settle_outcome. cbv zeta. rewrite bind_eq, bet_create_eq.
  destruct (fails env Step8_bet_create); [done|].
  case_bool_decide; [done|]. cbv beta iota zeta.
  rewrite bind_eq, betHistory_create_eq.
  destruct (fails env Step9_betHistory_create); [done|]. cbv beta iota zeta.
  rewrite bind_eq, market_update_eq.
  destruct (fails env Step10_market_update); [done|].
  cbn [market with_bet with_audit].
  destruct (market db !! marketId data) as [r|] eqn:Hm; [|done]. cbv beta iota zeta.
  assert (Hd : default market0 (market db !! marketId data) = r) by by rewrite Hm.
  rewrite bind_eq, getMarketById_eq.
  destruct (fails env Step11_getMarketById).
  { cbn [fst snd written]. by rewrite Hd. }
  cbn [market with_market]. rewrite lookup_insert_eq. cbv beta iota zeta.
  rewrite !bind_eq, bet_count_market_eq.
  destruct (fails env Step11_bet_count).
  { cbn [fst snd written]. by rewrite Hd. }
  cbv beta iota zeta. rewrite poolSnapshot_create_eq.
  destruct (fails env Step11_poolSnapshot_create).
  { cbn [fst snd written]. by rewrite Hd. }
  cbn [fst snd written]. rewrite Hd. unfold snapshotRow. cbn [market with_market].
  rewrite lookup_insert_eq. done.
Qed.

Lemma settle_outcome_ok env data market0 n db r :
  (settle_outcome env data market0 n db).1 = Ok r ->
  (txHash data ∉ b_txHash <$> bet db)
  /\ r = confirmed (betRow env data n db)
  /\ ((settle_outcome env data market0 n db).2 = PoolWritten
      \/ (settle_outcome env data market0 n db).2 = SnapshotWritten).
Proof.
  unfold settle_outcome. repeat case_match; simpl; intros; simplify_eq.
  all: match goal with H : bool_decide _ = false |- _ => apply bool_decide_eq_false in H end.
  all: auto.
Qed.

Lemma settle_outcome_existing env data market0 n db :
  txHash data ∈ b_txHash <$> bet db ->
  exists e, settle_outcome env data market0 n db = (Throw e, NothingWritten).
Proof.
  intros Hin. unfold settle_outcome. destruct (fails env Step8_bet_create); [by eexists|].
  rewrite bool_decide_eq_true_2 by done. by eexists.
Qed.

Lemma bet_written p env data market0 n db :
  bet (written p env data market0 n db)
  = match p with
    | NothingWritten => bet db
    | _ => bet db ++ [betRow env data n db]
    end.
Proof. by destruct p. Qed.

(** *** The handler *)

Lemma verifyTransaction_failure env data r :
  verifyTransaction env data = Some r -> r_success r = false.
Proof. unfold verifyTransaction. repeat case_match; intros; by simplify_eq. Qed.

Lemma checkBetRules_failure env input r :
  checkBetRules env input = Some r -> r_success r = false.
Proof. unfold checkBetRules. repeat case_match; intros; by simplify_eq. Qed.

(** [POST] always answers, and its runs are those of [POST_run]. *)
Lemma POST_cases env body db :
  exists r db', POST env (Some body) db = (Ok r, db') /\ POST_run env body db r db'.
Proof.
  unfold POST, POST_try, try_catch.
  destruct (validateRequest env body) as [err|data] eqn:Hreq.
  { do 2 eexists. split; [reflexivity|]. by constructor. }
  rewrite bind_eq, getMarketById_eq.
  destruct (if fails env Step2_getMarketById then None else market db !! marketId data)
    as [mk|] eqn:Hmk; cbv beta iota zeta.
  2:{ do 2 eexists. split; [reflexivity|]. by constructor. }
  assert (Hmk' : market db !! marketId data = Some mk).
  { by destruct (fails env Step2_getMarketById). }
  destruct (negb _).
  { do 2 eexists. split; [reflexivity|]. by constructor. }
  destruct (_ >? _).
  { do 2 eexists. split; [reflexivity|]. by constructor. }
  destruct (verifyTransaction env data) as [r|] eqn:Hver.
  { do 2 eexists. split; [reflexivity|]. constructor. by eapply verifyTransaction_failure. }
  rewrite bind_eq.
  pose proof (readonly_gatherBetInput env data mk db) as Hro.
  destruct (gatherBetInput env data mk db) as [[input|e] db1] eqn:Hin; simpl in Hro; subst db1.
  2:{ do 2 eexists. split; [reflexivity|]. by constructor. }
  destruct (checkBetRules env input) as [r|] eqn:Hrules.
  { do 2 eexists. split; [reflexivity|]. constructor. by eapply checkBetRules_failure. }
  rewrite settle_eq.
  pose proof (POST_settle env body db data mk input Hreq Hmk' Hver) as Hs.
  rewrite Hin in Hs. specialize (Hs eq_refl Hrules).
  destruct (settle_outcome env data mk (currentBetCount input) db) as [[r|e] p];
    do 2 eexists; (split; [reflexivity|]); exact Hs.
Qed.

Lemma validateRequest_txHash env body data :
  validateRequest env body = inr data -> txHash data = rq_txHash body.
Proof. unfold validateRequest. repeat case_match; intros; by simplify_eq. Qed.

Lemma rows_for_fresh t (bs : list Bet) :
  t ∉ b_txHash <$> bs -> filter (fun b => b_txHash b = t) bs = [].
Proof.
  induction bs as [|b bs IH]; [done|]. rewrite fmap_cons, not_elem_of_cons. intros [Hb Hbs].
  rewrite filter_cons_False by done. auto.
Qed.

(** C1 (amended). Once a confirmation of the transaction reference t has
    succeeded, the store holds exactly one Bet row for t, and a second call
    with t answers, leaves the store as it is (no second Bet row), and does
    not return a success: its response is an error. *)
Theorem confirm_twice_one_row_second_call_fails
    (env1 env2 : Env) (body1 body2 : RequestBody) (db : Store)
    (r1 : Response) (db1 : Store) :
  rq_txHash body1 = rq_txHash body2 ->
  POST env1 (Some body1) db = (Ok r1, db1) ->
  r_success r1 = true ->
  length (rows_for (rq_txHash body1) db1) = 1%nat
  /\ exists r2, POST env2 (Some body2) db1 = (Ok r2, db1) /\ r_success r2 = false.
Proof.
  intros Htx H1 Hok.
  destruct (POST_cases env1 body1 db) as (r & db' & Hp & Hrun). rewrite H1 in Hp.
  simplify_eq. destruct Hrun as [r Hr|data mk input Hreq Hmk Hver Hin Hrules]; [congruence|].
  pose proof (settle_outcome_ok env1 data mk (currentBetCount input) db) as Hs.
  destruct (settle_outcome env1 data mk (currentBetCount input) db) as [[r|e] p];
    cbn [fst snd] in *; [|done].
  destruct (Hs _ eq_refl) as (Hfresh & -> & Hp). clear Hs.
  pose proof (validateRequest_txHash _ _ _ Hreq) as Ht. rewrite <- Ht in *.
  assert (Hbets : bet (written p env1 data mk (currentBetCount input) db)
                  = bet db ++ [betRow env1 data (currentBetCount input) db]).
  { rewrite bet_written. by destruct Hp as [-> | ->]. }
  split.
  - unfold rows_for. rewrite Hbets, filter_app, rows_for_fresh by done.
    rewrite filter_cons_True by done. done.
  - destruct (POST_cases env2 body2 (written p env1 data mk (currentBetCount input) db))
      as (r2 & db2 & Hp2 & Hrun2).
    destruct Hrun2 as [r2 Hr2|data2 mk2 input2 Hreq2 Hmk2 Hver2 Hin2 Hrules2]; [by eexists|].
    pose proof (validateRequest_txHash _ _ _ Hreq2) as Ht2.
    destruct (settle_outcome_existing env2 data2 mk2 (currentBetCount input2)
                (written p env1 data mk (currentBetCount input) db)) as [e He].
    { rewrite Ht2, <- Htx, Hbets, fmap_app. apply elem_of_app. right.
      simpl. rewrite Ht. left. }
    rewrite He in Hp2. cbn [fst snd written] in Hp2. by eexists.
Qed.

(** The first confirmation of scenario A, on a pool of 1000 USDT. *)
Lemma first_confirmation :
  POST Scenario.env_first (Some Scenario.body) (Scenario.db0 1000000000)
  = (Ok (confirmed Scenario.first_row), Scenario.after_first).
Proof. vm_compute. reflexivity. Qed.

(** The same request again, after the cooldown: the insert meets the
    uniqueness constraint. *)
Lemma second_confirmation :
  POST Scenario.env_second (Some Scenario.body) Scenario.after_first
  = (Ok internalError, Scenario.after_first).
Proof. vm_compute. reflexivity. Qed.

Lemma confirm_twice_witness :
  rq_txHash Scenario.body = rq_txHash Scenario.body
  /\ POST Scenario.env_first (Some Scenario.body) (Scenario.db0 1000000000)
     = (Ok (confirmed Scenario.first_row), Scenario.after_first)
  /\ r_success (confirmed Scenario.first_row) = true
  /\ length (rows_for (rq_txHash Scenario.body) Scenario.after_first) = 1%nat
  /\ exists r2,
       POST Scenario.env_second (Some Scenario.body) Scenario.after_first
       = (Ok r2, Scenario.after_first)
       /\ r_success r2 = false.
Proof.
  split; [reflexivity|]. split; [exact first_confirmation|]. split; [reflexivity|].
  exact (confirm_twice_one_row_second_call_fails
           Scenario.env_first Scenario.env_second Scenario.body Scenario.body
           (Scenario.db0 1000000000) (confirmed Scenario.first_row) Scenario.after_first
           eq_refl first_confirmation eq_refl).
Defined.

(** C1 fails as stated: the second call does not return the result of the
    first; it returns the INTERNAL_ERROR response. *)
Lemma second_confirmation_is_an_error :
  ~ idempotent_at Scenario.env_first Scenario.env_second Scenario.body
      (Scenario.db0 1000000000).
Proof.
  intros H.
  destruct (H _ _ _ _ first_confirmation eq_refl second_confirmation) as [_ Heq].
  discriminate Heq.
Qed.

(** C2 (amended). The four settlement writes are issued one after another,
    not as one atomic unit. A run of the handler either leaves the store as
    it was, with an error response, or leaves a non-empty prefix of the
    sequence Bet row, PLACED audit entry, pool increment, PoolSnapshot: the
    writes made before the one that failed remain. A success response is
    returned only after the pool increment; every other response of such a
    run is the internal error. So a pool increment is never left without its
    Bet row. *)
Theorem settlement_writes_form_a_prefix
    (env : Env) (body : RequestBody) (db : Store) (r : Response) (db' : Store) :
  POST env (Some body) db = (Ok r, db') ->
  (db' = db /\ r_success r = false)
  \/ (exists data market0 n p,
        validateRequest env body = inr data
        /\ market db !! marketId data = Some market0
        /\ p <> NothingWritten
        /\ db' = written p env data market0 n db
        /\ (r_success r = true ->
              r = confirmed (betRow env data n db)
              /\ (p = PoolWritten \/ p = SnapshotWritten))
        /\ (r_success r = false -> r = internalError)).
Proof.
  intros H. destruct (POST_cases env body db) as (r0 & db0 & Hp & Hrun).
  rewrite H in Hp. simplify_eq.
  destruct Hrun as [r Hr|data mk input Hreq Hmk Hver Hin Hrules]; [by left|].
  pose proof (settle_outcome_ok env data mk (currentBetCount input) db) as Hs.
  destruct (settle_outcome env data mk (currentBetCount input) db) as [[r|e] p];
    cbn [fst snd] in *.
  - destruct (Hs _ eq_refl) as (_ & -> & Hp). right.
    exists data, mk, (currentBetCount input), p. repeat split; try done.
    by destruct Hp as [-> | ->].
  - destruct p; [by left|right..];
      eexists data, mk, (currentBetCount input), _; repeat split; done.
Qed.

(** The confirmation of scenario A when the pool update throws. *)
Lemma confirmation_with_pool_fault :
  POST Scenario.env_pool_fault (Some Scenario.body) (Scenario.db0 0)
  = (Ok internalError, Scenario.after_pool_fault).
Proof. vm_compute. reflexivity. Qed.

Lemma settlement_writes_form_a_prefix_witness :
  POST Scenario.env_pool_fault (Some Scenario.body) (Scenario.db0 0)
  = (Ok internalError, Scenario.after_pool_fault)
  /\ ((Scenario.after_pool_fault = Scenario.db0 0 /\ r_success internalError = false)
      \/ (exists data market0 n p,
            validateRequest Scenario.env_pool_fault Scenario.body = inr data
            /\ market (Scenario.db0 0) !! marketId data = Some market0
            /\ p <> NothingWritten
            /\ Scenario.after_pool_fault
               = written p Scenario.env_pool_fault data market0 n (Scenario.db0 0)
            /\ (r_success internalError = true ->
                  internalError
                  = confirmed (betRow Scenario.env_pool_fault data n (Scenario.db0 0))
                  /\ (p = PoolWritten \/ p = SnapshotWritten))
            /\ (r_success internalError = false -> internalError = internalError))).
Proof.
  split; [exact confirmation_with_pool_fault|].
  exact (settlement_writes_form_a_prefix Scenario.env_pool_fault Scenario.body
           (Scenario.db0 0) internalError Scenario.after_pool_fault
           confirmation_with_pool_fault).
Defined.

(** C2 fails as stated: when the pool update throws, the Bet row and its
    audit entry stay in the store while the pools are unchanged. *)
Lemma bet_row_without_pool_increment :
  bet Scenario.after_pool_fault
    = [betRow Scenario.env_pool_fault Scenario.data 0 (Scenario.db0 0)]
  /\ market Scenario.after_pool_fault = market (Scenario.db0 0)
  /\ ~ settlement_atomic_at Scenario.env_pool_fault Scenario.body (Scenario.db0 0).
Proof.
  split; [reflexivity|]. split; [reflexivity|]. intros H.
  destruct (H _ _ confirmation_with_pool_fault) as [Heq|(_ & _ & Hm & _)].
  - apply (f_equal bet) in Heq. discriminate Heq.
  - by apply Hm.
Qed.

(** *** STEP 3 *)

Lemma verifyTransaction_passes env data :
  verifyTransaction env data = None ->
  v_isValid (validateBetTransaction (PREDICTION_MARKET env) (publicClient env)
               (txHash data) (choice data) (amount data)) = true.
Proof.
  unfold verifyTransaction. cbv zeta.
  by destruct (v_isValid (validateBetTransaction _ _ _ _ _)).
Qed.

Lemma verifyTransaction_invalid env data :
  v_isValid (validateBetTransaction (PREDICTION_MARKET env) (publicClient env)
               (txHash data) (choice data) (amount data)) = false ->
  exists r, verifyTransaction env data = Some r
            /\ r_success r = false /\ r_code r = Some ERROR_CODES.TX_FAILED.
Proof. intros H. unfold verifyTransaction. rewrite H. by eexists. Qed.


(** A run of [POST] whose STEP 3 fails answers with an error and leaves the
    store as it was. *)
Lemma POST_unverified env body db data :
  validateRequest env body = inr data ->
  v_isValid (validateBetTransaction (PREDICTION_MARKET env) (publicClient env)
               (txHash data) (choice data) (amount data)) = false ->
  exists r, POST env (Some body) db = (Ok r, db) /\ r_success r = false.
Proof.
  intros Hreq Hinv. destruct (POST_cases env body db) as (r & db' & Hp & Hrun).
  destruct Hrun as [r Hr|data' mk input Hreq' Hmk Hver Hin Hrules]; [by eexists|].
  rewrite Hreq in Hreq'. simplify_eq. apply verifyTransaction_passes in Hver. congruence.
Qed.





(** C10. On a payload with the placeBet selector and length, the decoder
    returns a decode failure when the choice word is neither 0 nor 1, and
    when the amount word lies outside [MIN_BET_WEI, MAX_BET_WEI]. For a
    transaction with such an input, STEP 3 of the handler answers with the
    error code TX_FAILED, before the rule engine is evaluated, and the run
    leaves the store as it was: the bet never reaches settlement. *)
Theorem out_of_domain_bet_never_settles
    (env : Env) (body : RequestBody) (db : Store) (data : PlaceBetRequest)
    (tx : Transaction) :
  validateRequest env body = inr data ->
  getTransaction (publicClient env) (txHash data) = Ok tx ->
  placeBet_shaped (tx_input tx) ->
  (exists w, choice_word (tx_input tx) = Ok w /\ w <> 0 /\ w <> 1)
  \/ (exists a, amount_word (tx_input tx) = Ok a
                /\ (a < BET_LIMITS.MIN_BET_WEI \/ BET_LIMITS.MAX_BET_WEI < a)) ->
  decode_failure (decodePlaceBetTransaction (tx_input tx))
  /\ (exists r, verifyTransaction env data = Some r
                /\ r_success r = false /\ r_code r = Some ERROR_CODES.TX_FAILED)
  /\ exists r, POST env (Some body) db = (Ok r, db) /\ r_success r = false.
Proof.
  intros Hreq Htx Hshape Hbad.
  assert (Hfail : decode_failure (decodePlaceBetTransaction (tx_input tx))).
  { destruct Hbad as [(w & Hw & H0 & H1)|(a & Ha & Hr)].
    - rewrite (decode_rejects_choice _ w) by done. apply invalid_decode_failure.
    - by eapply decode_rejects_amount. }
  split; [done|].
  assert (Hinv : v_isValid (validateBetTransaction (PREDICTION_MARKET env) (publicClient env)
                              (txHash data) (choice data) (amount data)) = false).
  { eapply validateBetTransaction_undecodable; [done|]. by destruct Hfail. }
  split; [by apply verifyTransaction_invalid | by eapply POST_unverified].
Qed.

(** A transaction that stakes 4999999 units, one unit below the minimum. *)
Lemma out_of_domain_bet_never_settles_witness :
  let env := Scenario.env_with Scenario.payload_small 1700000000000 Scenario.no_fault in
  decode_failure (decodePlaceBetTransaction Scenario.payload_small)
  /\ (exists r, verifyTransaction env Scenario.data = Some r
                /\ r_success r = false /\ r_code r = Some ERROR_CODES.TX_FAILED)
  /\ exists r, POST env (Some Scenario.body) (Scenario.db0 0) = (Ok r, Scenario.db0 0)
               /\ r_success r = false.
Proof.
  intros env.
  refine (out_of_domain_bet_never_settles env Scenario.body (Scenario.db0 0) Scenario.data
            {| tx_input := Scenario.payload_small; tx_gas := 100000;
               tx_gasPrice := Some 1 |} _ _ _ _).
  - vm_compute. reflexivity.
  - vm_compute. reflexivity.
  - split; vm_compute; reflexivity.
  - right. exists 4999999. split; [vm_compute; reflexivity|]. left.
    unfold BET_LIMITS.MIN_BET_WEI. lia.
Defined.

End ConfirmProofs.

(** ** The live-stats stream (app/api/markets/live-stats/route.ts) *)

Section LiveProofs.
Import LiveStats.

(** What a tick emits while the stream is open and the store answers: the
    status is compared with the row read when the client connected. *)
Lemma poll_frames now fails db s cur :
  isStreamClosed s = false ->
  fails Poll_market_findUnique = false -> fails Poll_bet_count = false ->
  Db.market db !! marketId s = Some cur ->
  let poolsChanged :=
    negb (Db.m_yesPool cur =? prevYesPool s) || negb (Db.m_noPool cur =? prevNoPool s) in
  let statusDiffers := negb (String.eqb (Db.m_status cur) (Db.m_status (market s))) in
  eventType <$> (poll now fails db s).2
  = if poolsChanged || statusDiffers
    then "POOL_UPDATE" :: (if statusDiffers then ["MARKET_UPDATE"] else [])
    else ["HEARTBEAT"].
Proof.
  intros Hopen Hf1 Hf2 Hcur. unfold poll. rewrite Hopen, Hf1, Hcur, Hf2. cbv zeta.
  destruct (negb (Db.m_yesPool cur =? prevYesPool s)),
    (negb (Db.m_noPool cur =? prevNoPool s)),
    (negb (String.eqb (Db.m_status cur) (Db.m_status (market s))));
    cbn [orb]; cbv iota; try done.
  all: by destruct (calculatePoolPercentages _ _).
Qed.

(** C7 (the code departs from the claim). A client connects while the market
    is ACTIVE; the market is then closed. The first tick emits POOL_UPDATE
    and MARKET_UPDATE and records the pools it saw. At the second tick the
    market row is the one of the first tick: pools and status are unchanged
    relative to the last-seen snapshot, and the tick emits POOL_UPDATE and
    MARKET_UPDATE again instead of a single HEARTBEAT. *)
Theorem poll_repeats_updates_after_status_change :
  streams StatusChange.opened = [StatusChange.stream0]
  /\ Db.market (StatusChange.store "CLOSED") !! "m1" = Some (StatusChange.row "CLOSED")
  /\ prevYesPool StatusChange.tick1.1 = Db.m_yesPool (StatusChange.row "CLOSED")
  /\ prevNoPool StatusChange.tick1.1 = Db.m_noPool (StatusChange.row "CLOSED")
  /\ eventType <$> StatusChange.tick1.2 = ["POOL_UPDATE"; "MARKET_UPDATE"]
  /\ eventType <$> StatusChange.tick2.2 = ["POOL_UPDATE"; "MARKET_UPDATE"]
  /\ StatusChange.tick2.2 <> [HEARTBEAT 5000].
Proof. repeat split; try (vm_compute; reflexivity). vm_compute. discriminate. Qed.

(** *** One timer per connection *)

Lemma poll_timer now fails db s :
  timer_follows_connection s -> timer_follows_connection (poll now fails db s).1.
Proof.
  unfold timer_follows_connection, poll. intros H.
  repeat case_match; cbn [fst with_sent pollInterval isStreamClosed controllerClosed];
    try done.
  all: try (split; [done|]; intros [? ?]; congruence).
  all: match goal with H0 : isStreamClosed _ = _ |- _ => by rewrite H0 end.
Qed.

Lemma abort_timer s : timer_follows_connection (abort s).
Proof. unfold timer_follows_connection, abort. cbn. split; [done|]. by intros [? _]. Qed.

Lemma step_timers ev srv :
  Forall timer_follows_connection (streams srv) ->
  Forall timer_follows_connection (streams (step ev srv)).
Proof.
  intros H. destruct ev as [now cid isAddr ff db rq|now cid fails db|cid|now]; cbn [step].
  - unfold GET. repeat case_match; cbn [fst streams]; try done.
    apply Forall_app_2; [done|]. apply Forall_singleton.
    unfold timer_follows_connection. by cbn.
  - cbn [streams]. unfold on_stream. apply Forall_fmap. eapply Forall_impl; [done|].
    intros s Hs. cbn. destruct (String.eqb _ _); [|done].
    destruct (pollInterval s) eqn:Hp; [|done]. by apply poll_timer.
  - cbn [streams]. unfold on_stream. apply Forall_fmap. eapply Forall_impl; [done|].
    intros s Hs. cbn. destruct (String.eqb _ _); [|done]. apply abort_timer.
  - done.
Qed.

Lemma run_timers evs srv :
  Forall timer_follows_connection (streams srv) ->
  Forall timer_follows_connection (streams (run evs srv)).
Proof.
  revert srv. induction evs as [|ev evs IH]; intros srv H; [done|].
  cbn [run foldl]. apply IH. by apply step_timers.
Qed.

(** C9 (amended). Every streaming connection runs a change-detection loop of
    its own: after any sequence of requests, ticks, disconnections and
    clean-ups, the number of polling loops that run for a market equals the
    number of open connections that stream it, so the polling load grows
    with the number of open connections. *)
Theorem every_connection_polls_on_its_own (evs : list Event) (m : string) :
  pollingLoops m (run evs initial) = openConnections m (run evs initial).
Proof.
  pose proof (run_timers evs initial (Forall_nil_2 _)) as H.
  unfold pollingLoops, openConnections.
  induction (streams (run evs initial)) as [|s l IH]; [done|].
  apply Forall_cons_1 in H as [Hs Hl]. specialize (IH Hl).
  unfold timer_follows_connection in Hs.
  destruct (decide (marketId s = m /\ pollInterval s = true)) as [[Hm Hp]|Hno].
  - rewrite filter_cons_True by done.
    rewrite filter_cons_True by (split; [done|by apply Hs]). cbn. by rewrite IH.
  - rewrite filter_cons_False by done.
    rewrite filter_cons_False; [done|]. intros [Hm Hop]. apply Hno. split; [done|].
    by apply Hs.
Qed.

(** C9 fails as stated: two clients of the market m1 make two polling loops. *)
Lemma two_subscribers_two_loops :
  openConnections "m1" StatusChange.two_subscribers = 2%nat
  /\ pollingLoops "m1" StatusChange.two_subscribers = 2%nat
  /\ ~ one_loop_per_market StatusChange.two_subscribers.
Proof.
  assert (H1 : openConnections "m1" StatusChange.two_subscribers = 2%nat)
    by (vm_compute; reflexivity).
  assert (H2 : pollingLoops "m1" StatusChange.two_subscribers = 2%nat)
    by (vm_compute; reflexivity).
  repeat split; try done. intros H. specialize (H "m1"). rewrite H1, H2 in H.
  specialize (H ltac:(lia)). discriminate.
Qed.

End LiveProofs.
(* ======================================================================= *)
(** * Further properties of the code                                         *)
(* ======================================================================= *)

(** ** The utility validators (lib/validation/bet-rules.ts) *)

Section UtilityProofs.
Import BetRules BetRulesUtil.

Lemma ceil_div_pos k : 0 < k -> 0 < ceil_div k 1000.
Proof. intros Hk. unfold ceil_div. Z.div_mod_to_equations. lia. Qed.

Lemma ceil_div_bounds k : 1000 * (ceil_div k 1000 - 1) < k <= 1000 * ceil_div k 1000.
Proof. unfold ceil_div. Z.div_mod_to_equations. lia. Qed.

(** The cooldown validator passes exactly when the time elapsed since a
    last bet, if any, has reached the cooldown. *)
Lemma validateCooldown_nil last t :
  validateCooldown last t = []
  <-> forall l, last = Some l -> l <> 0 ->
      ANTI_MANIPULATION.COOLDOWN_SECONDS * 1000 <= t - l.
Proof.
  unfold validateCooldown. destruct last as [l|]; [|by split].
  destruct (Z.eqb_spec l 0) as [->|Hl].
  { split; [|done]. intros _ l' [= <-] Hl'. done. }
  cbv zeta. destruct (Z.ltb_spec (t - l) (ANTI_MANIPULATION.COOLDOWN_SECONDS * 1000)).
  - split; [done|]. intros H0. specialize (H0 l eq_refl Hl). lia.
  - split; [|done]. intros _ l' [= <-] _. done.
Qed.

(** The remaining cooldown, when a last bet exists. *)
Lemma getCooldownRemaining_eq l t :
  l <> 0 ->
  getCooldownRemaining (Some l) t
  = if ANTI_MANIPULATION.COOLDOWN_SECONDS * 1000 <=? t - l then 0
    else ceil_div (ANTI_MANIPULATION.COOLDOWN_SECONDS * 1000 - (t - l)) 1000.
Proof.
  intros Hl. unfold getCooldownRemaining. rewrite (proj2 (Z.eqb_neq l 0) Hl). cbv zeta.
  destruct (Z.geb_spec (t - l) (ANTI_MANIPULATION.COOLDOWN_SECONDS * 1000));
    destruct (Z.leb_spec (ANTI_MANIPULATION.COOLDOWN_SECONDS * 1000) (t - l)); try done; lia.
Qed.

(** X1. The countdown that [getCooldownRemaining] gives the bet form is zero
    exactly when [validateCooldown] lets the bet through. *)
Theorem getCooldownRemaining_zero_iff_cooldown_passes (last : option Z) (t : Z) :
  getCooldownRemaining last t = 0 <-> validateCooldown last t = [].
Proof.
  rewrite validateCooldown_nil. destruct last as [l|]; [|by split].
  destruct (Z.eq_dec l 0) as [->|Hl].
  { split; [|done]. intros _ l' [= <-] Hl'. done. }
  rewrite getCooldownRemaining_eq by done.
  destruct (Z.leb_spec (ANTI_MANIPULATION.COOLDOWN_SECONDS * 1000) (t - l)) as [Hle|Hlt].
  - split; [|done]. intros _ l' [= <-] _. done.
  - split.
    + intros H0. pose proof (ceil_div_pos (ANTI_MANIPULATION.COOLDOWN_SECONDS * 1000 - (t - l))).
      lia.
    + intros H0. specialize (H0 l eq_refl Hl). lia.
Qed.

(** X2. The countdown is the least whole number of seconds to wait: after that
    many seconds the cooldown validator passes, and one second earlier it
    does not. *)
Theorem getCooldownRemaining_is_least_wait (last : option Z) (t : Z) :
  validateCooldown last (t + 1000 * getCooldownRemaining last t) = []
  /\ (0 < getCooldownRemaining last t ->
      validateCooldown last (t + 1000 * (getCooldownRemaining last t - 1)) <> []).
Proof.
  rewrite !validateCooldown_nil. destruct last as [l|].
  2:{ split; [done|]. cbn. lia. }
  destruct (Z.eq_dec l 0) as [->|Hl].
  { split; [by intros l' [= <-]|]. cbn. lia. }
  rewrite getCooldownRemaining_eq by done.
  destruct (Z.leb_spec (ANTI_MANIPULATION.COOLDOWN_SECONDS * 1000) (t - l)) as [Hle|Hlt].
  - split; [|lia]. intros l' [= <-] _. lia.
  - pose proof (ceil_div_bounds (ANTI_MANIPULATION.COOLDOWN_SECONDS * 1000 - (t - l))) as Hb.
    split.
    + intros l' [= <-] _. lia.
    + intros _ H0. specialize (H0 l eq_refl Hl). lia.
Qed.

(** X3. The number of bets left that the bet form shows is positive exactly
    when the bet-count validator passes, and it is never negative. *)
Theorem getRemainigBetsAllowed_positive_iff_count_passes (currentBetCount : Z) :
  0 <= getRemainigBetsAllowed currentBetCount
  /\ (0 < getRemainigBetsAllowed currentBetCount <-> validateBetCount currentBetCount = []).
Proof.
  unfold getRemainigBetsAllowed, validateBetCount.
  destruct (Z.geb_spec currentBetCount ANTI_MANIPULATION.MAX_BETS_PER_WALLET);
    (split; [lia|]); split; try done; lia.
Qed.




Lemma validateBetAmount_nil a :
  validateBetAmount a = []
  <-> isInteger a = true /\ Qle (inject_Z BET_LIMITS.MIN_BET) a
      /\ Qle a (inject_Z BET_LIMITS.MAX_BET).
Proof.
  unfold validateBetAmount.
  change (inject_Z BET_LIMITS.MIN_BET) with (5 # 1)%Q.
  change (inject_Z BET_LIMITS.MAX_BET) with (5000 # 1)%Q.
  destruct (Qle_bool a 0) eqn:H0.
  { apply Qle_bool_iff in H0. split; [done|]. intros (_ & Hmin & _). lra. }
  destruct (isInteger a); cbn [negb]; cbv iota.
  2:{ split; [done|]. by intros (? & _). }
  destruct (Qlt_bool a _) eqn:Hlo; destruct (Qlt_bool _ a) eqn:Hhi;
    rewrite ?Qlt_bool_iff, ?Qlt_bool_false in *; cbn [app]; split; try done.
  all: intros (_ & Hmin & Hmax); lra.
Qed.



(** X6. A bet that the client-side validation accepts, by a wallet that is not
    flagged on an ACTIVE market, is not one that [wouldBetBeRejected]
    announces as rejected. *)
Theorem client_valid_bet_would_not_be_rejected
    (a : Q) (cooldownRemaining betCount : Z) (percent : Q)
    (isFlagged : bool) (marketStatus : string) :
  c_isValid (validateBetClientSide a cooldownRemaining betCount percent) = true ->
  isFlagged = false ->
  marketStatus = "ACTIVE" ->
  wouldBetBeRejected a cooldownRemaining betCount isFlagged marketStatus = false.
Proof.
  intros Hv -> ->. unfold validateBetClientSide in Hv. cbn [c_isValid] in Hv.
  apply Nat.eqb_eq, nil_length_inv in Hv.
  apply app_eq_nil in Hv as (Ha & (Hcd & (Hbc & _)%app_eq_nil)%app_eq_nil).
  apply validateBetAmount_nil in Ha as (_ & Hmin & Hmax).
  unfold wouldBetBeRejected.
  rewrite (proj2 (Qlt_bool_false _ _) Hmin), (proj2 (Qlt_bool_false _ _) Hmax).
  destruct (cooldownRemaining >? 0); [done|].
  destruct (betCount >=? ANTI_MANIPULATION.MAX_BETS_PER_WALLET); [done|].
  reflexivity.
Qed.

Lemma client_valid_bet_would_not_be_rejected_witness :
  c_isValid (validateBetClientSide 5 0 0 0) = true
  /\ false = false
  /\ "ACTIVE" = "ACTIVE"
  /\ wouldBetBeRejected 5 0 0 false "ACTIVE" = false.
Proof.
  split; [reflexivity|]. split; [reflexivity|]. split; [reflexivity|].
  apply (client_valid_bet_would_not_be_rejected 5 0 0 0 false "ACTIVE");
    reflexivity.
Defined.

End UtilityProofs.

(** ** The two rule evaluations of the confirmation handler *)

Section ContractRulesProofs.
Import BetRules.

Lemma filter_length_mono {A} (P Q : A -> Prop)
    `{!forall x, Decision (P x)} `{!forall x, Decision (Q x)} (l : list A) :
  (forall x, P x -> Q x) -> (length (filter P l) <= length (filter Q l))%nat.
Proof.
  intros HPQ. induction l as [|x l IH]; [done|].
  destruct (decide (P x)) as [HP|HP].
  - rewrite (filter_cons_True P) by done. rewrite (filter_cons_True Q) by auto.
    cbn. lia.
  - rewrite (filter_cons_False P) by done.
    destruct (decide (Q x)).
    + rewrite (filter_cons_True Q) by done. cbn. lia.
    + by rewrite (filter_cons_False Q).
Qed.

(** The cooldown validator and the velocity validator stay satisfied as
    time passes. *)
Lemma validateCooldown_later last t t' :
  t <= t' -> validateCooldown last t = [] -> validateCooldown last t' = [].
Proof.
  intros Ht. rewrite !validateCooldown_nil. intros H l Hl Hl0.
  specialize (H l Hl Hl0). lia.
Qed.

Lemma validateBetVelocity_later ts t t' :
  t <= t' -> validateBetVelocity ts t = [] -> validateBetVelocity ts t' = [].
Proof.
  intros Ht. unfold validateBetVelocity. cbv zeta.
  assert (Hlen : (length (filter (fun x => (t' - 3600 * 1000 <= x)%Z) ts)
                  <= length (filter (fun x => (t - 3600 * 1000 <= x)%Z) ts))%nat).
  { apply filter_length_mono. intros x. lia. }
  repeat match goal with |- context [?x >=? ?y] => destruct (Z.geb_spec x y) end;
    try done; lia.
Qed.

(** The second stage of [validateBetComprehensive] runs when the result is
    valid, and every validator of both stages then returns no entry. *)
Lemma validateBetComprehensive_valid i t :
  isValid (validateBetComprehensive i t) = true ->
  first_stage_errors i t = [] /\ second_stage_errors i t = [].
Proof.
  intros Hv. unfold validateBetComprehensive in Hv. cbn [isValid] in Hv.
  apply Nat.eqb_eq, nil_length_inv in Hv.
  fold (first_stage_errors i t) in Hv. unfold first_stage_errors, validator in *.
  apply app_eq_nil in Hv as [H1 H2]. rewrite H1 in H2. cbn [length Nat.eqb] in H2.
  done.
Qed.

(** X7. An input that [validateBetComprehensive] accepts is accepted by
    [validateBetForContract] at the same instant and at any later one. *)
Theorem validateBetForContract_accepts_what_comprehensive_accepts
    (i : BetInput) (t t' : Z) :
  t <= t' ->
  isValid (validateBetComprehensive i t) = true ->
  isValid (validateBetForContract i t') = true.
Proof.
  intros Ht Hv. apply validateBetComprehensive_valid in Hv as [H1 H2].
  unfold first_stage_errors, second_stage_errors, validator in *.
  apply app_eq_nil in H1 as (_ & (Hc & (Ha & (_ & Hf)%app_eq_nil)%app_eq_nil)%app_eq_nil).
  apply app_eq_nil in H2 as (Hcd & (Hbc & (Hpc & Hvel)%app_eq_nil)%app_eq_nil).
  unfold validateBetForContract. cbn [isValid].
  rewrite Ha, Hc, (validateCooldown_later _ _ _ Ht Hcd), Hbc, Hpc,
    (validateBetVelocity_later _ _ _ Ht Hvel), Hf.
  reflexivity.
Qed.

Lemma validateBetForContract_accepts_what_comprehensive_accepts_witness :
  1700000000000 <= 1700000000001
  /\ isValid (validateBetComprehensive
                {| walletAddress := "0x2222222222222222222222222222222222222222";
                   choice := "YES"; amount := 5; lastBetTimestamp := None;
                   currentBetCount := 0; walletTotalBets := 0;
                   recentBetTimestamps := []; totalYesPool := 0; totalNoPool := 0;
                   marketStatus := "ACTIVE"; marketEndTime := 2000000000;
                   isFlagged := false |} 1700000000000) = true
  /\ isValid (validateBetForContract
                {| walletAddress := "0x2222222222222222222222222222222222222222";
                   choice := "YES"; amount := 5; lastBetTimestamp := None;
                   currentBetCount := 0; walletTotalBets := 0;
                   recentBetTimestamps := []; totalYesPool := 0; totalNoPool := 0;
                   marketStatus := "ACTIVE"; marketEndTime := 2000000000;
                   isFlagged := false |} 1700000000001) = true.
Proof.
  split; [lia|]. split; [vm_compute; reflexivity|].
  apply (validateBetForContract_accepts_what_comprehensive_accepts _ 1700000000000);
    [lia|vm_compute; reflexivity].
Defined.



End ContractRulesProofs.

Section StepSevenProofs.
Import TxValidator Db BetRules ConfirmRoute.

(** X9. STEP 7 of the confirmation handler never answers: the response of the
    two rule evaluations is decided by [validateBetComprehensive] alone,
    and the re-validation by [validateBetForContract] that follows it
    always passes. *)
Theorem checkBetRules_decided_by_comprehensive (env : Env) (input : BetInput) :
  checkBetRules env input
  = if isValid (validateBetComprehensive input (now env)) then None
    else Some (errorResponse
                 (formatValidationErrors
                    (message <$> errors (validateBetComprehensive input (now env))))
                 (code <$> head (errors (validateBetComprehensive input (now env))))
                 400).
Proof.
  unfold checkBetRules. cbv zeta.
  destruct (isValid (validateBetComprehensive input (now env))) eqn:Hv; [|done].
  cbn [negb]. cbv iota.
  apply validateBetComprehensive_valid in Hv as [H1 H2].
  unfold first_stage_errors, second_stage_errors, validator in *.
  apply app_eq_nil in H1 as (_ & (Hc & (Ha & (_ & Hf)%app_eq_nil)%app_eq_nil)%app_eq_nil).
  apply app_eq_nil in H2 as (Hcd & (Hbc & (Hpc & Hvel)%app_eq_nil)%app_eq_nil).
  unfold validateBetForContract. cbn [isValid BetRules.errors].
  by rewrite Ha, Hc, Hcd, Hbc, Hpc, Hvel, Hf.
Qed.

End StepSevenProofs.

(** ** The payout estimate (hooks/useBetValidation.ts) *)

Section PayoutProofs.
Import BetCalc.



End PayoutProofs.

(** ** The status helpers (lib/blockchain) *)

Section StatusProofs.
Import TxValidator TxStatusHelpers.

(** A valid on-chain validation comes from a receipt. *)
Lemma validateTransactionOnChain_valid_inv contract pc h :
  oc_isValid (validateTransactionOnChain contract pc h) = true ->
  exists rc,
    getTransactionReceipt pc h = Ok (Some rc)
    /\ oc_receipt (validateTransactionOnChain contract pc h) = Some rc
    /\ oc_status (validateTransactionOnChain contract pc h) = success.
Proof.
  unfold validateTransactionOnChain.
  destruct (getTransactionReceipt pc h) as [[rc|]|]; [|by destruct (getTransaction pc h)|done].
  intros H. exists rc. split; [done|]. revert H. by repeat case_match.
Qed.

(** The details of a mined transaction are read together with the current
    block number. *)
Lemma getTransactionDetails_mined pc h rc td :
  getTransactionReceipt pc h = Ok (Some rc) ->
  getTransactionDetails pc h = Some td ->
  exists currentBlock, getBlockNumber pc = Ok currentBlock.
Proof.
  unfold getTransactionDetails. intros ->.
  destruct (getTransaction pc h); [|done].
  destruct (getBlockNumber pc); [by eexists|done].
Qed.

(** X11. A transaction that passes the full validation passes the quick
    validation, which reports the number of blocks mined since its own. *)
Theorem quickValidateTransaction_passes_when_full_validation_passes
    (contract : string) (pc : PublicClient) (h : string)
    (userChoice : BetChoice) (userAmount : Q) :
  v_isValid (validateBetTransaction contract pc h userChoice userAmount) = true ->
  exists rc currentBlock,
    getTransactionReceipt pc h = Ok (Some rc)
    /\ getBlockNumber pc = Ok currentBlock
    /\ quickValidateTransaction contract pc h
       = {| qv_isValid := true; qv_status := success;
            qv_confirmations := Some (currentBlock - rc_blockNumber rc);
            qv_error := None |}.
Proof.
  intros Hv. unfold validateBetTransaction in Hv.
  destruct (oc_isValid (validateTransactionOnChain contract pc h)) eqn:Hoc;
    cbn [negb] in Hv; cbv iota in Hv; [|done].
  destruct (validateTransactionOnChain_valid_inv _ _ _ Hoc) as (rc & Hrc & Hor & _).
  destruct (getTransactionDetails pc h) as [td|] eqn:Htd; [|done].
  destruct (getTransactionDetails_mined _ _ _ _ Hrc Htd) as [cb Hcb].
  exists rc, cb. split; [done|]. split; [done|].
  unfold quickValidateTransaction. cbv zeta. by rewrite Hoc, Hor, Hcb.
Qed.

Lemma quickValidateTransaction_passes_when_full_validation_passes_witness :
  v_isValid (validateBetTransaction Scenario.contract (Scenario.ledger_with Scenario.payload)
               Scenario.tx1 YES 5) = true
  /\ exists rc currentBlock,
       getTransactionReceipt (Scenario.ledger_with Scenario.payload) Scenario.tx1
       = Ok (Some rc)
       /\ getBlockNumber (Scenario.ledger_with Scenario.payload) = Ok currentBlock
       /\ quickValidateTransaction Scenario.contract
            (Scenario.ledger_with Scenario.payload) Scenario.tx1
          = {| qv_isValid := true; qv_status := success;
               qv_confirmations := Some (currentBlock - rc_blockNumber rc);
               qv_error := None |}.
Proof.
  split; [vm_compute; reflexivity|].
  apply (quickValidateTransaction_passes_when_full_validation_passes
           Scenario.contract (Scenario.ledger_with Scenario.payload) Scenario.tx1 YES 5).
  vm_compute. reflexivity.
Defined.

(** X12. [getTransactionStatus] and [validateTransactionOnChain] report the same
    status, except for a transaction without a receipt that the node does
    not know: the first reports it as pending, the second as not found. *)
Theorem getTransactionStatus_agrees_with_validateTransactionOnChain
    (contract : string) (pc : PublicClient) (h : string) :
  getTransactionStatus pc h = oc_status (validateTransactionOnChain contract pc h)
  \/ (getTransactionReceipt pc h = Ok None
      /\ (exists m, getTransaction pc h = Throw m)
      /\ getTransactionStatus pc h = pending
      /\ oc_status (validateTransactionOnChain contract pc h) = not_found).
Proof.
  unfold getTransactionStatus, validateTransactionOnChain.
  destruct (getTransactionReceipt pc h) as [[rc|]|]; [| |by left].
  - left. destruct (String.eqb (rc_status rc) "success"); cbn [negb]; cbv iota; [|done].
    by case_match.
  - destruct (getTransaction pc h) as [tx|m]; [by left|]. right. by eauto.
Qed.

End StatusProofs.

(** ** The pool and concentration helpers (lib/db/client.ts) *)

Section DbClientProofs.
Import Db DbClient.

Lemma market_findUnique_eq fails site mid db :
  market_findUnique fails site mid db
  = if fails site then (Throw "store error", db) else (Ok (market db !! mid), db).
Proof. unfold market_findUnique, guarded. by destruct (fails site). Qed.

Lemma getMarketPoolInfo_eq fails site mid db :
  getMarketPoolInfo fails site mid db
  = (Ok (if fails site then None
         else
           (fun market =>
              let totalPool := m_yesPool market + m_noPool market in
              {| pi_marketId := m_marketId market; pi_yesPool := m_yesPool market;
                 pi_noPool := m_noPool market; pi_totalPool := totalPool;
                 pi_yesPercent :=
                   if totalPool >? 0 then Z.quot (m_yesPool market * 100) totalPool else 0;
                 pi_noPercent :=
                   if totalPool >? 0 then Z.quot (m_noPool market * 100) totalPool else 0 |})
           <$> market db !! mid), db).
Proof.
  unfold getMarketPoolInfo, try_catch. rewrite bind_eq, market_findUnique_eq.
  destruct (fails site); [done|]. by destruct (market db !! mid).
Qed.

(** X13. The two whole percentages that [getMarketPoolInfo] reports for a pool
    that is not empty add up to 99 or 100: the truncating division loses
    at most one point. For an empty pool both are zero. *)
Theorem getMarketPoolInfo_percentages_add_up
    (fails : CallSite -> bool) (site : CallSite) (marketId : string) (db : Store)
    (info : MarketPoolInfo) :
  (getMarketPoolInfo fails site marketId db).1 = Ok (Some info) ->
  0 <= pi_yesPool info -> 0 <= pi_noPool info ->
  pi_totalPool info = pi_yesPool info + pi_noPool info
  /\ (0 < pi_totalPool info -> 99 <= pi_yesPercent info + pi_noPercent info <= 100)
  /\ (pi_totalPool info = 0 -> pi_yesPercent info = 0 /\ pi_noPercent info = 0).
Proof.
  rewrite getMarketPoolInfo_eq. cbn [fst]. intros H Hy Hn.
  destruct (fails site); [done|].
  destruct (market db !! marketId) as [mk|]; [|done].
  cbn in H. injection H as <-. cbn [pi_yesPool pi_noPool pi_totalPool pi_yesPercent
                                      pi_noPercent] in *.
  split; [done|]. split.
  - intros Hpos. rewrite (proj2 (Z.gtb_gt _ 0)) by lia.
    rewrite !Z.quot_div_nonneg by lia.
    Z.div_mod_to_equations. nia.
  - intros H0. by rewrite H0.
Qed.

Lemma getMarketPoolInfo_percentages_add_up_witness :
  (getMarketPoolInfo Scenario.no_fault Step2_getMarketById "m1" (Scenario.db0 1000000)).1
  = Ok (Some {| pi_marketId := "m1"; pi_yesPool := 1000000; pi_noPool := 0;
                pi_totalPool := 1000000; pi_yesPercent := 100; pi_noPercent := 0 |})
  /\ 0 <= 1000000 /\ 0 <= 0
  /\ 1000000 = 1000000 + 0
  /\ (0 < 1000000 -> 99 <= 100 + 0 <= 100)
  /\ (1000000 = 0 -> 100 = 0 /\ 0 = 0).
Proof.
  split; [vm_compute; reflexivity|]. split; [lia|]. split; [lia|].
  apply (getMarketPoolInfo_percentages_add_up Scenario.no_fault Step2_getMarketById "m1"
           (Scenario.db0 1000000)
           {| pi_marketId := "m1"; pi_yesPool := 1000000; pi_noPool := 0;
              pi_totalPool := 1000000; pi_yesPercent := 100; pi_noPercent := 0 |});
    [vm_compute; reflexivity|cbn; lia|cbn; lia].
Defined.

Lemma getUserTotalBetAmount_eq fails site w mid db :
  exists total, getUserTotalBetAmount fails site w mid db = (Ok total, db).
Proof.
  unfold getUserTotalBetAmount, try_catch, bet_sum_amount, guarded, mbind, Task_bind.
  destruct (fails site); by eexists.
Qed.

(** X14. [getWalletConcentration] marks a wallet as over the cap exactly when
    its total is at least 11 percent of a pool that is not empty: the
    whole-number percentage is cut off before it is compared with 10. *)
Theorem getWalletConcentration_over_cap_from_eleven_percent
    (fails : CallSite -> bool) (site site_sum : CallSite)
    (walletAddress marketId : string) (db : Store) (c : WalletConcentration) :
  (getWalletConcentration fails site site_sum walletAddress marketId db).1 = Ok (Some c) ->
  (wc_isOverCap c = true
   <-> 0 < wc_totalPool c /\ 11 * wc_totalPool c <= 100 * wc_walletTotal c).
Proof.
  unfold getWalletConcentration, try_catch. rewrite bind_eq, market_findUnique_eq.
  destruct (fails site); [done|].
  destruct (market db !! marketId) as [mk|]; [|done].
  rewrite bind_eq.
  destruct (getUserTotalBetAmount_eq fails site_sum walletAddress marketId db) as [wt ->].
  cbn. intros [= <-]. cbn [wc_isOverCap wc_totalPool wc_walletTotal].
  destruct (Z.gtb_spec (m_yesPool mk + m_noPool mk) 0) as [Hpos|Hle].
  - rewrite Z.gtb_gt. split.
    + intros Hq. split; [lia|]. Z.quot_rem_to_equations. nia.
    + intros [_ Hq]. Z.quot_rem_to_equations. nia.
  - split; [done|]. lia.
Qed.

Lemma getWalletConcentration_over_cap_from_eleven_percent_witness :
  (getWalletConcentration Scenario.no_fault Step2_getMarketById Step4_getUserTotalBetAmount
     Scenario.wallet "m1" Scenario.after_first).1
  = Ok (Some {| wc_walletTotal := 5000000; wc_totalPool := 1005000000;
                wc_concentrationPercent := 0; wc_isOverCap := false |})
  /\ (false = true <-> 0 < 1005000000 /\ 11 * 1005000000 <= 100 * 5000000).
Proof.
  split; [vm_compute; reflexivity|].
  apply (getWalletConcentration_over_cap_from_eleven_percent Scenario.no_fault
           Step2_getMarketById Step4_getUserTotalBetAmount Scenario.wallet "m1"
           Scenario.after_first
           {| wc_walletTotal := 5000000; wc_totalPool := 1005000000;
              wc_concentrationPercent := 0; wc_isOverCap := false |}).
  vm_compute. reflexivity.
Defined.

End DbClientProofs.

(** ** The reads of the confirmation handler (app/api/bets/confirm/route.ts) *)

Section GatherProofs.
Import TxValidator Db BetRules ConfirmRoute.

Lemma getUserBetCount_eq fails site w mid db :
  getUserBetCount fails site w mid db
  = (Ok (if fails site then 0 else Z.of_nat (length (bets_of w mid db))), db).
Proof.
  unfold getUserBetCount, try_catch, bet_count_wallet, guarded.
  by destruct (fails site).
Qed.

Lemma getUserTotalBetAmount_failed fails site w mid db :
  fails site = true -> getUserTotalBetAmount fails site w mid db = (Ok 0, db).
Proof.
  intros H. unfold getUserTotalBetAmount, try_catch, bet_sum_amount, guarded.
  by rewrite bind_eq, H.
Qed.

Lemma flaggedWallet_lookup_eq fails site w db :
  try_catch (flaggedWallet_findUnique fails site w) (fun _ => mret None) db
  = (Ok (if fails site then None else flaggedWallet db !! w), db).
Proof.
  unfold try_catch, flaggedWallet_findUnique, guarded. by destruct (fails site).
Qed.

(** X15. The reads of STEPS 4 and 5 fail open. When the two queries of STEP 6
    answer, the handler gets the argument of the rule engine whatever the
    other queries do: a bet count that could not be read counts as 0, a
    wallet total that could not be read as 0, and a wallet whose flag
    could not be read as not flagged. *)
Theorem gatherBetInput_fails_open
    (env : Env) (data : PlaceBetRequest) (market : Market) (db : Store) :
  fails env Step6_bet_findMany_last = false ->
  fails env Step6_bet_findMany_recent = false ->
  exists input,
    gatherBetInput env data market db = (Ok input, db)
    /\ (fails env Step4_getUserBetCount = true -> currentBetCount input = 0)
    /\ (fails env Step4_getUserTotalBetAmount = true -> Qeq (walletTotalBets input) 0)
    /\ (fails env Step5_flaggedWallet_findUnique = true -> isFlagged input = false).
Proof.
  intros H6 H6'. unfold gatherBetInput. cbv zeta.
  rewrite bind_eq, getUserBetCount_eq.
  destruct (getUserTotalBetAmount_eq (fails env) Step4_getUserTotalBetAmount
              (walletAddress data) (marketId data) db) as [total Htotal].
  rewrite bind_eq, Htotal, bind_eq, flaggedWallet_lookup_eq.
  rewrite bind_eq. unfold bet_findMany_last, guarded. rewrite H6. rewrite bind_eq.
  cbn [get]. cbv beta iota.
  unfold mret at 1. unfold Task_ret at 1.
  rewrite bind_eq. unfold bet_findMany_recent, guarded. rewrite H6'. rewrite bind_eq.
  cbn [get]. cbv beta iota. unfold mret at 1. unfold Task_ret at 1.
  eexists. split; [reflexivity|].
  cbn [currentBetCount walletTotalBets isFlagged]. split; [|split].
  - by intros ->.
  - intros Hf. rewrite (getUserTotalBetAmount_failed _ _ _ _ _ Hf) in Htotal.
    by injection Htotal as <-.
  - by intros ->.
Qed.

Lemma gatherBetInput_fails_open_witness :
  fails (Scenario.env_at 1700000000000 (fun site =>
           bool_decide (site = Step5_flaggedWallet_findUnique)))
    Step6_bet_findMany_last = false
  /\ fails (Scenario.env_at 1700000000000 (fun site =>
              bool_decide (site = Step5_flaggedWallet_findUnique)))
       Step6_bet_findMany_recent = false
  /\ exists input,
       gatherBetInput
         (Scenario.env_at 1700000000000 (fun site =>
            bool_decide (site = Step5_flaggedWallet_findUnique)))
         Scenario.data (Scenario.market0 0) (Scenario.db0 0) = (Ok input, Scenario.db0 0)
       /\ (fails (Scenario.env_at 1700000000000 (fun site =>
                    bool_decide (site = Step5_flaggedWallet_findUnique)))
             Step4_getUserBetCount = true -> currentBetCount input = 0)
       /\ (fails (Scenario.env_at 1700000000000 (fun site =>
                    bool_decide (site = Step5_flaggedWallet_findUnique)))
             Step4_getUserTotalBetAmount = true -> Qeq (walletTotalBets input) 0)
       /\ (fails (Scenario.env_at 1700000000000 (fun site =>
                    bool_decide (site = Step5_flaggedWallet_findUnique)))
             Step5_flaggedWallet_findUnique = true -> isFlagged input = false).
Proof.
  split; [reflexivity|]. split; [reflexivity|].
  apply (gatherBetInput_fails_open
           (Scenario.env_at 1700000000000 (fun site =>
              bool_decide (site = Step5_flaggedWallet_findUnique)))
           Scenario.data (Scenario.market0 0) (Scenario.db0 0)); reflexivity.
Defined.

End GatherProofs.

(** ** The live-stats stream: percentages, timers and the registry *)

Section LiveStatsMoreProofs.
Import LiveStats.

(** X16. The two percentages of a POOL_UPDATE frame, each cut off after two
    decimals, add up to at least 99.99 and at most 100 when the pools are
    not negative and not both empty; neither is negative. *)
Theorem calculatePoolPercentages_add_up (yesPool noPool : Z) :
  0 <= yesPool -> 0 <= noPool -> 0 < yesPool + noPool ->
  Qle (9999 # 100) ((calculatePoolPercentages yesPool noPool).1
                    + (calculatePoolPercentages yesPool noPool).2)
  /\ Qle ((calculatePoolPercentages yesPool noPool).1
          + (calculatePoolPercentages yesPool noPool).2) (inject_Z 100)
  /\ Qle 0 (calculatePoolPercentages yesPool noPool).1
  /\ Qle 0 (calculatePoolPercentages yesPool noPool).2.
Proof.
  intros Hy Hn Hpos. unfold calculatePoolPercentages. cbv zeta.
  rewrite (proj2 (Z.eqb_neq _ 0)) by lia. cbn [fst snd].
  rewrite !Z.quot_div_nonneg by lia.
  set (a := yesPool * 10000 / (yesPool + noPool)).
  set (b := noPool * 10000 / (yesPool + noPool)).
  assert (Ha : 0 <= a) by (subst a; apply Z.div_pos; lia).
  assert (Hb : 0 <= b) by (subst b; apply Z.div_pos; lia).
  assert (Hab : 9999 <= a + b <= 10000).
  { subst a b. Z.div_mod_to_equations. nia. }
  unfold Qdiv. change (/ inject_Z 100)%Q with (1 # 100)%Q.
  change (inject_Z 100) with (100 # 1)%Q.
  destruct Hab as [H1 H2]. rewrite Zle_Qle in Ha, Hb, H1, H2.
  rewrite inject_Z_plus in H1, H2.
  change (inject_Z 0) with (0 # 1)%Q in *. change (inject_Z 9999) with (9999 # 1)%Q in *.
  change (inject_Z 10000) with (10000 # 1)%Q in *.
  repeat split; lra.
Qed.

Lemma calculatePoolPercentages_add_up_witness :
  0 <= 1 /\ 0 <= 2 /\ 0 < 1 + 2
  /\ Qle (9999 # 100) ((calculatePoolPercentages 1 2).1 + (calculatePoolPercentages 1 2).2)
  /\ Qle ((calculatePoolPercentages 1 2).1 + (calculatePoolPercentages 1 2).2) (inject_Z 100)
  /\ Qle 0 (calculatePoolPercentages 1 2).1
  /\ Qle 0 (calculatePoolPercentages 1 2).2.
Proof.
  split; [lia|]. split; [lia|]. split; [lia|].
  apply (calculatePoolPercentages_add_up 1 2); lia.
Defined.

(** *** A cleared timer *)





(** *** The registry *)

Lemma step_registered ev srv :
  registered_connections_are_open srv -> registered_connections_are_open (step ev srv).
Proof.
  unfold registered_connections_are_open. intros Inv cid Hreg.
  destruct ev as [now cid' isAddr ff db rq|now cid' fails db|cid'|now]; cbn [step] in *.
  - unfold GET in *. destruct (validateRequest isAddr rq) as [e|[mid w]]; [by apply Inv|].
    destruct ff.
    { cbn [fst activeConnections streams] in *. apply Inv.
      unfold unregisterConnection in Hreg. apply lookup_delete_is_Some in Hreg. tauto. }
    destruct (Db.market db !! mid) as [mk|]; [|by apply Inv].
    cbn [fst activeConnections streams] in *. unfold registerConnection in Hreg.
    destruct (decide (cid = cid')) as [->|Hne].
    + eexists. split; [apply elem_of_app; right; apply list_elem_of_singleton; reflexivity|].
      done.
    + rewrite lookup_insert_ne in Hreg by done.
      destruct (Inv cid Hreg) as (s & Hs & Hc & Ho). exists s. split; [|done].
      apply elem_of_app. by left.
  - cbn [activeConnections streams] in *.
    assert (Hreg' : is_Some (activeConnections srv !! cid)).
    { destruct (bool_decide _); [|done]. unfold updateHeartbeat in Hreg.
      destruct (activeConnections srv !! cid') as [c|] eqn:Hc'; [|done].
      destruct (decide (cid = cid')) as [->|Hne]; [by rewrite Hc'|].
      by rewrite lookup_insert_ne in Hreg. }
    destruct (Inv cid Hreg') as (s & Hs & Hc & Ho).
    exists (if String.eqb (connId s) cid'
            then (if pollInterval s then (poll now fails db s).1 else s) else s).
    split.
    { unfold on_stream. apply list_elem_of_fmap. by exists s. }
    destruct (String.eqb _ _); [|done]. destruct (pollInterval s); [|done].
    unfold poll. repeat case_match; cbn [fst with_sent connId isStreamClosed]; done.
  - cbn [activeConnections streams] in *.
    destruct (decide (cid = cid')) as [->|Hne].
    + exfalso. destruct (bool_decide (Exists _ _)) eqn:Hex.
      * unfold unregisterConnection in Hreg. rewrite lookup_delete_eq in Hreg.
        by destruct Hreg.
      * apply bool_decide_eq_false in Hex. apply Hex.
        destruct (Inv cid' Hreg) as (s & Hs & Hc & _).
        apply Exists_exists. by exists s.
    + assert (Hreg' : is_Some (activeConnections srv !! cid)).
      { destruct (bool_decide _); [|done]. unfold unregisterConnection in Hreg.
        by rewrite lookup_delete_ne in Hreg. }
      destruct (Inv cid Hreg') as (s & Hs & Hc & Ho). exists s. split; [|done].
      unfold on_stream. apply list_elem_of_fmap. exists s. split; [|done].
      destruct (String.eqb_spec (connId s) cid'); [congruence|done].
  - cbn [activeConnections streams] in *. apply Inv. unfold cleanupStale in Hreg.
    destruct Hreg as [c Hc]. apply map_lookup_filter_Some in Hc as [Hc _]. by exists c.
Qed.

(** X18. The registry holds only connections whose streaming response was
    handed out and whose client has not disconnected: after any sequence
    of requests, ticks, disconnections and clean-ups, every registered
    connection identifier is that of a stream that was not aborted. *)
Theorem registry_holds_open_connections_only (evs : list Event) (connId' : string) :
  is_Some (activeConnections (run evs initial) !! connId') ->
  exists s, s ∈ streams (run evs initial)
            /\ connId s = connId' /\ isStreamClosed s = false.
Proof.
  assert (H : forall srv, registered_connections_are_open srv ->
                          registered_connections_are_open (run evs srv)).
  { induction evs as [|ev evs IH]; intros srv Hsrv; [done|].
    cbn [run foldl]. apply IH. by apply step_registered. }
  apply (H initial). intros cid Hc. cbn in Hc. rewrite lookup_empty in Hc.
  by destruct Hc.
Qed.

Lemma registry_holds_open_connections_only_witness :
  is_Some (activeConnections
             (run [EvGET 1000 "sse-1" isValidAddress false (StatusChange.store "ACTIVE")
                     StatusChange.request] initial) !! "sse-1")
  /\ exists s,
       s ∈ streams (run [EvGET 1000 "sse-1" isValidAddress false
                           (StatusChange.store "ACTIVE") StatusChange.request] initial)
       /\ connId s = "sse-1" /\ isStreamClosed s = false.
Proof.
  split; [vm_compute; eexists; reflexivity|].
  apply (registry_holds_open_connections_only
           [EvGET 1000 "sse-1" isValidAddress false (StatusChange.store "ACTIVE")
              StatusChange.request] "sse-1").
  vm_compute. eexists. reflexivity.
Defined.

End LiveStatsMoreProofs.

(** ** The rate limiter (app/api/bets/get-user-bets/route.ts) *)

Section RateLimitProofs.
Import RateLimit.

Lemma accepted_cons v vs :
  accepted (v :: vs) = (if v then 1 else 0) + accepted vs.
Proof.
  unfold accepted. destruct v.
  - rewrite filter_cons_True by done. cbn [length]. lia.
  - rewrite filter_cons_False by done. lia.
Qed.

(** Inside a window: the calls that follow the one that opened it. *)
Lemma serve_in_window key limit windowMs calls :
  forall (m : gmap string Entry) (c r : Z),
    m !! key = Some {| count := c; resetTime := r |} ->
    Forall (fun now => now <= r) calls ->
    accepted (serve key limit windowMs calls m).1
    = Z.max 0 (Z.min (Z.of_nat (length calls)) (limit - c)).
Proof.
  induction calls as [|now calls IH]; intros m c r Hm Hcalls.
  { cbn. unfold accepted. cbn. lia. }
  apply Forall_cons_1 in Hcalls as [Hnow Hcalls].
  cbn [serve]. unfold checkRateLimit. rewrite Hm. cbn [resetTime count].
  rewrite (Z.gtb_ltb now r), (proj2 (Z.ltb_ge r now)) by lia.
  destruct (Z.ltb_spec c limit) as [Hlt|Hge].
  - specialize (IH (<[key := {| count := c + 1; resetTime := r |}]> m) (c + 1) r
                   (lookup_insert_eq _ _ _) Hcalls).
    destruct (serve _ _ _ calls _) as [vs m']. cbn [fst] in *.
    rewrite accepted_cons, IH. cbn [length]. lia.
  - specialize (IH m c r Hm Hcalls).
    destruct (serve _ _ _ calls _) as [vs m']. cbn [fst] in *.
    rewrite accepted_cons, IH. cbn [length]. lia.
Qed.

(** X19. A call that finds no entry for the key, or an entry whose window is
    over, opens a window of [windowMs] milliseconds and is accepted. Of
    that call and the calls that follow it up to the end of the window,
    the limiter accepts the first [limit], and one when [limit] is below
    one. *)
Theorem checkRateLimit_accepts_limit_per_window
    (key : string) (limit windowMs : Z) (now0 : Z) (calls : list Z) (m : gmap string Entry) :
  (forall entry, m !! key = Some entry -> resetTime entry < now0) ->
  Forall (fun now => now <= now0 + windowMs) calls ->
  accepted (serve key limit windowMs (now0 :: calls) m).1
  = Z.min (Z.of_nat (length (now0 :: calls))) (Z.max 1 limit).
Proof.
  intros Hfresh Hcalls. cbn [serve].
  assert (Hfirst : checkRateLimit now0 key limit windowMs m
                   = (true, <[key := {| count := 1; resetTime := now0 + windowMs |}]> m)).
  { unfold checkRateLimit. destruct (m !! key) as [e|] eqn:He; [|done].
    specialize (Hfresh e eq_refl). by rewrite (proj2 (Z.gtb_gt _ _)) by lia. }
  rewrite Hfirst.
  pose proof (serve_in_window key limit windowMs calls
                (<[key := {| count := 1; resetTime := now0 + windowMs |}]> m)
                1 (now0 + windowMs) (lookup_insert_eq _ _ _) Hcalls) as Hrest.
  destruct (serve _ _ _ calls _) as [vs m']. cbn [fst] in *.
  rewrite accepted_cons, Hrest. cbn [length]. lia.
Qed.

Lemma checkRateLimit_accepts_limit_per_window_witness :
  (forall entry, (∅ : gmap string Entry) !! "get-bets:0x2222" = Some entry -> resetTime entry < 1000)
  /\ Forall (fun now => now <= 1000 + 60000) [1001; 2000; 61000]
  /\ accepted (serve "get-bets:0x2222" 2 60000 (1000 :: [1001; 2000; 61000]) ∅).1
     = Z.min (Z.of_nat (length (1000 :: [1001; 2000; 61000]))) (Z.max 1 2).
Proof.
  assert (H1 : forall entry, (∅ : gmap string Entry) !! "get-bets:0x2222" = Some entry ->
                             resetTime entry < 1000).
  { intros entry H. discriminate H. }
  assert (H2 : Forall (fun now => now <= 1000 + 60000) [1001; 2000; 61000]).
  { repeat constructor; lia. }
  split; [exact H1|]. split; [exact H2|].
  exact (checkRateLimit_accepts_limit_per_window "get-bets:0x2222" 2 60000 1000
           [1001; 2000; 61000] ∅ H1 H2).
Defined.

(** X20. The periodic clean-up is invisible to the callers: at any instant
    from the clean-up on, [checkRateLimit] gives the same verdict, and
    leaves the same entry for the key, as it would without the clean-up. *)
Theorem cleanupRateLimitMap_keeps_verdicts
    (now now' : Z) (key : string) (limit windowMs : Z) (m : gmap string Entry) :
  now <= now' ->
  (checkRateLimit now' key limit windowMs (cleanupRateLimitMap now m)).1
  = (checkRateLimit now' key limit windowMs m).1
  /\ (checkRateLimit now' key limit windowMs (cleanupRateLimitMap now m)).2 !! key
     = (checkRateLimit now' key limit windowMs m).2 !! key.
Proof.
  intros Hle.
  assert (Hclean : cleanupRateLimitMap now m !! key
                   = match m !! key with
                     | Some e => if decide (now > resetTime e) then None else Some e
                     | None => None
                     end).
  { unfold cleanupRateLimitMap. rewrite map_lookup_filter.
    destruct (m !! key) as [e|]; [|done]. cbn.
    destruct (decide (now > resetTime e)); by repeat case_guard. }
  unfold checkRateLimit. rewrite Hclean.
  destruct (m !! key) as [e|] eqn:He.
  - destruct (decide (now > resetTime e)) as [Hold|Hkeep].
    + rewrite (proj2 (Z.gtb_gt now' (resetTime e))) by lia.
      cbn [fst snd]. by rewrite !lookup_insert_eq.
    + repeat case_match; cbn [fst snd]; by rewrite ?lookup_insert_eq, ?Hclean, ?He,
        ?decide_False by done.
  - cbn [fst snd]. by rewrite !lookup_insert_eq.
Qed.

Lemma cleanupRateLimitMap_keeps_verdicts_witness :
  300000 <= 300001
  /\ (checkRateLimit 300001 "k" 100 60000
        (cleanupRateLimitMap 300000 {[ "k" := {| count := 100; resetTime := 1 |} ]})).1
     = (checkRateLimit 300001 "k" 100 60000
          {[ "k" := {| count := 100; resetTime := 1 |} ]}).1
  /\ (checkRateLimit 300001 "k" 100 60000
        (cleanupRateLimitMap 300000 {[ "k" := {| count := 100; resetTime := 1 |} ]})).2 !! "k"
     = (checkRateLimit 300001 "k" 100 60000
          {[ "k" := {| count := 100; resetTime := 1 |} ]}).2 !! "k".
Proof.
  split; [lia|].
  apply (cleanupRateLimitMap_keeps_verdicts 300000 300001 "k" 100 60000
           {[ "k" := {| count := 100; resetTime := 1 |} ]}).
  lia.
Defined.

End RateLimitProofs.

(** ** The unit conversions (lib/blockchain/viem-client.ts) *)

Section WeiProofs.
Import JsString Wei.

Lemma append_cons c s1 s2 : String c s1 +:+ s2 = String c (s1 +:+ s2).
Proof. reflexivity. Qed.

Lemma append_nil_l s : EmptyString +:+ s = s.
Proof. reflexivity. Qed.

Lemma append_nil_r s : s +:+ EmptyString = s.
Proof. induction s as [|c s IH]; [done|]. by rewrite append_cons, IH. Qed.

Lemma append_assoc s1 s2 s3 : (s1 +:+ s2) +:+ s3 = s1 +:+ (s2 +:+ s3).
Proof. induction s1 as [|c s1 IH]; [done|]. by rewrite !append_cons, IH. Qed.

Lemma length_append s1 s2 :
  String.length (s1 +:+ s2) = (String.length s1 + String.length s2)%nat.
Proof. induction s1 as [|c s1 IH]; [done|]. rewrite append_cons. cbn. by rewrite IH. Qed.

Lemma length_repeat_zero n : String.length (LiveStats.repeat_zero n) = n.
Proof. induction n as [|n IH]; [done|]. cbn. by rewrite IH. Qed.

Lemma repeat_zero_add n k :
  LiveStats.repeat_zero (n + k) = LiveStats.repeat_zero n +:+ LiveStats.repeat_zero k.
Proof. induction n as [|n IH]; [done|]. cbn. by rewrite IH. Qed.

(** *** Digits *)

Lemma all_digits_append s1 s2 :
  all_digits (s1 +:+ s2) = all_digits s1 && all_digits s2.
Proof.
  induction s1 as [|c s1 IH]; [done|]. rewrite append_cons. cbn. rewrite IH.
  by rewrite andb_assoc.
Qed.

Lemma all_digits_repeat_zero n : all_digits (LiveStats.repeat_zero n) = true.
Proof. induction n as [|n IH]; [done|]. cbn. by rewrite IH. Qed.

Lemma pretty_N_char_digit x :
  (x < 10)%N ->
  is_digit (pretty_N_char x) = true
  /\ digit_value 10 (pretty_N_char x) = Some (Z.of_N x).
Proof.
  intros Hx.
  assert (x = 0 \/ x = 1 \/ x = 2 \/ x = 3 \/ x = 4 \/ x = 5 \/ x = 6 \/ x = 7
          \/ x = 8 \/ x = 9)%N as Hcases by lia.
  repeat (destruct Hcases as [->|Hcases]); try subst x; by vm_compute.
Qed.

(** The digits that [pretty] puts before a text: their number [k], which
    is the least with [x < 10 ^ k], and their value. *)
Lemma pretty_N_go_digits x :
  exists k : nat,
    (forall k' : nat, (x < 10 ^ N.of_nat k')%N -> (k <= k')%nat)
    /\ forall s,
         String.length (pretty_N_go x s) = (k + String.length s)%nat
         /\ all_digits (pretty_N_go x s) = all_digits s
         /\ forall acc,
              parse_digits 10 acc (pretty_N_go x s)
              = parse_digits 10 (acc * 10 ^ Z.of_nat k + Z.of_N x) s.
Proof.
  induction (N.lt_wf_0 x) as [x _ IH].
  destruct (N.eq_dec x 0%N) as [->|Hx].
  { exists 0%nat. split; [lia|]. intros s. rewrite pretty_N_go_0.
    split; [done|]. split; [done|]. intros acc. f_equal. cbn. lia. }
  assert (0 < x)%N as Hpos by lia.
  destruct (IH (x `div` 10)%N) as (k & Hk & Hgo).
  { apply N.div_lt; lia. }
  exists (S k). split.
  { intros [|k'] Hk'; [cbn in Hk'; lia|]. apply le_n_S, Hk.
    rewrite Nat2N.inj_succ, N.pow_succ_r' in Hk'.
    apply N.Div0.div_lt_upper_bound. lia. }
  intros s. rewrite pretty_N_go_step by done.
  destruct (Hgo (String (pretty_N_char (x `mod` 10)) s)) as (Hlen & Hdig & Hparse).
  destruct (pretty_N_char_digit (x `mod` 10)%N) as [Hd Hv].
  { apply N.mod_lt. lia. }
  split; [rewrite Hlen; cbn; lia|]. split; [rewrite Hdig; cbn; by rewrite Hd|].
  intros acc. rewrite Hparse. cbn [parse_digits]. rewrite Hv. f_equal.
  rewrite Nat2Z.inj_succ, Z.pow_succ_r by lia.
  pose proof (N.div_mod x 10 ltac:(lia)) as Hdm.
  rewrite Hdm at 3. rewrite N2Z.inj_add, N2Z.inj_mul. lia.
Qed.

(** [pretty] of an integer that is not negative. *)
Lemma pretty_Z_nonneg z :
  0 <= z -> pretty z = if decide (z = 0) then "0" else pretty_N_go (Z.to_N z) EmptyString.
Proof. intros Hz. destruct z as [|p|p]; [done| |lia]. done. Qed.

Lemma pretty_Z_digits z :
  0 <= z ->
  pretty z <> EmptyString
  /\ all_digits (pretty z) = true
  /\ parse_digits 10 0 (pretty z) = Some z
  /\ forall k : nat, z < 10 ^ Z.of_nat k -> (String.length (pretty z) <= Nat.max 1 k)%nat.
Proof.
  intros Hz. rewrite pretty_Z_nonneg by done. destruct (decide (z = 0)) as [->|Hnz].
  { repeat split; try done. intros k _. cbn. lia. }
  destruct (pretty_N_go_digits (Z.to_N z)) as (k & Hk & Hgo).
  destruct (Hgo EmptyString) as (Hlen & Hdig & Hparse).
  split.
  { intros Hempty. rewrite Hempty in Hlen. cbn in Hlen.
    assert (k = 0%nat) as -> by lia.
    specialize (Hparse 7). rewrite Hempty in Hparse. cbn in Hparse.
    injection Hparse. lia. }
  split; [by rewrite Hdig|]. split.
  { rewrite Hparse. cbn. f_equal. lia. }
  intros k' Hk'. rewrite Hlen, Nat.add_0_r.
  assert (k <= k')%nat; [|lia]. apply Hk.
  apply N2Z.inj_lt. rewrite Z2N.id, N2Z.inj_pow, nat_N_Z by lia. done.
Qed.

(** *** Padding and stripping *)

Lemma parse_digits_zeros n s :
  parse_digits 10 0 (LiveStats.repeat_zero n +:+ s) = parse_digits 10 0 s.
Proof. induction n as [|n IH]; [done|]. cbn [LiveStats.repeat_zero]. by rewrite append_cons. Qed.

Lemma parse_digits_repeat_zero n : parse_digits 10 0 (LiveStats.repeat_zero n) = Some 0.
Proof. rewrite <- (append_nil_r (LiveStats.repeat_zero n)). by rewrite parse_digits_zeros. Qed.

(** What the [replace] of [/0+$/] removes is a run of zeros. *)
Lemma strip_trailing_zeros_spec s :
  exists k, s = LiveStats.strip_trailing_zeros s +:+ LiveStats.repeat_zero k.
Proof.
  induction s as [|c s [k IH]]; [by exists 0%nat|].
  cbn [LiveStats.strip_trailing_zeros].
  destruct (LiveStats.strip_trailing_zeros s) as [|a t] eqn:Hs.
  - rewrite append_nil_l in IH. destruct (Ascii.eqb_spec c "0") as [->|Hc].
    + exists (S k). rewrite append_nil_l. cbn. by rewrite <- IH.
    + exists k. rewrite append_cons, append_nil_l. by rewrite <- IH.
  - exists k. rewrite append_cons. by rewrite <- IH.
Qed.

(** Padding the stripped text back to the length of the text restores it. *)
Lemma padEnd0_strip_trailing_zeros s :
  padEnd0 (String.length s) (LiveStats.strip_trailing_zeros s) = s.
Proof.
  destruct (strip_trailing_zeros_spec s) as [k Hk]. unfold padEnd0.
  assert (Hlen : String.length s
                 = (String.length (LiveStats.strip_trailing_zeros s) + k)%nat).
  { rewrite Hk at 1. by rewrite length_append, length_repeat_zero. }
  rewrite Hlen.
  replace (String.length (LiveStats.strip_trailing_zeros s) + k
           - String.length (LiveStats.strip_trailing_zeros s))%nat with k by lia.
  by rewrite <- Hk.
Qed.

(** *** [BigInt] of a text of digits *)

Lemma is_digit_not_space c : is_digit c = true -> StrWhiteSpaceChar c = false.
Proof.
  unfold is_digit, StrWhiteSpaceChar. cbv zeta. intros [H1 H2]%andb_true_iff.
  apply Z.leb_le in H1, H2.
  repeat (apply orb_false_iff; split); apply Z.eqb_neq; lia.
Qed.

Lemma trim_digits s : all_digits s = true -> trim s = s.
Proof.
  intros Hs. unfold trim.
  assert (Hstart : trim_start s = s).
  { destruct s as [|c s]; [done|]. cbn in Hs. apply andb_true_iff in Hs as [Hc _].
    cbn. by rewrite (is_digit_not_space _ Hc). }
  rewrite Hstart. induction s as [|c s IH]; [done|].
  cbn in Hs. apply andb_true_iff in Hs as [Hc Hs]. cbn [trim_end].
  rewrite IH; [|done|].
  - destruct s; [|done]. by rewrite (is_digit_not_space _ Hc).
  - destruct s as [|c' s]; [done|]. cbn in Hs. apply andb_true_iff in Hs as [Hc' _].
    cbn. by rewrite (is_digit_not_space _ Hc').
Qed.

Lemma is_digit_plain c :
  is_digit c = true ->
  Ascii.eqb c "-" = false /\ Ascii.eqb c "+" = false /\ Ascii.eqb c "." = false
  /\ is_one_of c "x" "X" = false /\ is_one_of c "o" "O" = false
  /\ is_one_of c "b" "B" = false.
Proof.
  unfold is_digit, is_one_of. intros [H1 H2]%andb_true_iff. apply Z.leb_le in H1, H2.
  assert (Hne : forall a, ~ (48 <= code_unit a <= 57) -> Ascii.eqb c a = false).
  { intros a Ha. apply Ascii.eqb_neq. intros ->. lia. }
  rewrite !Hne by (vm_compute; intros [? ?]; congruence). done.
Qed.

(** [BigInt] reads a text of decimal digits as the number they write, and
    the empty text as zero. *)
Lemma BigInt_of_string_digits s v :
  all_digits s = true -> parse_digits 10 0 s = Some v -> BigInt_of_string s = Ok v.
Proof.
  intros Hs Hv. unfold BigInt_of_string. cbv zeta. rewrite (trim_digits s Hs).
  destruct s as [|c0 r0]; [by injection Hv as <-|].
  pose proof Hs as Hs'. cbn in Hs'. apply andb_true_iff in Hs' as [Hc0 Hr0].
  destruct (is_digit_plain _ Hc0) as (-> & -> & _).
  destruct r0 as [|c1 r1].
  { unfold parse_number. by rewrite Hv. }
  cbn in Hr0. apply andb_true_iff in Hr0 as [Hc1 _].
  destruct (is_digit_plain _ Hc1) as (_ & _ & _ & -> & -> & ->).
  rewrite !andb_false_r. unfold parse_number. by rewrite Hv.
Qed.

(** *** Splitting at the point *)

Lemma split_on_digits s : all_digits s = true -> split_on "." s = [s].
Proof.
  induction s as [|c s IH]; [done|]. cbn [all_digits]. intros [Hc Hs]%andb_true_iff.
  cbn [split_on]. destruct (is_digit_plain _ Hc) as (_ & _ & -> & _).
  by rewrite (IH Hs).
Qed.

Lemma split_on_point s1 s2 :
  all_digits s1 = true -> all_digits s2 = true ->
  split_on "." (s1 +:+ "." +:+ s2) = [s1; s2].
Proof.
  intros H1 H2. induction s1 as [|c s1 IH].
  - rewrite append_nil_l. change ("." +:+ s2) with (String "." s2). cbn [split_on].
    rewrite Ascii.eqb_refl. by rewrite (split_on_digits _ H2).
  - cbn [all_digits] in H1. apply andb_true_iff in H1 as [Hc H1].
    rewrite append_cons. cbn [split_on]. destruct (is_digit_plain _ Hc) as (_ & _ & -> & _).
    by rewrite (IH H1).
Qed.

(** *** The round trip *)

(** The fractional digits of [formatWei], before the trailing zeros are
    removed: as many as there are decimals, unless there are no decimals. *)
Lemma fraction_digits (f : Z) (d : nat) :
  0 <= f < 10 ^ Z.of_nat d ->
  all_digits (LiveStats.padStart0 d (pretty f)) = true
  /\ parse_digits 10 0 (LiveStats.padStart0 d (pretty f)) = Some f
  /\ String.length (LiveStats.padStart0 d (pretty f)) = Nat.max 1 d.
Proof.
  intros [Hf0 Hf]. destruct (pretty_Z_digits f Hf0) as (Hne & Hdig & Hparse & Hlen).
  specialize (Hlen d Hf). unfold LiveStats.padStart0.
  rewrite all_digits_append, all_digits_repeat_zero, Hdig, parse_digits_zeros, Hparse,
    length_append, length_repeat_zero.
  repeat split; try done.
  assert (1 <= String.length (pretty f))%nat; [|lia].
  destruct (pretty f); [done|cbn; lia].
Qed.

(** X21. For an amount that is not negative, and any number of decimals,
    [toWei] reads back from the text of [formatWei] the amount it was
    given. The live-stats [formatUSDT] formats as [formatWei] does with
    six decimals, so the pool amounts of a POOL_UPDATE frame read back
    exactly. *)
Theorem toWei_formatWei_round_trip (wei : Z) (decimals : nat) :
  0 <= wei ->
  toWei (formatWei wei decimals) decimals = Ok wei
  /\ toWei (LiveStats.formatUSDT wei) 6 = Ok wei.
Proof.
  intros Hw. rename wei into w.
  assert (Hgen : forall d : nat, toWei (formatWei w d) d = Ok w).
  { intros d. unfold formatWei. cbv zeta.
    set (divisor := 10 ^ Z.of_nat d).
    assert (Hdiv : 0 < divisor) by (subst divisor; apply Z.pow_pos_nonneg; lia).
    pose proof (Z.quot_rem' w divisor) as Hqr.
    assert (Hq : 0 <= Z.quot w divisor) by (apply Z.quot_pos; lia).
    assert (Hr : 0 <= Z.rem w divisor < divisor) by (apply Z.rem_bound_pos; lia).
    destruct (pretty_Z_digits _ Hq) as (_ & Hidig & Hiparse & _).
    destruct (fraction_digits _ d Hr) as (Hfdig & Hfparse & Hflen).
    set (padded := LiveStats.padStart0 d (pretty (Z.rem w divisor))) in *.
    destruct (strip_trailing_zeros_spec padded) as [k Hk].
    assert (Hsdig : all_digits (LiveStats.strip_trailing_zeros padded) = true).
    { rewrite Hk, all_digits_append in Hfdig. by apply andb_true_iff in Hfdig as [? _]. }
    unfold toWei. cbv zeta. fold divisor.
    destruct (String.eqb_spec (LiveStats.strip_trailing_zeros padded) EmptyString) as [He|Hne].
    - (* no fractional digit is left: the remainder is zero *)
      rewrite He, append_nil_l in Hk. rewrite Hk, parse_digits_repeat_zero in Hfparse.
      injection Hfparse as Hzero.
      rewrite (split_on_digits _ Hidig). cbn [nth].
      rewrite (BigInt_of_string_digits _ _ Hidig Hiparse).
      unfold padEnd0. rewrite append_nil_l.
      rewrite (BigInt_of_string_digits _ 0 (all_digits_repeat_zero _)
                 (parse_digits_repeat_zero _)).
      f_equal. lia.
    - rewrite (split_on_point _ _ Hidig Hsdig). cbn [nth].
      rewrite (BigInt_of_string_digits _ _ Hidig Hiparse).
      assert (Hd : Nat.max 1 d = d).
      { destruct d as [|d']; [|lia]. exfalso. apply Hne.
        assert (Z.rem w divisor = 0) as Hz by (subst divisor; cbn in Hr; lia).
        subst padded. by rewrite Hz. }
      rewrite <- Hd at 1. rewrite <- Hflen, padEnd0_strip_trailing_zeros.
      rewrite (BigInt_of_string_digits _ _ Hfdig Hfparse).
      f_equal. lia. }
  split; [apply Hgen|exact (Hgen 6%nat)].
Qed.

Lemma toWei_formatWei_round_trip_witness :
  0 <= 1500000
  /\ toWei (formatWei 1500000 18) 18 = Ok 1500000
  /\ toWei (LiveStats.formatUSDT 1500000) 6 = Ok 1500000.
Proof.
  split; [lia|]. apply (toWei_formatWei_round_trip 1500000 18). lia.
Defined.

(** *** Decimal texts *)

Lemma parse_digits_total s acc :
  all_digits s = true -> exists v, parse_digits 10 acc s = Some v.
Proof.
  revert acc. induction s as [|c s IH]; intros acc; [by eexists|].
  cbn [all_digits]. intros [Hc Hs]%andb_true_iff. cbn [parse_digits].
  assert (exists dv, digit_value 10 c = Some dv) as [dv ->]; [|by apply IH].
  unfold is_digit in Hc. apply andb_true_iff in Hc as [H1 H2]. apply Z.leb_le in H1, H2.
  unfold digit_value, hex_digit_value. cbv zeta.
  rewrite (proj2 (Z.leb_le 48 _)), (proj2 (Z.leb_le _ 57)) by done. cbn [andb].
  rewrite (proj2 (Z.ltb_lt _ 10)) by lia. by eexists.
Qed.

Lemma parse_digits_append s1 s2 acc :
  parse_digits 10 acc (s1 +:+ s2)
  = match parse_digits 10 acc s1 with
    | Some v => parse_digits 10 v s2
    | None => None
    end.
Proof.
  revert acc. induction s1 as [|c s1 IH]; intros acc; [done|].
  rewrite append_cons. cbn [parse_digits]. by destruct (digit_value 10 c).
Qed.

Lemma parse_digits_scale k acc :
  parse_digits 10 acc (LiveStats.repeat_zero k) = Some (acc * 10 ^ Z.of_nat k).
Proof.
  revert acc. induction k as [|k IH]; intros acc; [cbn; f_equal; lia|].
  cbn [LiveStats.repeat_zero parse_digits].
  change (digit_value 10 "0") with (Some 0). cbv beta iota. rewrite IH. f_equal.
  rewrite Nat2Z.inj_succ, Z.pow_succ_r by lia. lia.
Qed.

(** X22. [toWei] on a decimal text: the digits before the point count whole
    units; the digits after it are scaled to the number of decimals when
    there are at most that many, and are added unscaled, as smallest
    units, when there are more. *)
Theorem toWei_reads_decimal_text (i f : string) (decimals : nat) :
  all_digits i = true ->
  all_digits f = true ->
  toWei (i +:+ "." +:+ f) decimals
  = Ok (decimal_value i * 10 ^ Z.of_nat decimals
        + decimal_value f * 10 ^ Z.of_nat (decimals - String.length f)).
Proof.
  intros Hi Hf. unfold toWei. cbv zeta. rewrite (split_on_point _ _ Hi Hf). cbn [nth].
  destruct (parse_digits_total i 0 Hi) as [vi Hvi].
  destruct (parse_digits_total f 0 Hf) as [vf Hvf].
  rewrite (BigInt_of_string_digits _ _ Hi Hvi).
  assert (Hpad : parse_digits 10 0 (padEnd0 decimals f)
                 = Some (vf * 10 ^ Z.of_nat (decimals - String.length f))).
  { unfold padEnd0. by rewrite parse_digits_append, Hvf, parse_digits_scale. }
  assert (Hdig : all_digits (padEnd0 decimals f) = true).
  { unfold padEnd0. by rewrite all_digits_append, Hf, all_digits_repeat_zero. }
  rewrite (BigInt_of_string_digits _ _ Hdig Hpad).
  unfold decimal_value. by rewrite Hvi, Hvf.
Qed.

Lemma toWei_reads_decimal_text_witness :
  all_digits "1" = true
  /\ all_digits "1234567" = true
  /\ toWei ("1" +:+ "." +:+ "1234567") 6
     = Ok (decimal_value "1" * 10 ^ Z.of_nat 6
           + decimal_value "1234567" * 10 ^ Z.of_nat (6 - String.length "1234567")).
Proof.
  split; [reflexivity|]. split; [reflexivity|].
  apply (toWei_reads_decimal_text "1" "1234567" 6); reflexivity.
Defined.

End WeiProofs.

(** ** Whole amounts through the binary64 helpers (lib/config/constants.ts) *)

(** X23. For every whole USDT amount within the bet limits, the only amounts
    that [validateBetAmount] accepts, [toUSDTWei] recovers from the number
    of [formatUSDT] the smallest units it was given. *)
Theorem toUSDTWei_formatUSDT_exact_on_whole_usdt (k : Z) :
  BET_LIMITS.MIN_BET <= k <= BET_LIMITS.MAX_BET ->
  Float64.toUSDTWei (Float64.formatUSDT (k * 1000000)) = Some (k * 1000000).
Proof.
  unfold BET_LIMITS.MIN_BET, BET_LIMITS.MAX_BET. intros Hk.
  pose proof roundtrip_exact_whole_usdt as Hall.
  rewrite forallb_forall in Hall. specialize (Hall (Z.to_nat k)).
  rewrite Z2Nat.id in Hall by lia.
  assert (Hin : In (Z.to_nat k) (seq 5 4996)) by (apply in_seq; lia).
  specialize (Hall Hin). unfold roundtrip_exact in Hall.
  destruct (Float64.toUSDTWei _) as [r|]; [|done].
  apply Z.eqb_eq in Hall. by rewrite Hall.
Qed.

Lemma toUSDTWei_formatUSDT_exact_on_whole_usdt_witness :
  BET_LIMITS.MIN_BET <= 8 <= BET_LIMITS.MAX_BET
  /\ Float64.toUSDTWei (Float64.formatUSDT (8 * 1000000)) = Some (8 * 1000000).
Proof.
  assert (H : BET_LIMITS.MIN_BET <= 8 <= BET_LIMITS.MAX_BET)
    by (unfold BET_LIMITS.MIN_BET, BET_LIMITS.MAX_BET; lia).
  split; [exact H|]. exact (toUSDTWei_formatUSDT_exact_on_whole_usdt 8 H).
Defined.

(** ** The settlement of a confirmed bet (app/api/bets/confirm/route.ts) *)

Section SettlementProofs.
Import TxValidator Db BetRules ConfirmRoute.

Lemma gatherBetInput_count env data market db input :
  (gatherBetInput env data market db).1 = Ok input ->
  currentBetCount input
  = if fails env Step4_getUserBetCount then 0
    else Z.of_nat (length (bets_of (walletAddress data) (marketId data) db)).
Proof.
  unfold gatherBetInput. cbv zeta.
  rewrite bind_eq, getUserBetCount_eq.
  destruct (getUserTotalBetAmount_eq (fails env) Step4_getUserTotalBetAmount
              (walletAddress data) (marketId data) db) as [total Htotal].
  rewrite bind_eq, Htotal, bind_eq, flaggedWallet_lookup_eq.
  rewrite bind_eq. unfold bet_findMany_last, guarded.
  destruct (fails env Step6_bet_findMany_last); [done|]. rewrite bind_eq.
  cbn [get]. cbv beta iota. unfold mret at 1. unfold Task_ret at 1.
  rewrite bind_eq. unfold bet_findMany_recent, guarded.
  destruct (fails env Step6_bet_findMany_recent); [done|]. rewrite bind_eq.
  cbn [get]. cbv beta iota. unfold mret at 1. unfold Task_ret at 1.
  cbn [fst]. by intros [= <-].
Qed.

(** X24. A confirmation that succeeds adds one Bet row for the request, and
    the pool of the chosen side of the market row read in STEP 2 grows by
    exactly the amount of that row, while the pool of the other side stays
    as it was. The row gets the next bet number of the wallet on the
    market when the count of STEP 4 could be read. *)
Theorem confirmed_bet_moves_the_chosen_pool
    (env : Env) (body : RequestBody) (db : Store) (r : Response) (db' : Store) :
  POST env (Some body) db = (Ok r, db') ->
  r_success r = true ->
  exists data market0 market1 row,
    validateRequest env body = inr data
    /\ market db !! marketId data = Some market0
    /\ market db' !! marketId data = Some market1
    /\ bet db' = bet db ++ [row]
    /\ r_betId r = Some (b_id row)
    /\ b_txHash row = txHash data
    /\ b_choice row = choice data
    /\ b_amount row = amountWei_of (amount data)
    /\ (fails env Step4_getUserBetCount = false ->
        b_betNumber row
        = Z.of_nat (length (bets_of (walletAddress data) (marketId data) db)) + 1)
    /\ m_yesPool market1
       = m_yesPool market0 + (if bool_decide (choice data = YES) then b_amount row else 0)
    /\ m_noPool market1
       = m_noPool market0 + (if bool_decide (choice data = YES) then 0 else b_amount row).
Proof.
  intros H Hok. destruct (POST_cases env body db) as (r0 & db0 & Hp & Hrun).
  rewrite H in Hp. simplify_eq.
  destruct Hrun as [r Hr|data mk input Hreq Hmk Hver Hin Hrules]; [congruence|].
  pose proof (settle_outcome_ok env data mk (currentBetCount input) db) as Hs.
  destruct (settle_outcome env data mk (currentBetCount input) db) as [[r|e] p];
    cbn [fst snd] in *; [|done].
  destruct (Hs _ eq_refl) as (_ & -> & Hp). clear Hs.
  exists data, mk,
    (poolUpdate env (choice data) mk (amountWei_of (amount data)) mk),
    (betRow env data (currentBetCount input) db).
  split; [done|]. split; [done|]. split.
  { destruct Hp as [-> | ->]; cbn [written with_snapshot with_market market];
      rewrite Hmk; cbn [default]; apply lookup_insert_eq. }
  split; [rewrite bet_written; by destruct Hp as [-> | ->]|].
  split; [done|]. split; [done|]. split; [done|]. split; [done|]. split.
  { intros Hf. cbn [betRow b_betNumber].
    by rewrite (gatherBetInput_count _ _ _ _ _ Hin), Hf. }
  cbn [poolUpdate m_yesPool m_noPool betRow b_amount].
  destruct (bool_decide (choice data = YES)); split; lia.
Qed.

Lemma confirmed_bet_moves_the_chosen_pool_witness :
  POST Scenario.env_first (Some Scenario.body) (Scenario.db0 1000000000)
  = (Ok (confirmed Scenario.first_row), Scenario.after_first)
  /\ r_success (confirmed Scenario.first_row) = true
  /\ exists data market0 market1 row,
       validateRequest Scenario.env_first Scenario.body = inr data
       /\ market (Scenario.db0 1000000000) !! marketId data = Some market0
       /\ market Scenario.after_first !! marketId data = Some market1
       /\ bet Scenario.after_first = bet (Scenario.db0 1000000000) ++ [row]
       /\ r_betId (confirmed Scenario.first_row) = Some (b_id row)
       /\ b_txHash row = txHash data
       /\ b_choice row = choice data
       /\ b_amount row = amountWei_of (amount data)
       /\ (fails Scenario.env_first Step4_getUserBetCount = false ->
           b_betNumber row
           = Z.of_nat (length (bets_of (walletAddress data) (marketId data)
                                 (Scenario.db0 1000000000))) + 1)
       /\ m_yesPool market1
          = m_yesPool market0
            + (if bool_decide (choice data = YES) then b_amount row else 0)
       /\ m_noPool market1
          = m_noPool market0
            + (if bool_decide (choice data = YES) then 0 else b_amount row).
Proof.
  split; [exact first_confirmation|]. split; [reflexivity|].
  exact (confirmed_bet_moves_the_chosen_pool Scenario.env_first Scenario.body
           (Scenario.db0 1000000000) (confirmed Scenario.first_row) Scenario.after_first
           first_confirmation eq_refl).
Defined.

End SettlementProofs.

(** ** The answers of the confirmation handler *)

Section AnswerProofs.
Import TxValidator Db BetRules ConfirmRoute.

Lemma verifyTransaction_status env data r :
  verifyTransaction env data = Some r -> r_httpStatus r = 400 /\ r_success r = false.
Proof. unfold verifyTransaction. repeat case_match; intros; by simplify_eq. Qed.

Lemma checkBetRules_status env input r :
  checkBetRules env input = Some r -> r_httpStatus r = 400 /\ r_success r = false.
Proof. unfold checkBetRules. repeat case_match; intros; by simplify_eq. Qed.

(** X25. The handler answers every request and never lets an exception out. The
    HTTP status is 200, 400, 404 or 500; the answer reports a success
    exactly when the status is 200; and a request answered with 400 or 404
    leaves the store as it was. *)
Theorem POST_answers_every_request (env : Env) (body : option RequestBody) (db : Store) :
  exists r db',
    POST env body db = (Ok r, db')
    /\ (r_httpStatus r = 200 \/ r_httpStatus r = 400 \/ r_httpStatus r = 404
        \/ r_httpStatus r = 500)
    /\ (r_success r = true <-> r_httpStatus r = 200)
    /\ (r_httpStatus r = 400 \/ r_httpStatus r = 404 -> db' = db).
Proof.
  assert (Hearly : forall m c s, (s = 400 \/ s = 404) ->
            exists r db',
              (Ok (errorResponse m c s), db) = (Ok r, db')
              /\ (r_httpStatus r = 200 \/ r_httpStatus r = 400 \/ r_httpStatus r = 404
                  \/ r_httpStatus r = 500)
              /\ (r_success r = true <-> r_httpStatus r = 200)
              /\ (r_httpStatus r = 400 \/ r_httpStatus r = 404 -> db' = db)).
  { intros m c s Hs. do 2 eexists. split; [reflexivity|]. cbn.
    split; [lia|]. split; [|done]. split; [done|lia]. }
  assert (Hfailed : forall r, r_httpStatus r = 400 /\ r_success r = false ->
            exists r' db',
              (Ok r, db) = (Ok r', db')
              /\ (r_httpStatus r' = 200 \/ r_httpStatus r' = 400 \/ r_httpStatus r' = 404
                  \/ r_httpStatus r' = 500)
              /\ (r_success r' = true <-> r_httpStatus r' = 200)
              /\ (r_httpStatus r' = 400 \/ r_httpStatus r' = 404 -> db' = db)).
  { intros r [Hs Hf]. do 2 eexists. split; [reflexivity|]. rewrite Hs, Hf.
    split; [lia|]. split; [|done]. split; [done|lia]. }
  unfold POST, try_catch. destruct body as [body|]; [|by apply Hearly; left].
  unfold POST_try.
  destruct (validateRequest env body) as [err|data] eqn:Hreq; [by apply Hearly; left|].
  rewrite bind_eq, getMarketById_eq.
  destruct (if fails env Step2_getMarketById then None else market db !! marketId data)
    as [mk|] eqn:Hmk; cbv beta iota zeta; [|by apply Hearly; right].
  destruct (negb _); [by apply Hearly; left|].
  destruct (_ >? _); [by apply Hearly; left|].
  destruct (verifyTransaction env data) as [r|] eqn:Hver.
  { apply Hfailed. by eapply verifyTransaction_status. }
  rewrite bind_eq.
  pose proof (readonly_gatherBetInput env data mk db) as Hro.
  destruct (gatherBetInput env data mk db) as [[input|e] db1] eqn:Hin; simpl in Hro; subst db1.
  2:{ do 2 eexists. split; [reflexivity|]. cbn. split; [lia|]. split; [done|]. lia. }
  destruct (checkBetRules env input) as [r|] eqn:Hrules.
  { apply Hfailed. by eapply checkBetRules_status. }
  rewrite settle_eq.
  pose proof (settle_outcome_ok env data mk (currentBetCount input) db) as Hs.
  destruct (settle_outcome env data mk (currentBetCount input) db) as [[r|e] p];
    cbn [fst snd] in *.
  - destruct (Hs _ eq_refl) as (_ & -> & _).
    do 2 eexists. split; [reflexivity|]. cbn. split; [lia|]. split; [done|]. lia.
  - do 2 eexists. split; [reflexivity|]. cbn. split; [lia|]. split; [done|]. lia.
Qed.

End AnswerProofs.

(** ** Waiting for a transaction (lib/blockchain/tx-validator.ts) *)

Section MonitorProofs.
Import TxValidator TxStatusHelpers.

(** A run that starts after the deadline resolves the promise. *)
Lemma checkTransaction_after_deadline contract h uc ua progress start wait a :
  wait < at_start a - start ->
  checkTransaction contract h uc ua progress start wait a
  = Resolve (unresolved h not_found "Transaction did not confirm within 5 minutes").
Proof.
  intros Hlate. unfold checkTransaction. by rewrite (proj2 (Z.gtb_gt _ _)) by lia.
Qed.

(** A run resolves to a valid result only with the result of the full
    validation on its ledger. *)
Lemma checkTransaction_valid contract h uc ua progress start wait a r :
  checkTransaction contract h uc ua progress start wait a = Resolve r ->
  v_isValid r = true ->
  r = validateBetTransaction contract (ledger a) h uc ua.
Proof.
  unfold checkTransaction. cbv zeta. repeat case_match; intros [= <-]; try done.
Qed.

(** X26. [monitorTransaction] always comes to an end: once a run of
    [checkTransaction] starts after the deadline, the promise is resolved,
    by that run at the latest. And a valid result is never made up by the
    monitor: it is the result of [validateBetTransaction] on the ledger of
    one of the runs. *)
Theorem monitorTransaction_resolves
    (contract txHash : string) (userChoice : BetChoice) (userAmount : Q)
    (onProgress : bool) (maxWaitTime startTime : Z) (attempts : list Attempt) :
  Exists (fun a => maxWaitTime < at_start a - startTime) attempts ->
  exists result,
    monitorTransaction contract txHash userChoice userAmount onProgress
      maxWaitTime startTime attempts = Some result
    /\ (v_isValid result = true ->
        exists a, a ∈ attempts
                  /\ result = validateBetTransaction contract (ledger a) txHash
                                userChoice userAmount).
Proof.
  induction attempts as [|a attempts IH]; intros Hlate; [by apply Exists_nil in Hlate|].
  cbn [monitorTransaction].
  destruct (checkTransaction contract txHash userChoice userAmount onProgress
              startTime maxWaitTime a) as [r|] eqn:Hstep.
  - exists r. split; [done|]. intros Hv. exists a. split; [left|].
    by eapply checkTransaction_valid.
  - apply Exists_cons in Hlate as [Hlate|Hlate].
    { by rewrite checkTransaction_after_deadline in Hstep. }
    destruct (IH Hlate) as (r & Hr & Hvalid). exists r. split; [done|].
    intros Hv. destruct (Hvalid Hv) as (a' & Ha' & Heq). exists a'. split; [by right|done].
Qed.

Lemma monitorTransaction_resolves_witness :
  Exists (fun a => 300000 < at_start a - 1000)
    [ {| at_start := 1000; ledger := Scenario.ledger_with Scenario.payload;
         at_catch := 1000 |};
      {| at_start := 302000; ledger := Scenario.ledger_with Scenario.payload;
         at_catch := 302000 |} ]
  /\ exists result,
       monitorTransaction Scenario.contract Scenario.tx1 YES 5 false 300000 1000
         [ {| at_start := 1000; ledger := Scenario.ledger_with Scenario.payload;
              at_catch := 1000 |};
           {| at_start := 302000; ledger := Scenario.ledger_with Scenario.payload;
              at_catch := 302000 |} ] = Some result
       /\ (v_isValid result = true ->
           exists a,
             a ∈ [ {| at_start := 1000; ledger := Scenario.ledger_with Scenario.payload;
                      at_catch := 1000 |};
                   {| at_start := 302000; ledger := Scenario.ledger_with Scenario.payload;
                      at_catch := 302000 |} ]
             /\ result = validateBetTransaction Scenario.contract (ledger a)
                           Scenario.tx1 YES 5).
Proof.
  assert (Hlate : Exists (fun a => 300000 < at_start a - 1000)
            [ {| at_start := 1000; ledger := Scenario.ledger_with Scenario.payload;
                 at_catch := 1000 |};
              {| at_start := 302000; ledger := Scenario.ledger_with Scenario.payload;
                 at_catch := 302000 |} ]).
  { apply Exists_cons_tl, Exists_cons_hd. cbn. lia. }
  split; [exact Hlate|].
  exact (monitorTransaction_resolves Scenario.contract Scenario.tx1 YES 5 false 300000 1000
           _ Hlate).
Defined.

End MonitorProofs.

(** ** Decoding an encoded call (lib/blockchain/tx-validator.ts) *)

Section EncodingProofs.
Import TxValidator.

Lemma substring_all s k : String.length s = k -> String.substring 0 k s = s.
Proof. intros <-. induction s as [|c s IH]; [done|]. cbn. by rewrite IH. Qed.

Lemma substring_append_l s1 s2 k :
  String.length s1 = k -> String.substring 0 k (s1 +:+ s2) = s1.
Proof.
  intros <-. induction s1 as [|c s1 IH]; [by destruct s2|].
  rewrite append_cons. cbn. by rewrite IH.
Qed.

Lemma substring_append_r s1 s2 k n :
  String.length s1 = k -> String.substring k n (s1 +:+ s2) = String.substring 0 n s2.
Proof.
  intros <-. induction s1 as [|c s1 IH]; [done|]. rewrite append_cons. cbn. by rewrite IH.
Qed.

Lemma hex_char_value d :
  0 <= d < 16 ->
  hex_digit_value (hex_char d) = Some d /\ StrWhiteSpaceChar (hex_char d) = false.
Proof.
  intros Hd.
  assert (d = 0 \/ d = 1 \/ d = 2 \/ d = 3 \/ d = 4 \/ d = 5 \/ d = 6 \/ d = 7 \/ d = 8
          \/ d = 9 \/ d = 10 \/ d = 11 \/ d = 12 \/ d = 13 \/ d = 14 \/ d = 15)
    as Hcases by lia.
  repeat (destruct Hcases as [->|Hcases]); try subst d; by vm_compute.
Qed.

Lemma length_hex_digits k n : String.length (hex_digits k n) = k.
Proof.
  revert n. induction k as [|k IH]; intros n; [done|].
  cbn [hex_digits]. rewrite length_append, IH. cbn. lia.
Qed.

Lemma parse_hex_digits_append s1 s2 acc :
  parse_hex_digits acc (s1 +:+ s2)
  = match parse_hex_digits acc s1 with
    | Some v => parse_hex_digits v s2
    | None => None
    end.
Proof.
  revert acc. induction s1 as [|c s1 IH]; intros acc; [done|].
  rewrite append_cons. cbn [parse_hex_digits]. by destruct (hex_digit_value c).
Qed.

Lemma parse_hex_digits_hex_digits k n acc :
  0 <= n ->
  parse_hex_digits acc (hex_digits k n) = Some (acc * 16 ^ Z.of_nat k + n mod 16 ^ Z.of_nat k).
Proof.
  revert n. induction k as [|k IH]; intros n Hn.
  { cbn. f_equal. rewrite Z.mod_1_r. lia. }
  cbn [hex_digits]. rewrite parse_hex_digits_append, IH by (apply Z.div_pos; lia).
  cbn [parse_hex_digits].
  destruct (hex_char_value (n mod 16)) as [-> _]; [apply Z.mod_pos_bound; lia|].
  f_equal. rewrite Nat2Z.inj_succ, Z.pow_succ_r by lia.
  rewrite (Z.rem_mul_r n 16 (16 ^ Z.of_nat k)) by lia. lia.
Qed.

Lemma trim_end_hex_digits k n : trim_end (hex_digits k n) = hex_digits k n.
Proof.
  assert (Happ : forall s c, StrWhiteSpaceChar c = false ->
                   trim_end s = s -> trim_end (s +:+ String c EmptyString)
                                     = s +:+ String c EmptyString).
  { intros s c Hc. induction s as [|a s IHs]; intros Hs.
    - rewrite append_nil_l. cbn [trim_end]. by rewrite Hc.
    - rewrite append_cons. cbn [trim_end] in *.
      destruct (trim_end s) as [|b t] eqn:Ht.
      + destruct (StrWhiteSpaceChar a); [done|]. injection Hs as <-.
        rewrite append_nil_l. cbn [trim_end]. by rewrite Hc.
      + injection Hs as Hs. rewrite <- Hs in *. rewrite IHs by done.
        by rewrite append_cons. }
  revert n. induction k as [|k IH]; intros n; [done|].
  cbn [hex_digits]. apply Happ; [|apply IH].
  apply hex_char_value. apply Z.mod_pos_bound. lia.
Qed.

(** A word reads back as the number it writes. *)
Lemma BigInt_0x_abi_word n :
  0 <= n < 2 ^ 256 -> BigInt_0x (abi_word n) = Ok n.
Proof.
  intros Hn. unfold BigInt_0x, abi_word. rewrite trim_end_hex_digits.
  pose proof (parse_hex_digits_hex_digits 64 n 0 ltac:(lia)) as Hparse.
  destruct (hex_digits 64 n) eqn:Hd.
  { pose proof (length_hex_digits 64 n) as Hl. by rewrite Hd in Hl. }
  rewrite Hparse. f_equal.
  change (16 ^ Z.of_nat 64) with (2 ^ 256). rewrite Z.mod_small by done. lia.
Qed.

Lemma encodePlaceBet_shaped c a :
  placeBet_shaped (encodePlaceBet c a)
  /\ choice_word (encodePlaceBet c a) = BigInt_0x (abi_word (word_of_choice c))
  /\ amount_word (encodePlaceBet c a) = BigInt_0x (abi_word a).
Proof.
  assert (Hw : forall n, String.length (abi_word n) = 64%nat)
    by (intros n; apply length_hex_digits).
  assert (Hparams : params_of (encodePlaceBet c a)
                    = abi_word (word_of_choice c) +:+ abi_word a).
  { unfold params_of, slice_from, encodePlaceBet.
    rewrite (substring_append_r _ _ 10) by done.
    apply substring_all. by rewrite !length_append, !Hw. }
  split; [split|split].
  - unfold slice, encodePlaceBet. by apply substring_append_l.
  - by rewrite Hparams, length_append, !Hw.
  - unfold choice_word. rewrite Hparams. unfold slice.
    by rewrite (substring_append_l _ _ 64).
  - unfold amount_word. rewrite Hparams. unfold slice.
    rewrite (substring_append_r _ _ 64) by done. by rewrite (substring_all _ 64).
Qed.

(** X27. The decoder inverts the encoding of a call: from the input of
    [placeBet(c, a)], for any [uint256] amount [a], it returns the pair
    [(c, a)] when [a] lies within the bet limits, and the failure that
    names [a] otherwise. *)
Theorem decodePlaceBetTransaction_inverts_encoding (c : BetChoice) (a : Z) :
  0 <= a < 2 ^ 256 ->
  decodePlaceBetTransaction (encodePlaceBet c a)
  = if (BET_LIMITS.MIN_BET_WEI <=? a) && (a <=? BET_LIMITS.MAX_BET_WEI)
    then decoded c a
    else invalid_decode ("Amount " +:+ pretty a +:+ " outside bet limits").
Proof.
  intros Ha. destruct (encodePlaceBet_shaped c a) as (Hshape & Hc & Hamount).
  apply decode_shaped; [done|]. rewrite Hc, Hamount.
  rewrite (BigInt_0x_abi_word (word_of_choice c)) by (destruct c; cbn; lia).
  rewrite (BigInt_0x_abi_word a) by done.
  replace (negb (word_of_choice c =? 0) && negb (word_of_choice c =? 1)) with false
    by by destruct c.
  replace (if word_of_choice c =? 0 then YES else NO) with c by by destruct c.
  destruct (Z.leb_spec BET_LIMITS.MIN_BET_WEI a), (Z.leb_spec a BET_LIMITS.MAX_BET_WEI),
    (Z.ltb_spec a BET_LIMITS.MIN_BET_WEI), (Z.gtb_spec a BET_LIMITS.MAX_BET_WEI);
    try lia; done.
Qed.

Lemma decodePlaceBetTransaction_inverts_encoding_witness :
  0 <= 7000000 < 2 ^ 256
  /\ decodePlaceBetTransaction (encodePlaceBet NO 7000000)
     = if (BET_LIMITS.MIN_BET_WEI <=? 7000000) && (7000000 <=? BET_LIMITS.MAX_BET_WEI)
       then decoded NO 7000000
       else invalid_decode ("Amount " +:+ pretty 7000000 +:+ " outside bet limits").
Proof.
  split; [lia|]. apply (decodePlaceBetTransaction_inverts_encoding NO 7000000). lia.
Defined.

End EncodingProofs.
